(** * SeaShell: a shallow embedding of [Seashell.c]

    The interpreter reads a line, splits it on spaces into at most ten
    tokens, handles the built-ins [exit] and [cd] itself and hands every
    other line to [execCmd], which scans the tokens for the operators
    [&], [>], [>>], [<] and [|], forks one child (or two, joined by a
    pipe) and waits for them unless the line asked for the background.

    The C code is translated function by function.  Everything the code
    asks of the operating system goes through a small kernel model: a
    descriptor table per process, a table of child processes, and a
    queue of the blocking waits the interpreter is suspended in. *)

From Stdlib Require Import Ascii String ZArith.
From stdpp Require Import base option list strings.

Open Scope string_scope.
Open Scope list_scope.
Open Scope nat_scope.

(* ================================================================= *)
(** * Kernel objects *)

Inductive pipe_end := ReadEnd | WriteEnd.

(** The [open] flags the program uses ([fcntl.h]), kept symbolic. *)
Inductive oflag := O_RDONLY | O_WRONLY | O_CREAT | O_TRUNC | O_APPEND.

(** What a descriptor refers to. *)
Inductive fobj :=
| Tty
| PipeObj (id : nat) (e : pipe_end)
| FileObj (path : string) (flags : list oflag).

(** A descriptor table: slot [fd] holds the object descriptor [fd]
    refers to, or [None] when [fd] is closed. *)
Abbreviation fdtable := (list (option fobj)).

Definition STDIN_FILENO : nat := 0.
Definition STDOUT_FILENO : nat := 1.

Definition fd_get (t : fdtable) (fd : nat) : option fobj := mjoin (t !! fd).

(** The kernel hands out the lowest descriptor that is not open. *)
Fixpoint fd_lowest_free (t : fdtable) : nat :=
  match t with
  | Some _ :: t' => S (fd_lowest_free t')
  | _ => 0
  end.

Definition fd_put (t : fdtable) (fd : nat) (o : fobj) : fdtable :=
  <[fd := Some o]> (t ++ replicate (S fd - length t) None).

Definition fd_close (t : fdtable) (fd : nat) : fdtable := <[fd := None]> t.

(** Number of descriptors a table holds open. *)
Definition open_count (t : fdtable) : nat := length (omap id t).

(** What a process did, in order: its system calls and what it wrote. *)
Inductive event :=
| EvStdout (text : string)
| EvPerror (text : string)
| EvOpen (path : option string) (flags : list oflag) (mode : option N)
         (res : option nat)
| EvDup2 (oldfd newfd : nat)
| EvClose (fd : nat)
| EvExecvp (file : option string) (argv : list string)
| EvPipe (res : option (nat * nat))
| EvFork (res : option nat)
| EvWait
| EvWaitpid (pid : nat) (nohang : bool)
| EvChdir (path : option string) (ok : bool).

(** One process as it sees itself. *)
Record Proc := { fds : fdtable; log : list event }.

(** The signal of an invalid memory reference ([signal.h]). *)
Definition SIGSEGV : nat := 11.

(** How a child ends the code the shell wrote for it: its image is
    replaced by a program, it calls [exit], or the kernel kills it with
    a signal. *)
Inductive fate :=
| Replaced (file : string) (argv : list string)
| Exits (status : Z)
| Killed (signal : nat).

(** A child runs, or has terminated and waits to be collected: with
    the status it exited with, or killed by a signal. *)
Inductive run_state := Running | Zombie (status : Z) | Signaled (signal : nat).

Record Child := {
  c_pid : nat;
  c_proc : Proc;
  c_fate : fate;
  c_state : run_state
}.

(** A blocking wait the interpreter is suspended in. *)
Inductive waitreq := WAny | WPid (pid : nat).

(** The interpreter process and what the kernel keeps for it. *)
Record Sys := {
  self : Proc;
  children : list Child;
  next_pid : nat;
  next_pipe : nat;
  cwd : string;
  pending : list waitreq
}.

(** The part of the machine the program cannot see into: the
    environment, the file system, the search path and the limits. *)
Record World := {
  w_home : option string;
  w_chdir : string -> string -> option string;
  w_open : string -> list oflag -> bool;
  w_exec : string -> bool;
  w_nofile : nat;
  w_nproc : nat
}.

(* ================================================================= *)
(** * System calls on one process *)

Definition emit (e : event) (p : Proc) : Proc :=
  {| fds := fds p; log := log p ++ [e] |}.

Definition k_close (fd : nat) (p : Proc) : Proc :=
  emit (EvClose fd) {| fds := fd_close (fds p) fd; log := log p |}.

(** [dup2]: [newfd] becomes a copy of [oldfd]; nothing happens when
    [oldfd] is not open. *)
Definition k_dup2 (oldfd newfd : nat) (p : Proc) : Proc :=
  emit (EvDup2 oldfd newfd)
    match fd_get (fds p) oldfd with
    | Some o => {| fds := fd_put (fds p) newfd o; log := log p |}
    | None => p
    end.

(** [open]: fails on a null path, on a path the file system refuses,
    and when the descriptor limit is reached. *)
Definition k_open (w : World) (path : option string) (flags : list oflag)
    (mode : option N) (p : Proc) : option nat * Proc :=
  let fd := fd_lowest_free (fds p) in
  match path with
  | Some f =>
      if w_open w f flags && bool_decide (fd < w_nofile w)
      then (Some fd,
            emit (EvOpen path flags mode (Some fd))
              {| fds := fd_put (fds p) fd (FileObj f flags); log := log p |})
      else (None, emit (EvOpen path flags mode None) p)
  | None => (None, emit (EvOpen path flags mode None) p)
  end.

(** ** Data in a pipe

    The program moves no data itself: the programs its children turn
    into write to and read from the descriptors they are left with.
    A pipe is a queue of bytes, and [pipe_store] gives for each pipe
    the bytes in flight, oldest first. *)
Definition pipe_store : Type := nat → list Byte.byte.

(** [write(fd, data)] in a process with table [t]: on the write end of
    a pipe the bytes queue up behind those in flight. *)
Definition k_write (t : fdtable) (fd : nat) (data : list Byte.byte)
    (ps : pipe_store) : option pipe_store :=
  match fd_get t fd with
  | Some (PipeObj id WriteEnd) =>
      Some (λ i, if decide (i = id) then ps i ++ data else ps i)
  | _ => None
  end.

(** [read(fd, buf, n)] in a process with table [t]: on the read end of
    a pipe, up to [n] of the oldest bytes in flight, which leave the
    pipe. *)
Definition k_read (t : fdtable) (fd n : nat) (ps : pipe_store)
    : option (list Byte.byte * pipe_store) :=
  match fd_get t fd with
  | Some (PipeObj id ReadEnd) =>
      Some (take n (ps id),
            λ i, if decide (i = id) then drop n (ps i) else ps i)
  | _ => None
  end.

(* ================================================================= *)
(** * The code a child runs

    A child either reaches the end of a call with a value or leaves
    through [exit] or inside [execvp]. *)

Definition child (A : Type) : Type := Proc -> (fate + A) * Proc.

#[export] Instance child_ret : MRet child := λ A a p, (inr a, p).

#[export] Instance child_bind : MBind child := λ A B f m p,
  match m p with
  | (inl e, p') => (inl e, p')
  | (inr a, p') => f a p'
  end.

Definition c_exit {A : Type} (status : Z) : child A :=
  λ p, (inl (Exits status), p).

Definition c_do (f : Proc -> Proc) : child () := λ p, (inr (), f p).

Definition c_perror (text : string) : child () := c_do (emit (EvPerror text)).
Definition c_printf (text : string) : child () := c_do (emit (EvStdout text)).
Definition c_close (fd : Z) : child () := c_do (k_close (Z.to_nat fd)).
Definition c_dup2 (oldfd : Z) (newfd : nat) : child () :=
  c_do (k_dup2 (Z.to_nat oldfd) newfd).

Definition c_open (w : World) (path : option string) (flags : list oflag)
    (mode : option N) : child Z :=
  λ p, match k_open w path flags mode p with
       | (Some fd, p') => (inr (Z.of_nat fd), p')
       | (None, p') => (inr (-1)%Z, p')
       end.

(** The argument vector [execvp] reads from a [char**]: the strings up
    to the first null pointer. *)
Fixpoint c_argv (a : list (option string)) : list string :=
  match a with
  | Some t :: a' => t :: c_argv a'
  | _ => []
  end.

(** [a[i]] for a [char**]. *)
Definition arg (a : list (option string)) (i : nat) : option string :=
  mjoin (a !! i).

(** [execvp(file, argv)]: does not return when the program is found
    and returns [-1] when it is not.  The parameter [file] is declared
    non-null and the C library reads the string behind it before it
    does anything else: with a null [file] the call never returns
    either, the child is killed by [SIGSEGV] inside it. *)
Definition execvp (w : World) (file : option string)
    (argv : list (option string)) : child Z :=
  λ p, let p' := emit (EvExecvp file (c_argv argv)) p in
       match file with
       | Some f => if w_exec w f then (inl (Replaced f (c_argv argv)), p')
                   else (inr (-1)%Z, p')
       | None => (inl (Killed SIGSEGV), p')
       end.

(** The code of a child never falls off its end. *)
Definition run_child (code : child Empty_set) (p : Proc) : fate * Proc :=
  match code p with
  | (inl e, p') => (e, p')
  | (inr v, _) => match v with end
  end.

(* ================================================================= *)
(** * System calls of the interpreter *)

Definition with_self (p : Proc) (s : Sys) : Sys :=
  {| self := p; children := children s; next_pid := next_pid s;
     next_pipe := next_pipe s; cwd := cwd s; pending := pending s |}.

Definition sys_emit (e : event) (s : Sys) : Sys := with_self (emit e (self s)) s.
Definition sys_printf (text : string) : Sys -> Sys := sys_emit (EvStdout text).
Definition sys_perror (text : string) : Sys -> Sys := sys_emit (EvPerror text).
Definition sys_close (fd : nat) (s : Sys) : Sys := with_self (k_close fd (self s)) s.

(** The two lowest free descriptors of [t] bound to the ends of pipe
    [id], read end first, and the table that results. *)
Definition fd_alloc_pipe (id : nat) (t : fdtable) : nat * nat * fdtable :=
  let r := fd_lowest_free t in
  let t1 := fd_put t r (PipeObj id ReadEnd) in
  let wr := fd_lowest_free t1 in
  (r, wr, fd_put t1 wr (PipeObj id WriteEnd)).

(** [pipe]: a fresh pipe on the two lowest free descriptors; fails
    when the second one would pass the descriptor limit. *)
Definition sys_pipe (w : World) (s : Sys) : option (nat * nat) * Sys :=
  let '(r, wr, t2) := fd_alloc_pipe (next_pipe s) (fds (self s)) in
  if bool_decide (wr < w_nofile w) then
    (Some (r, wr),
     {| self := emit (EvPipe (Some (r, wr)))
                  {| fds := t2; log := log (self s) |};
        children := children s; next_pid := next_pid s;
        next_pipe := S (next_pipe s); cwd := cwd s; pending := pending s |})
  else (None, sys_emit (EvPipe None) s).

(** A new child [pid]: it starts with the descriptor table [t] and an
    empty log, and has run [code] to its end. *)
Definition spawn (pid : nat) (code : child Empty_set) (t : fdtable) : Child :=
  let '(e, p) := run_child code {| fds := t; log := [] |} in
  {| c_pid := pid; c_proc := p; c_fate := e; c_state := Running |}.

(** [fork]: the child starts with a copy of the descriptor table and
    runs [code]; fails when the process limit is reached. *)
Definition sys_fork (w : World) (code : child Empty_set) (s : Sys)
    : option nat * Sys :=
  if bool_decide (length (children s) < w_nproc w) then
    (Some (next_pid s),
     {| self := emit (EvFork (Some (next_pid s))) (self s);
        children := children s ++ [spawn (next_pid s) code (fds (self s))];
        next_pid := S (next_pid s); next_pipe := next_pipe s; cwd := cwd s;
        pending := pending s |})
  else (None, sys_emit (EvFork None) s).

Definition is_zombie (c : Child) : bool :=
  match c_state c with
  | Zombie _ | Signaled _ => true
  | Running => false
  end.

Definition find_child (pid : nat) (cs : list Child) : option Child :=
  snd <$> list_find (λ c, c_pid c = pid) cs.

Definition first_zombie (cs : list Child) : option nat :=
  c_pid ∘ snd <$> list_find (λ c, is_zombie c = true) cs.

Definition reap (pid : nat) (cs : list Child) : list Child :=
  filter (λ c, c_pid c ≠ pid) cs.

(** The kernel lets the interpreter out of the waits it is suspended
    in, oldest first, as far as the child table allows: [wait] returns
    for any terminated child (or at once when there is no child),
    [waitpid] for the named one. *)
Fixpoint wake_loop (reqs : list waitreq) (cs : list Child)
    : list waitreq * list Child :=
  match reqs with
  | [] => ([], cs)
  | WAny :: rest =>
      match first_zombie cs with
      | Some pid => wake_loop rest (reap pid cs)
      | None => match cs with
                | [] => wake_loop rest cs
                | _ :: _ => (reqs, cs)
                end
      end
  | WPid pid :: rest =>
      match find_child pid cs with
      | Some c => if is_zombie c then wake_loop rest (reap pid cs)
                  else (reqs, cs)
      | None => wake_loop rest cs
      end
  end.

Definition wake (s : Sys) : Sys :=
  let '(reqs, cs) := wake_loop (pending s) (children s) in
  {| self := self s; children := cs; next_pid := next_pid s;
     next_pipe := next_pipe s; cwd := cwd s; pending := reqs |}.

Definition block_on (r : waitreq) (s : Sys) : Sys :=
  wake {| self := self s; children := children s; next_pid := next_pid s;
          next_pipe := next_pipe s; cwd := cwd s;
          pending := pending s ++ [r] |}.

(** [wait(NULL)] *)
Definition sys_wait (s : Sys) : Sys := block_on WAny (sys_emit EvWait s).

(** [waitpid(pid, NULL, 0)] *)
Definition sys_waitpid (pid : nat) (s : Sys) : Sys :=
  block_on (WPid pid) (sys_emit (EvWaitpid pid false) s).

(** [waitpid(pid, NULL, WNOHANG)]: collects the child when it has
    already terminated and returns at once in any case. *)
Definition sys_waitpid_nohang (pid : nat) (s : Sys) : Sys :=
  let s := sys_emit (EvWaitpid pid true) s in
  match find_child pid (children s) with
  | Some c =>
      if is_zombie c then
        {| self := self s; children := reap pid (children s);
           next_pid := next_pid s; next_pipe := next_pipe s; cwd := cwd s;
           pending := pending s |}
      else s
  | None => s
  end.

(** The interpreter is back in its loop when no wait is outstanding. *)
Definition at_prompt (s : Sys) : bool :=
  match pending s with [] => true | _ => false end.

(** A step of the environment: child [pid] terminates.  A child that
    called [exit] leaves its own status, a replaced image the status
    [status], and a child the kernel killed leaves the signal. *)
Definition terminate (status : Z) (c : Child) : Child :=
  {| c_pid := c_pid c; c_proc := c_proc c; c_fate := c_fate c;
     c_state := match c_fate c with
                | Exits k => Zombie k
                | Replaced _ _ => Zombie status
                | Killed sig => Signaled sig
                end |}.

Definition child_exits (pid : nat) (status : Z) (s : Sys) : Sys :=
  wake {| self := self s;
          children := (λ c, if bool_decide (c_pid c = pid) && negb (is_zombie c)
                            then terminate status c else c) <$> children s;
          next_pid := next_pid s; next_pipe := next_pipe s; cwd := cwd s;
          pending := pending s |}.

(* ================================================================= *)
(** * The program *)

(** ** Reading a line ([main], lines 51-60) *)

Definition is_eol (c : ascii) : bool :=
  (Ascii.eqb c "010" || Ascii.eqb c "000")%char.

(** [command[strcspn(command, "\n")] = 0]: the text ends at its first
    newline (a C string ends at its first NUL in any case). *)
Fixpoint cut_line (s : string) : string :=
  match s with
  | EmptyString => EmptyString
  | String c r => if is_eol c then EmptyString else String c (cut_line r)
  end.

Fixpoint skip_delims (s : string) : string :=
  match s with
  | String c r => if Ascii.eqb c " " then skip_delims r else s
  | EmptyString => EmptyString
  end.

(** The token at the head of [s] and what follows its delimiter. *)
Fixpoint span_token (s : string) : string * string :=
  match s with
  | EmptyString => (EmptyString, EmptyString)
  | String c r =>
      if Ascii.eqb c " " then (EmptyString, r)
      else let '(t, r') := span_token r in (String c t, r')
  end.

(** One call of [strtok(_, " ")] on the text not yet consumed. *)
Definition strtok (s : string) : option (string * string) :=
  match skip_delims s with
  | EmptyString => None
  | s' => Some (span_token s')
  end.

(** [while (token != NULL && i < 10) args[i++] = token; ...] *)
Fixpoint tokenize_loop (fuel : nat) (s : string) : list string :=
  match fuel with
  | 0 => []
  | S fuel' =>
      match strtok s with
      | None => []
      | Some (t, r) => t :: tokenize_loop fuel' r
      end
  end.

Definition tokenize (command : string) : list string :=
  tokenize_loop 10 (cut_line command).

(** The array [args] after [args[i] = NULL]: the tokens and their
    terminator.  The program reads no slot behind the terminator. *)
Definition args_of (toks : list string) : list (option string) :=
  (Some <$> toks) ++ [None].

(** ** Redirections *)

(** The creation mode the program passes to [open], octal [0777]. *)
Definition mode_0777 : N := 0x1ff.

Definition inputRedirection (w : World) (cmd : list (option string))
    (input_file_pos : nat) : child () :=
  fd ← c_open w (arg cmd (input_file_pos + 1)) [O_RDONLY] None;
  if (fd <? 0)%Z then
    c_perror "Error opening file" ;; c_exit 1
  else
    c_dup2 fd STDIN_FILENO ;; c_close fd.

Definition outputRedirection (w : World) (cmd : list (option string))
    (output_file_pos : nat) (append : bool) : child () :=
  fd ← (if append
        then c_open w (arg cmd (output_file_pos + 1))
               [O_WRONLY; O_CREAT; O_APPEND] (Some mode_0777)
        else c_open w (arg cmd (output_file_pos + 1))
               [O_WRONLY; O_CREAT; O_TRUNC] (Some mode_0777));
  if (fd <? 0)%Z then
    c_perror "Error opening file" ;; c_exit 1
  else
    c_dup2 fd STDOUT_FILENO ;; c_close fd.

(** ** The operator scan ([execCmd], lines 122-166) *)

(** The local variables of [execCmd].  The flags only ever hold 0 or 1
    and the positions an index into [args]. *)
Record Flags := {
  background : bool;
  append : bool;
  output_redirection : bool;
  input_redirection : bool;
  input_file_pos : nat;
  output_file_pos : nat;
  is_pipe : bool;
  piped_cmd_pos : nat
}.

Definition flags0 : Flags :=
  {| background := false; append := false; output_redirection := false;
     input_redirection := false; input_file_pos := 0; output_file_pos := 0;
     is_pipe := false; piped_cmd_pos := 0 |}.

Definition set_background (f : Flags) : Flags :=
  {| background := true; append := append f;
     output_redirection := output_redirection f;
     input_redirection := input_redirection f;
     input_file_pos := input_file_pos f; output_file_pos := output_file_pos f;
     is_pipe := is_pipe f; piped_cmd_pos := piped_cmd_pos f |}.

Definition set_output (i : nat) (f : Flags) : Flags :=
  {| background := background f; append := append f;
     output_redirection := true;
     input_redirection := input_redirection f;
     input_file_pos := input_file_pos f; output_file_pos := i;
     is_pipe := is_pipe f; piped_cmd_pos := piped_cmd_pos f |}.

Definition set_append (i : nat) (f : Flags) : Flags :=
  {| background := background f; append := true;
     output_redirection := output_redirection f;
     input_redirection := input_redirection f;
     input_file_pos := input_file_pos f; output_file_pos := i;
     is_pipe := is_pipe f; piped_cmd_pos := piped_cmd_pos f |}.

Definition set_input (i : nat) (f : Flags) : Flags :=
  {| background := background f; append := append f;
     output_redirection := output_redirection f;
     input_redirection := true;
     input_file_pos := i; output_file_pos := output_file_pos f;
     is_pipe := is_pipe f; piped_cmd_pos := piped_cmd_pos f |}.

Definition set_pipe (i : nat) (f : Flags) : Flags :=
  {| background := background f; append := append f;
     output_redirection := output_redirection f;
     input_redirection := input_redirection f;
     input_file_pos := input_file_pos f; output_file_pos := output_file_pos f;
     is_pipe := true; piped_cmd_pos := i + 1 |}.

(** [for (int i = 0; i < 10; i++)], entered at [i] with [fuel = 10 - i].
    Every operator found is overwritten with a null pointer; a [|]
    also opens a pipe, whose descriptors go into a local array that is
    never looked at again. *)
Fixpoint scan_loop (w : World) (fuel i : nat) (parsed : list (option string))
    (f : Flags) (s : Sys) : list (option string) * Flags * Sys :=
  match fuel with
  | 0 => (parsed, f, s)
  | S fuel' =>
      match arg parsed i with
      | None => (parsed, f, s)
      | Some tok =>
          if String.eqb tok "&" then
            scan_loop w fuel' (S i) (<[i := None]> parsed) (set_background f) s
          else if String.eqb tok ">" then
            scan_loop w fuel' (S i) (<[i := None]> parsed) (set_output i f) s
          else if String.eqb tok ">>" then
            scan_loop w fuel' (S i) (<[i := None]> parsed) (set_append i f) s
          else if String.eqb tok "<" then
            scan_loop w fuel' (S i) (<[i := None]> parsed) (set_input i f) s
          else if String.eqb tok "|" then
            scan_loop w fuel' (S i) (<[i := None]> parsed) (set_pipe i f)
              (snd (sys_pipe w s))
          else
            scan_loop w fuel' (S i) parsed f s
      end
  end.

(** ** The children *)

(** The child of a single command ([execCmd], lines 183-193). *)
Definition single_child (w : World) (parsed : list (option string))
    (f : Flags) : child Empty_set :=
  (if output_redirection f || append f
   then outputRedirection w parsed (output_file_pos f) (append f)
   else mret ()) ;;
  (if input_redirection f
   then inputRedirection w parsed (input_file_pos f)
   else mret ()) ;;
  r ← execvp w (arg parsed 0) parsed;
  (if (r <? 0)%Z then c_printf "
Could not execute command..
" else mret ()) ;;
  c_exit 0.

(** The first child of a pipeline ([pipeCommands], lines 277-289). *)
Definition first_child (w : World) (parsed : list (option string))
    (pipe_fd0 pipe_fd1 : nat) (input_redirection : bool)
    (input_file_pos : nat) : child Empty_set :=
  c_close (Z.of_nat pipe_fd0) ;;
  c_dup2 (Z.of_nat pipe_fd1) STDOUT_FILENO ;;
  c_close (Z.of_nat pipe_fd1) ;;
  (if input_redirection
   then inputRedirection w parsed input_file_pos
   else mret ()) ;;
  r ← execvp w (arg parsed 0) parsed;
  (if (r <? 0)%Z
   then c_perror "First command execution failed" ;; c_exit 1
   else mret ()) ;;
  c_exit 0.

(** The second child of a pipeline ([pipeCommands], lines 302-314). *)
Definition second_child (w : World) (parsed : list (option string))
    (pipe_fd0 pipe_fd1 : nat) (output_redirection append : bool)
    (output_file_pos piped_cmd_pos : nat) : child Empty_set :=
  c_close (Z.of_nat pipe_fd1) ;;
  c_dup2 (Z.of_nat pipe_fd0) STDIN_FILENO ;;
  c_close (Z.of_nat pipe_fd0) ;;
  (if output_redirection || append
   then outputRedirection w parsed output_file_pos append
   else mret ()) ;;
  r ← execvp w (arg parsed piped_cmd_pos) (drop piped_cmd_pos parsed);
  (if (r <? 0)%Z
   then c_perror "Second command execution failed" ;; c_exit 1
   else mret ()) ;;
  c_exit 0.

(** ** The orchestration *)

Definition pipeCommands (w : World) (parsed : list (option string))
    (background output_redirection append input_redirection : bool)
    (output_file_pos input_file_pos piped_cmd_pos : nat) (s : Sys) : Sys :=
  match sys_pipe w s with
  | (None, s) => sys_perror "Pipe creation failed" s
  | (Some (pipe_fd0, pipe_fd1), s) =>
      match sys_fork w (first_child w parsed pipe_fd0 pipe_fd1
                          input_redirection input_file_pos) s with
      | (None, s) => sys_perror "Fork failed" s
      | (Some pid1, s) =>
          match sys_fork w (second_child w parsed pipe_fd0 pipe_fd1
                              output_redirection append output_file_pos
                              piped_cmd_pos) s with
          | (None, s) => sys_perror "Second fork failed" s
          | (Some pid2, s) =>
              let s := sys_close pipe_fd0 s in
              let s := sys_close pipe_fd1 s in
              if background then s
              else sys_waitpid pid2 (sys_waitpid pid1 s)
          end
      end
  end.

Definition execCmd (w : World) (args : list (option string)) (s : Sys) : Sys :=
  let '(parsed, f, s) := scan_loop w 10 0 args flags0 s in
  if is_pipe f then
    pipeCommands w parsed (background f) (output_redirection f) (append f)
      (input_redirection f) (output_file_pos f) (input_file_pos f)
      (piped_cmd_pos f) s
  else
    match sys_fork w (single_child w parsed f) s with
    | (None, s) => sys_printf "
Failed forking child.." s
    | (Some pid, s) =>
        if background f then sys_waitpid_nohang pid s
        else sys_wait s
    end.

(** ** The read-eval loop ([main]) *)

Inductive outcome :=
| Continue (s : Sys)
| Exited (status : Z) (s : Sys).

(** [chdir]: fails on a null path and where the file system refuses. *)
Definition sys_chdir (w : World) (path : option string) (s : Sys) : bool * Sys :=
  match path ≫= w_chdir w (cwd s) with
  | Some d =>
      (true,
       {| self := emit (EvChdir path true) (self s); children := children s;
          next_pid := next_pid s; next_pipe := next_pipe s; cwd := d;
          pending := pending s |})
  | None => (false, sys_emit (EvChdir path false) s)
  end.

(** The body of the loop once [fgets] has filled [command]
    (lines 51-87). *)
Definition main_body (w : World) (command : string) (s : Sys) : outcome :=
  let args := args_of (tokenize command) in
  match arg args 0 with
  | None => Continue s
  | Some a0 =>
      if String.eqb a0 "exit" then Exited 1 s
      else if String.eqb a0 "cd" then
        match arg args 1 with
        | None => Continue s
        | Some a1 =>
            if String.eqb a1 "~" then
              match sys_chdir w (w_home w) s with
              | (true, s) => Continue (sys_printf "Changed directory to home.
" s)
              | (false, s) =>
                  Exited 1 (sys_perror "Error: Failed to change directory to home.
" s)
              end
            else
              match sys_chdir w (Some a1) s with
              | (true, s) => Continue s
              | (false, s) =>
                  Continue (sys_perror "Error: Failed to change directory.
" s)
              end
        end
      else Continue (execCmd w args s)
  end.

(** One turn of [while (1)]: the prompt, [fgets] (which delivers
    [input], at most 99 characters of the line, or nothing at end of
    input), and the body. *)
Definition main_iter (w : World) (input : option string) (s : Sys) : outcome :=
  let s := sys_printf "
SeaShell> " s in
  match input with
  | None => Exited 0 s
  | Some command => main_body w command s
  end.

(* ================================================================= *)
(** * A concrete machine to run the program on *)

(** Every directory and file can be used, every program is found
    except [nosuchcmd], and the limits are far away. *)
Definition w_std : World :=
  {| w_home := Some "/home/user";
     w_chdir := λ _ path, Some path;
     w_open := λ _ _, true;
     w_exec := λ file, negb (String.eqb file "nosuchcmd");
     w_nofile := 1024;
     w_nproc := 64 |}.

(** The same machine with no usable home directory. *)
Definition w_nohome : World :=
  {| w_home := Some "/home/user";
     w_chdir := λ _ path, if String.eqb path "/home/user" then None else Some path;
     w_open := λ _ _, true;
     w_exec := λ _, true;
     w_nofile := 1024;
     w_nproc := 64 |}.

(** The interpreter as it starts: the three standard streams on the
    terminal, no children. *)
Definition s_init : Sys :=
  {| self := {| fds := [Some Tty; Some Tty; Some Tty]; log := [] |};
     children := []; next_pid := 1; next_pipe := 0; cwd := "/";
     pending := [] |}.

(* ================================================================= *)
(** * Vocabulary for the statements *)

(** The five tokens [execCmd] compares against. *)
Definition is_operator (tok : string) : bool :=
  String.eqb tok "&" || String.eqb tok ">" || String.eqb tok ">>"
  || String.eqb tok "<" || String.eqb tok "|".

(** The two output operators. *)
Definition is_output_op (tok : string) : bool :=
  String.eqb tok ">" || String.eqb tok ">>".

Definition is_pipe_op (tok : string) : bool := String.eqb tok "|".

(** The two names [main] handles itself. *)
Definition is_builtin (tok : string) : bool :=
  String.eqb tok "exit" || String.eqb tok "cd".

(** The longest run of ordinary tokens at the head of a token list. *)
Fixpoint until_operator (toks : list string) : list string :=
  match toks with
  | t :: r => if is_operator t then [] else t :: until_operator r
  | [] => []
  end.

(** The state an outcome carries. *)
Definition sys_of (o : outcome) : Sys :=
  match o with Continue s => s | Exited _ s => s end.

(** State [s] after the interpreter logged [evs]. *)
Definition logged (evs : list event) (s : Sys) : Sys :=
  {| self := {| fds := fds (self s); log := log (self s) ++ evs |};
     children := children s; next_pid := next_pid s;
     next_pipe := next_pipe s; cwd := cwd s; pending := pending s |}.

(** State [s] after the interpreter moved to directory [d], logging [evs]. *)
Definition moved (d : string) (evs : list event) (s : Sys) : Sys :=
  {| self := {| fds := fds (self s); log := log (self s) ++ evs |};
     children := children s; next_pid := next_pid s;
     next_pipe := next_pipe s; cwd := d; pending := pending s |}.

(** The children in [s'] that did not exist in [s]. *)
Definition created (s s' : Sys) : list Child :=
  filter (λ c, next_pid s ≤ c_pid c) (children s').

(** Process identifiers already handed out lie below the next one. *)
Definition sys_wf (s : Sys) : Prop :=
  Forall (λ c, c_pid c < next_pid s) (children s).

(** No child numbered [N] or above has terminated. *)
Definition fresh_running (N : nat) (cs : list Child) : Prop :=
  Forall (λ c, N ≤ c_pid c → is_zombie c = false) cs.

(** The [execvp] and [open] calls in a log. *)
Definition execs_of (l : list event) : list (option string * list string) :=
  omap (λ e, match e with EvExecvp f a => Some (f, a) | _ => None end) l.

Definition opens_of (l : list event)
    : list (option string * list oflag * option N) :=
  omap (λ e, match e with EvOpen p fl m _ => Some (p, fl, m) | _ => None end) l.

(** What went to the error stream or was printed. *)
Definition reports_of (l : list event) : list string :=
  omap (λ e, match e with
             | EvPerror t => Some t
             | EvStdout t => Some t
             | _ => None
             end) l.

(** The three operators that take the next token as their path. *)
Definition is_redirection_op (tok : string) : bool :=
  String.eqb tok ">" || String.eqb tok ">>" || String.eqb tok "<".

(** The reading of the argument vector that keeps every token that is
    neither an operator nor the token right after a redirection
    operator; [after_op] tells that the previous token was one. *)
Fixpoint spec_argv_from (after_op : bool) (toks : list string) : list string :=
  match toks with
  | [] => []
  | t :: r =>
      if is_operator t then spec_argv_from (is_redirection_op t) r
      else if after_op then spec_argv_from false r
      else t :: spec_argv_from false r
  end.

Definition spec_argv (toks : list string) : list string :=
  spec_argv_from false toks.

(** The scan, told over the token list instead of the array: what it
    leaves in [args], in the flags and in the kernel. *)
Definition blank (toks : list string) : list (option string) :=
  (λ t, if is_operator t then None else Some t) <$> toks.

Definition classify_step (i : nat) (tok : string) (f : Flags) : Flags :=
  if String.eqb tok "&" then set_background f
  else if String.eqb tok ">" then set_output i f
  else if String.eqb tok ">>" then set_append i f
  else if String.eqb tok "<" then set_input i f
  else if String.eqb tok "|" then set_pipe i f
  else f.

Fixpoint classify (i : nat) (toks : list string) (f : Flags) : Flags :=
  match toks with
  | [] => f
  | t :: r => classify (S i) r (classify_step i t f)
  end.

Fixpoint scan_pipes (w : World) (toks : list string) (s : Sys) : Sys :=
  match toks with
  | [] => s
  | t :: r => scan_pipes w r (if String.eqb t "|" then snd (sys_pipe w s) else s)
  end.

(** The flags [outputRedirection] opens its file with. *)
Definition out_flags (append : bool) : list oflag :=
  [O_WRONLY; O_CREAT; if append then O_APPEND else O_TRUNC].

(** Running child code [c] from [p]: [Q] holds of the value and the
    process when [c] runs to its end, [E] of the fate and the process
    when it leaves through [exit] or inside [execvp]. *)
Definition wp {A : Type} (c : child A) (Q : A → Proc → Prop)
    (E : fate → Proc → Prop) (p : Proc) : Prop :=
  match c p with
  | (inr a, p') => Q a p'
  | (inl e, p') => E e p'
  end.

(** The [open] calls in a log that failed. *)
Definition failed_opens (l : list event)
    : list (option string * list oflag * option N) :=
  omap (λ e, match e with
             | EvOpen p fl m None => Some (p, fl, m)
             | _ => None
             end) l.

(** The process ended in [exit(1)], an error message being the last
    thing it did before. *)
Definition fails_loudly (e : fate) (p : Proc) : Prop :=
  e = Exits 1 ∧ ∃ text, last (log p) = Some (EvPerror text).

(** Child [c] and the argument vector [argv].  When every [open] of
    the child succeeded, it called [execvp] exactly once, on [argv]
    and on the program named by the first entry of [argv] (a null
    pointer when [argv] is empty).  When an [open] of the child failed,
    it never called [execvp]: it reported the failure and left through
    [exit(1)]. *)
Definition runs_argv (c : Child) (argv : list string) : Prop :=
  match failed_opens (log (c_proc c)) with
  | [] => execs_of (log (c_proc c)) = [(head argv, argv)]
  | _ :: _ =>
      execs_of (log (c_proc c)) = [] ∧ fails_loudly (c_fate c) (c_proc c)
  end.

(** How a child ends that calls [execvp] on [argv]: the program
    replaces its image when it is found; the child goes on to
    [exit(status)] when it is not; and with an empty [argv], the
    program being a null pointer, it is killed inside the call. *)
Definition exec_fate (w : World) (status : Z) (argv : list string) : fate :=
  match head argv with
  | Some f => if w_exec w f then Replaced f argv else Exits status
  | None => Killed SIGSEGV
  end.

(** Child [c] called [open] on [path], which failed: the child
    reported that with [perror] and left through [exit(1)], and it
    never called [execvp]. *)
Definition open_failed (c : Child) (path : option string)
    (flags : list oflag) (mode : option N) : Prop :=
  c_fate c = Exits 1 ∧
  execs_of (log (c_proc c)) = [] ∧
  ∃ l, log (c_proc c) =
         l ++ [EvOpen path flags mode None; EvPerror "Error opening file"].

(** Child [c] called [execvp] with a null pointer for the program and
    an empty argument vector, and was killed inside that call: it
    reported nothing. *)
Definition null_program (c : Child) : Prop :=
  c_fate c = Killed SIGSEGV ∧
  execs_of (log (c_proc c)) = [(None, [])] ∧
  last (log (c_proc c)) = Some (EvExecvp None []) ∧
  reports_of (log (c_proc c)) = [].

(** Every character of [s] passes the test [P]. *)
Fixpoint string_forallb (P : ascii → bool) (s : string) : bool :=
  match s with
  | EmptyString => true
  | String c r => P c && string_forallb P r
  end.

Definition not_space (c : ascii) : bool := negb (Ascii.eqb c " ").
Definition not_eol (c : ascii) : bool := negb (is_eol c).

(** A word: not empty, and free of spaces, newlines and NULs. *)
Definition is_word (t : string) : Prop :=
  t ≠ EmptyString ∧
  string_forallb not_space t = true ∧ string_forallb not_eol t = true.

(** Words written out with one space between them. *)
Fixpoint join_words (toks : list string) : string :=
  match toks with
  | [] => EmptyString
  | t :: r =>
      match r with
      | [] => t
      | _ :: _ => t +:+ String " " (join_words r)
      end
  end.

Definition is_amp (tok : string) : bool := String.eqb tok "&".
Definition is_append_op (tok : string) : bool := String.eqb tok ">>".
Definition is_truncate_op (tok : string) : bool := String.eqb tok ">".
Definition is_input_op (tok : string) : bool := String.eqb tok "<".

(** No descriptor below the limit is free. *)
Definition fd_full (w : World) (t : fdtable) : Prop :=
  ∀ k, k < w_nofile w → is_Some (fd_get t k).

(** The child table after child [pid] has terminated. *)
Definition mark_exited (pid : nat) (status : Z) (cs : list Child) : list Child :=
  (λ c, if bool_decide (c_pid c = pid) && negb (is_zombie c)
        then terminate status c else c) <$> cs.

(** [open(path, flags)] cannot succeed on table [t]: the path is a
    null pointer, the file system refuses it, or no descriptor is
    left. *)
Definition open_refused (w : World) (path : option string)
    (flags : list oflag) (t : fdtable) : Prop :=
  match path with
  | None => True
  | Some f => w_open w f flags = false ∨ w_nofile w ≤ fd_lowest_free t
  end.

(** Every pipe that a descriptor of [t] refers to was created before
    pipe [n]. *)
Definition pipes_below (n : nat) (t : fdtable) : Prop :=
  ∀ k id e, fd_get t k = Some (PipeObj id e) → id < n.

(** In [t] the only descriptor on pipe [id] is [fd], on its end [e]. *)
Definition holds_pipe_only_at (id fd : nat) (e : pipe_end) (t : fdtable)
    : Prop :=
  fd_get t fd = Some (PipeObj id e) ∧
  ∀ k e', fd_get t k = Some (PipeObj id e') → k = fd ∧ e' = e.

(** No descriptor of [t] is on pipe [id]. *)
Definition holds_no_pipe (id : nat) (t : fdtable) : Prop :=
  ∀ k e, fd_get t k ≠ Some (PipeObj id e).

(** Every entry of [t'] is a file or was in [t] already. *)
Definition only_files_added (t t' : fdtable) : Prop :=
  ∀ k x, fd_get t' k = Some x →
         (∃ f fl, x = FileObj f fl) ∨ fd_get t k = Some x.

(** A run of [n] spaces. *)
Fixpoint spaces (n : nat) : string :=
  match n with
  | 0 => EmptyString
  | S n' => String " " (spaces n')
  end.

(* ================================================================= *)
(** * The tokenizer *)

Lemma arg_args_of (toks : list string) (i : nat) :
  arg (args_of toks) i = toks !! i.
Proof.
  unfold arg, args_of.
  destruct (decide (i < length toks)) as [Hlt | Hge].
  - rewrite lookup_app_l by (by rewrite length_fmap).
    rewrite list_lookup_fmap.
    destruct (lookup_lt_is_Some_2 toks i Hlt) as [t Ht]. by rewrite Ht.
  - rewrite (lookup_ge_None_2 toks i) by lia.
    rewrite lookup_app_r by (rewrite length_fmap; lia).
    rewrite length_fmap.
    destruct (i - length toks) as [| k]; [done |]. by destruct k.
Qed.

(** A line of spaces only, with or without its newline, has no token. *)
Lemma tokenize_blank (n : nat) :
  tokenize (spaces n) = [] ∧
  tokenize (spaces n +:+ "
") = [].
Proof.
  unfold tokenize. split.
  - induction n as [| n IH]; [done |].
    simpl in *. unfold strtok in *. simpl. exact IH.
  - induction n as [| n IH]; [done |].
    simpl in *. unfold strtok in *. simpl. exact IH.
Qed.

(* ================================================================= *)
(** * The built-ins and the empty line *)

(** C9. A line without any token (an empty line, or spaces only)
    leaves the whole machine as it was: no child is created, nothing
    is reported, no branch of the dispatch is taken, and the turn of
    the loop consists of the prompt alone. *)
Theorem empty_line_is_ignored (w : World) (s : Sys) (command : string) :
  tokenize command = [] →
  main_body w command s = Continue s ∧
  main_iter w (Some command) s = Continue (logged [EvStdout "
SeaShell> "] s).
Proof.
  intros Htok. unfold main_iter, main_body.
  rewrite !arg_args_of, Htok. done.
Qed.

Lemma empty_line_is_ignored_witness :
  main_body w_std "   " s_init = Continue s_init ∧
  main_iter w_std (Some "   ") s_init = Continue (logged [EvStdout "
SeaShell> "] s_init).
Proof. apply (empty_line_is_ignored w_std s_init "   "). reflexivity. Defined.

(** C10. [cd] without a path does nothing at all: the directory, the
    log and the child table are those from before. *)
Theorem cd_without_path_is_noop (w : World) (s : Sys) (command : string) :
  tokenize command = ["cd"] →
  main_body w command s = Continue s.
Proof.
  intros Htok. unfold main_body. rewrite !arg_args_of, Htok. done.
Qed.

Lemma cd_without_path_is_noop_witness :
  main_body w_std "cd" s_init = Continue s_init.
Proof. apply (cd_without_path_is_noop w_std s_init "cd"). reflexivity. Defined.

(** C5, as stated, fails: when the home directory cannot be entered,
    [cd ~] reports the failure and ends the interpreter with status 1,
    so it is not true that every [cd] line lets the interpreter go on. *)
Lemma cd_home_failure_terminates :
  main_body w_nohome "cd ~" s_init =
    Exited 1 (logged [EvChdir (Some "/home/user") false;
                      EvPerror "Error: Failed to change directory to home.
"] s_init) ∧
  ¬ (∀ (w : World) (s : Sys) (command : string),
       tokenize command !! 0 = Some "cd" →
       ∃ s', main_body w command s = Continue s').
Proof.
  split; [reflexivity |].
  intros H. destruct (H w_nohome s_init "cd ~" eq_refl) as [s' Hs'].
  discriminate Hs'.
Qed.

(** C5, amended. [cd path] makes [path] the working directory and
    [cd ~] the value of [HOME], the latter announcing it.  A failing
    [cd path] is reported and the interpreter goes on; a failing
    [cd ~] is reported and ends the interpreter with status 1.  In no
    case is a process created or a descriptor touched. *)
Theorem cd_changes_directory (w : World) (s : Sys) (command path : string)
    (rest : list string) :
  tokenize command = "cd" :: path :: rest →
  main_body w command s =
    if String.eqb path "~" then
      match w_home w ≫= w_chdir w (cwd s) with
      | Some d =>
          Continue (moved d [EvChdir (w_home w) true;
                             EvStdout "Changed directory to home.
"] s)
      | None =>
          Exited 1 (logged [EvChdir (w_home w) false;
                            EvPerror "Error: Failed to change directory to home.
"] s)
      end
    else
      match w_chdir w (cwd s) path with
      | Some d => Continue (moved d [EvChdir (Some path) true] s)
      | None =>
          Continue (logged [EvChdir (Some path) false;
                            EvPerror "Error: Failed to change directory.
"] s)
      end.
Proof.
  intros Htok. unfold main_body. rewrite !arg_args_of, Htok. simpl.
  destruct (String.eqb path "~"); unfold sys_chdir; simpl.
  - destruct (w_home w ≫= w_chdir w (cwd s)) as [d |]; simpl;
      unfold sys_printf, sys_perror, sys_emit, with_self, emit, moved, logged;
      simpl; by rewrite <- app_assoc.
  - destruct (w_chdir w (cwd s) path) as [d |]; simpl;
      unfold sys_printf, sys_perror, sys_emit, with_self, emit, moved, logged;
      simpl; by rewrite <- ?app_assoc.
Qed.

Lemma cd_changes_directory_witness :
  main_body w_std "cd /tmp" s_init =
    Continue (moved "/tmp" [EvChdir (Some "/tmp") true] s_init).
Proof. apply (cd_changes_directory w_std s_init "cd /tmp" "/tmp" []). reflexivity. Defined.

(* ================================================================= *)
(** * The operator scan *)

Lemma tokenize_loop_length (fuel : nat) (s : string) :
  length (tokenize_loop fuel s) ≤ fuel.
Proof.
  revert s. induction fuel as [| fuel IH]; intros s; simpl; [lia |].
  destruct (strtok s) as [[t r] |]; simpl; [| lia].
  specialize (IH r). lia.
Qed.

Lemma tokenize_length (command : string) : length (tokenize command) ≤ 10.
Proof. apply tokenize_loop_length. Qed.

Lemma arg_middle (pre : list (option string)) (x : option string)
    (post : list (option string)) :
  arg (pre ++ x :: post) (length pre) = x.
Proof. unfold arg. by rewrite list_lookup_middle. Qed.

Lemma insert_middle (pre : list (option string)) (x y : option string)
    (post : list (option string)) :
  <[length pre := y]> (pre ++ x :: post) = (pre ++ [y]) ++ post.
Proof.
  rewrite insert_app_r_alt by lia. rewrite Nat.sub_diag. simpl.
  by rewrite <- app_assoc.
Qed.

(** The loop visits every token (there are at most ten), blanks the
    operators and stops at the terminator. *)
Lemma scan_loop_spec (w : World) (rest : list string) :
  ∀ (fuel : nat) (pre : list (option string)) (f : Flags) (s : Sys),
    length rest ≤ fuel →
    scan_loop w fuel (length pre) (pre ++ (Some <$> rest) ++ [None]) f s =
      (pre ++ blank rest ++ [None], classify (length pre) rest f,
       scan_pipes w rest s).
Proof.
  induction rest as [| t r IH]; intros fuel pre f s Hlen.
  - destruct fuel; simpl; [done |]. by rewrite arg_middle.
  - destruct fuel as [| fuel]; simpl in Hlen; [lia |].
    simpl. rewrite arg_middle. unfold classify_step, is_operator.
    assert (Hstep : ∀ (x : option string) f' s',
      scan_loop w fuel (S (length pre))
        ((pre ++ [x]) ++ (Some <$> r) ++ [None]) f' s' =
      (pre ++ x :: blank r ++ [None], classify (S (length pre)) r f',
       scan_pipes w r s')).
    { intros x f' s'.
      replace (S (length pre)) with (length (pre ++ [x]))
        by (rewrite length_app; simpl; lia).
      rewrite IH by lia. by rewrite <- app_assoc. }
    destruct (String.eqb t "&") eqn:E1.
    { apply String.eqb_eq in E1. subst t. simpl.
      rewrite insert_middle. apply Hstep. }
    destruct (String.eqb t ">") eqn:E2.
    { apply String.eqb_eq in E2. subst t. simpl.
      rewrite insert_middle. apply Hstep. }
    destruct (String.eqb t ">>") eqn:E3.
    { apply String.eqb_eq in E3. subst t. simpl.
      rewrite insert_middle. apply Hstep. }
    destruct (String.eqb t "<") eqn:E4.
    { apply String.eqb_eq in E4. subst t. simpl.
      rewrite insert_middle. apply Hstep. }
    destruct (String.eqb t "|") eqn:E5; simpl.
    { rewrite insert_middle. apply Hstep. }
    rewrite <- (Hstep (Some t) f s). by rewrite <- app_assoc.
Qed.

Lemma scan_args_of (w : World) (toks : list string) (s : Sys) :
  length toks ≤ 10 →
  scan_loop w 10 0 (args_of toks) flags0 s =
    (blank toks ++ [None], classify 0 toks flags0, scan_pipes w toks s).
Proof.
  intros Hlen. apply (scan_loop_spec w toks 10 [] flags0 s Hlen).
Qed.

Lemma c_argv_blank (toks : list string) :
  c_argv (blank toks ++ [None]) = until_operator toks.
Proof.
  induction toks as [| t r IH]; [done |].
  simpl. destruct (is_operator t); [done |]. by rewrite IH.
Qed.

Lemma drop_blank (k : nat) (toks : list string) :
  k ≤ length toks →
  drop k (blank toks ++ [None]) = blank (drop k toks) ++ [None].
Proof.
  intros Hk. rewrite drop_app_le by (unfold blank; rewrite length_fmap; lia).
  unfold blank. by rewrite fmap_drop.
Qed.

Lemma c_argv_drop_blank (k : nat) (toks : list string) :
  c_argv (drop k (blank toks ++ [None])) = until_operator (drop k toks).
Proof.
  destruct (decide (k ≤ length toks)) as [Hk | Hk].
  - rewrite drop_blank by done. apply c_argv_blank.
  - rewrite (drop_ge toks) by lia.
    rewrite drop_ge; [done |].
    rewrite length_app. unfold blank. rewrite length_fmap. simpl. lia.
Qed.

Lemma arg_blank (toks : list string) (i : nat) :
  arg (blank toks ++ [None]) i =
    toks !! i ≫= λ t, if is_operator t then None else Some t.
Proof.
  unfold arg, blank.
  destruct (decide (i < length toks)) as [Hlt | Hge].
  - rewrite lookup_app_l by (by rewrite length_fmap).
    rewrite list_lookup_fmap.
    destruct (lookup_lt_is_Some_2 toks i Hlt) as [t Ht]. rewrite Ht. simpl.
    by destruct (is_operator t).
  - rewrite (lookup_ge_None_2 toks i) by lia.
    rewrite lookup_app_r by (rewrite length_fmap; lia).
    rewrite length_fmap.
    destruct (i - length toks) as [| k]; [done |]. by destruct k.
Qed.

(* ================================================================= *)
(** * The kernel *)

Lemma sys_pipe_frame (w : World) (s : Sys) :
  children (sys_pipe w s).2 = children s ∧
  next_pid (sys_pipe w s).2 = next_pid s ∧
  pending (sys_pipe w s).2 = pending s ∧
  cwd (sys_pipe w s).2 = cwd s.
Proof.
  unfold sys_pipe. destruct (fd_alloc_pipe _ _) as [[r wr] t2].
  by destruct (bool_decide _).
Qed.

Lemma scan_pipes_frame (w : World) (toks : list string) :
  ∀ s : Sys,
    children (scan_pipes w toks s) = children s ∧
    next_pid (scan_pipes w toks s) = next_pid s ∧
    pending (scan_pipes w toks s) = pending s ∧
    cwd (scan_pipes w toks s) = cwd s.
Proof.
  induction toks as [| t r IH]; intros s; simpl; [done |].
  destruct (IH (if String.eqb t "|" then (sys_pipe w s).2 else s))
    as (-> & -> & -> & ->).
  destruct (String.eqb t "|"); [apply sys_pipe_frame | done].
Qed.

Lemma scan_pipes_none (w : World) (toks : list string) (s : Sys) :
  existsb is_pipe_op toks = false → scan_pipes w toks s = s.
Proof.
  induction toks as [| t r IH]; simpl; [done |].
  unfold is_pipe_op at 1. destruct (String.eqb t "|"); [done |]. exact IH.
Qed.

Lemma classify_is_pipe (toks : list string) :
  ∀ (i : nat) (f : Flags),
    is_pipe (classify i toks f) = is_pipe f || existsb is_pipe_op toks.
Proof.
  induction toks as [| t r IH]; intros i f; simpl.
  - by rewrite orb_false_r.
  - rewrite IH. unfold classify_step, is_pipe_op at 2.
    destruct (String.eqb t "&") eqn:E1;
      [apply String.eqb_eq in E1; subst t; done |].
    destruct (String.eqb t ">") eqn:E2;
      [apply String.eqb_eq in E2; subst t; done |].
    destruct (String.eqb t ">>") eqn:E3;
      [apply String.eqb_eq in E3; subst t; done |].
    destruct (String.eqb t "<") eqn:E4;
      [apply String.eqb_eq in E4; subst t; done |].
    destruct (String.eqb t "|"); simpl; [| done].
    by rewrite orb_true_r.
Qed.

Lemma filter_reap (N pid : nat) (cs : list Child) :
  pid < N →
  filter (λ c, N ≤ c_pid c) (reap pid cs) = filter (λ c, N ≤ c_pid c) cs.
Proof.
  intros Hpid. unfold reap. induction cs as [| c cs IH]; [done |].
  rewrite !filter_cons.
  destruct (decide (c_pid c ≠ pid)) as [Hne | Heq].
  - rewrite filter_cons. destruct (decide (N ≤ c_pid c)); by rewrite IH.
  - destruct (decide (N ≤ c_pid c)); [lia | exact IH].
Qed.

Lemma fresh_running_reap (N pid : nat) (cs : list Child) :
  fresh_running N cs → fresh_running N (reap pid cs).
Proof.
  unfold fresh_running, reap. induction 1 as [| c cs Hc Hcs IH].
  - constructor.
  - rewrite filter_cons. destruct (decide (c_pid c ≠ pid)); [| exact IH].
    by constructor.
Qed.

Lemma zombie_is_old (N : nat) (cs : list Child) (i : nat) (z : Child) :
  fresh_running N cs → cs !! i = Some z → is_zombie z = true → c_pid z < N.
Proof.
  intros Hinv Hz Hzomb.
  pose proof (proj1 (Forall_lookup _ _) Hinv i z Hz) as Hrun. simpl in Hrun.
  destruct (decide (N ≤ c_pid z)) as [Hge |]; [| lia].
  rewrite (Hrun Hge) in Hzomb. discriminate.
Qed.

Lemma wake_loop_created (N : nat) (reqs : list waitreq) :
  ∀ cs : list Child,
    fresh_running N cs →
    filter (λ c, N ≤ c_pid c) (wake_loop reqs cs).2 =
      filter (λ c, N ≤ c_pid c) cs.
Proof.
  induction reqs as [| r reqs IH]; intros cs Hinv; [done |].
  destruct r as [| pid]; simpl.
  - unfold first_zombie.
    destruct (list_find (λ c, is_zombie c = true) cs) as [[i z] |] eqn:Hfind;
      simpl.
    + apply list_find_Some in Hfind as (Hz & Hzomb & _).
      rewrite IH by (by apply fresh_running_reap).
      apply filter_reap. by eapply zombie_is_old.
    + destruct cs; [by apply IH | done].
  - unfold find_child.
    destruct (list_find (λ c, c_pid c = pid) cs) as [[i z] |] eqn:Hfind; simpl.
    + apply list_find_Some in Hfind as (Hz & Hpid & _).
      destruct (is_zombie z) eqn:Hzomb; [| done].
      rewrite IH by (by apply fresh_running_reap).
      apply filter_reap. rewrite <- Hpid. by eapply zombie_is_old.
    + by apply IH.
Qed.

Lemma created_none (N : nat) (cs : list Child) :
  Forall (λ c, c_pid c < N) cs → filter (λ c, N ≤ c_pid c) cs = [].
Proof.
  induction 1 as [| c cs Hc Hcs IH]; [done |].
  rewrite filter_cons. destruct (decide (N ≤ c_pid c)); [lia | exact IH].
Qed.

Lemma fresh_running_old (N : nat) (cs : list Child) :
  Forall (λ c, c_pid c < N) cs → fresh_running N cs.
Proof.
  unfold fresh_running. intros Hold. eapply Forall_impl; [exact Hold |].
  intros c Hc Hge. simpl in Hc. lia.
Qed.

Lemma spawn_pid (pid : nat) (code : child Empty_set) (t : fdtable) :
  c_pid (spawn pid code t) = pid ∧ is_zombie (spawn pid code t) = false.
Proof. unfold spawn. by destruct (run_child code _). Qed.

Lemma find_child_new (pid : nat) (cs : list Child) (c : Child)
    (more : list Child) :
  Forall (λ c, c_pid c < pid) cs → c_pid c = pid →
  find_child pid (cs ++ c :: more) = Some c.
Proof.
  intros Hold Hc. unfold find_child.
  assert (list_find (λ c, c_pid c = pid) (cs ++ c :: more)
          = Some (length cs, c)) as ->; [| done].
  apply list_find_Some. split; [by rewrite list_lookup_middle |].
  split; [done |]. intros j y Hy Hj.
  rewrite lookup_app_l in Hy by done.
  pose proof (proj1 (Forall_lookup _ _) Hold j y Hy). simpl in *. lia.
Qed.

Lemma wake_loop_fresh_running (N : nat) (reqs : list waitreq) :
  ∀ cs : list Child,
    fresh_running N cs → fresh_running N (wake_loop reqs cs).2.
Proof.
  induction reqs as [| r reqs IH]; intros cs Hinv; [done |].
  destruct r as [| pid]; simpl.
  - destruct (first_zombie cs).
    + by apply IH, fresh_running_reap.
    + destruct cs; [by apply IH | done].
  - destruct (find_child pid cs) as [z |]; [| by apply IH].
    destruct (is_zombie z); [| done].
    by apply IH, fresh_running_reap.
Qed.

Lemma block_on_created (N : nat) (r : waitreq) (s : Sys) :
  fresh_running N (children s) →
  filter (λ c, N ≤ c_pid c) (children (block_on r s)) =
    filter (λ c, N ≤ c_pid c) (children s) ∧
  fresh_running N (children (block_on r s)).
Proof.
  intros Hinv. unfold block_on, wake. simpl.
  pose proof (wake_loop_created N (pending s ++ [r]) _ Hinv) as Hc.
  pose proof (wake_loop_fresh_running N (pending s ++ [r]) _ Hinv) as Hf.
  destruct (wake_loop (pending s ++ [r]) (children s)) as [reqs cs].
  done.
Qed.

Lemma fresh_running_new (N : nat) (cs new : list Child) :
  Forall (λ c, c_pid c < N) cs →
  Forall (λ c, is_zombie c = false) new →
  fresh_running N (cs ++ new).
Proof.
  intros Hold Hnew. apply Forall_app. split.
  - by apply fresh_running_old.
  - eapply Forall_impl; [exact Hnew |]. by intros c Hc _.
Qed.

(** ** What [execCmd] creates *)

(** A line without [|]: one child, running [single_child]. *)
Lemma execCmd_single_created (w : World) (toks : list string) (s : Sys) :
  sys_wf s →
  length (children s) < w_nproc w →
  length toks ≤ 10 →
  existsb is_pipe_op toks = false →
  created s (execCmd w (args_of toks) s) =
    [spawn (next_pid s)
       (single_child w (blank toks ++ [None]) (classify 0 toks flags0))
       (fds (self s))].
Proof.
  intros Hwf Hproc Hlen Hnopipe. unfold execCmd, created.
  rewrite scan_args_of by done.
  rewrite classify_is_pipe, Hnopipe, scan_pipes_none by done. simpl.
  set (parsed := blank toks ++ [None]). set (f := classify 0 toks flags0).
  unfold sys_fork. rewrite bool_decide_eq_true_2 by done.
  set (c := spawn (next_pid s) (single_child w parsed f) (fds (self s))).
  destruct (spawn_pid (next_pid s) (single_child w parsed f) (fds (self s)))
    as [Hpid Hrun]. fold c in Hpid, Hrun.
  assert (Hnew : filter (λ c0, next_pid s ≤ c_pid c0) (children s ++ [c]) = [c]).
  { rewrite filter_app, created_none by done. simpl.
    rewrite filter_cons. destruct (decide (next_pid s ≤ c_pid c)); [done | lia]. }
  destruct (background f).
  - unfold sys_waitpid_nohang. simpl.
    rewrite (find_child_new (next_pid s) (children s) c []) by done.
    rewrite Hrun. simpl. exact Hnew.
  - unfold sys_wait.
    edestruct (block_on_created (next_pid s) WAny) as [-> _]; [| exact Hnew].
    simpl. apply fresh_running_new; [done |]. by repeat constructor.
Qed.

(** A line with [|], when the pipe can be created: two children,
    running [first_child] and [second_child] on the table that holds
    the new pipe. *)
Lemma execCmd_pipe_created (w : World) (toks : list string) (s : Sys)
    (r wr : nat) (t2 : fdtable) :
  sys_wf s →
  length (children s) + 2 ≤ w_nproc w →
  length toks ≤ 10 →
  existsb is_pipe_op toks = true →
  fd_alloc_pipe (next_pipe (scan_pipes w toks s))
    (fds (self (scan_pipes w toks s))) = (r, wr, t2) →
  wr < w_nofile w →
  created s (execCmd w (args_of toks) s) =
    [spawn (next_pid s)
       (first_child w (blank toks ++ [None]) r wr
          (input_redirection (classify 0 toks flags0))
          (input_file_pos (classify 0 toks flags0))) t2;
     spawn (S (next_pid s))
       (second_child w (blank toks ++ [None]) r wr
          (output_redirection (classify 0 toks flags0))
          (append (classify 0 toks flags0))
          (output_file_pos (classify 0 toks flags0))
          (piped_cmd_pos (classify 0 toks flags0))) t2].
Proof.
  intros Hwf Hproc Hlen Hpipe Halloc Hroom. unfold execCmd, created.
  rewrite scan_args_of by done.
  rewrite classify_is_pipe, Hpipe. simpl.
  set (parsed := blank toks ++ [None]). set (f := classify 0 toks flags0).
  destruct (scan_pipes_frame w toks s) as (Hch & Hnp & _ & _).
  set (s1 := scan_pipes w toks s) in *.
  unfold pipeCommands, sys_pipe. rewrite Halloc.
  rewrite (bool_decide_eq_true_2 _ Hroom).
  unfold sys_fork at 1. simpl. rewrite Hch, Hnp.
  rewrite bool_decide_eq_true_2 by lia.
  unfold sys_fork. simpl.
  rewrite bool_decide_eq_true_2 by (rewrite length_app; simpl; lia).
  set (c1 := spawn (next_pid s) _ t2). set (c2 := spawn (S (next_pid s)) _ t2).
  destruct (spawn_pid (next_pid s)
              (first_child w parsed r wr (input_redirection f)
                 (input_file_pos f)) t2) as [Hpid1 Hrun1].
  destruct (spawn_pid (S (next_pid s))
              (second_child w parsed r wr (output_redirection f) (append f)
                 (output_file_pos f) (piped_cmd_pos f)) t2) as [Hpid2 Hrun2].
  fold c1 in Hpid1, Hrun1. fold c2 in Hpid2, Hrun2.
  assert (Hnew : filter (λ c0, next_pid s ≤ c_pid c0)
                   ((children s ++ [c1]) ++ [c2]) = [c1; c2]).
  { rewrite !filter_app, created_none by done. simpl.
    rewrite !filter_cons.
    destruct (decide (next_pid s ≤ c_pid c1)); [| lia].
    destruct (decide (next_pid s ≤ c_pid c2)); [done | lia]. }
  destruct (background f); [exact Hnew |].
  unfold sys_waitpid.
  edestruct (block_on_created (next_pid s) (WPid (S (next_pid s))))
    as [-> _].
  { simpl. eapply block_on_created. simpl.
    rewrite <- app_assoc. apply fresh_running_new; [done |].
    by repeat constructor. }
  simpl.
  edestruct (block_on_created (next_pid s) (WPid (next_pid s))) as [-> _];
    [| exact Hnew].
  simpl. rewrite <- app_assoc. apply fresh_running_new; [done |].
  by repeat constructor.
Qed.

(* ================================================================= *)
(** * Descriptor tables *)

Section Fdtable.
Implicit Types (t : fdtable) (fd : nat) (o : fobj).

Lemma fd_put_length t fd o :
  length (fd_put t fd o) = length t `max` S fd.
Proof.
  unfold fd_put. rewrite length_insert, length_app, length_replicate. lia.
Qed.

Lemma fd_get_put_eq t fd o : fd_get (fd_put t fd o) fd = Some o.
Proof.
  unfold fd_get, fd_put. rewrite list_lookup_insert_eq; [done |].
  rewrite length_app, length_replicate. lia.
Qed.

Lemma fd_get_pad t n fd : fd_get (t ++ replicate n None) fd = fd_get t fd.
Proof.
  unfold fd_get. destruct (decide (fd < length t)) as [Hlt | Hge].
  - by rewrite lookup_app_l.
  - rewrite (lookup_ge_None_2 t fd) by lia.
    rewrite lookup_app_r by lia.
    destruct (replicate n None !! (fd - length t)) as [x |] eqn:Hx; [| done].
    apply lookup_replicate in Hx as [-> _]. done.
Qed.

Lemma fd_get_put_ne t fd fd' o :
  fd ≠ fd' → fd_get (fd_put t fd o) fd' = fd_get t fd'.
Proof.
  intros Hne. unfold fd_put.
  transitivity (fd_get (t ++ replicate (S fd - length t) None) fd').
  - unfold fd_get. by rewrite list_lookup_insert_ne.
  - apply fd_get_pad.
Qed.

Lemma fd_get_close_eq t fd : fd_get (fd_close t fd) fd = None.
Proof.
  unfold fd_get, fd_close. destruct (decide (fd < length t)).
  - by rewrite list_lookup_insert_eq.
  - rewrite list_insert_ge by lia. by rewrite lookup_ge_None_2 by lia.
Qed.

Lemma fd_get_close_ne t fd fd' :
  fd ≠ fd' → fd_get (fd_close t fd) fd' = fd_get t fd'.
Proof.
  intros Hne. unfold fd_get, fd_close. by rewrite list_lookup_insert_ne.
Qed.

Lemma fd_get_lowest_free t : fd_get t (fd_lowest_free t) = None.
Proof.
  induction t as [| [o |] t IH]; [done | | done]. exact IH.
Qed.

Lemma fd_lowest_free_le t : fd_lowest_free t ≤ length t.
Proof.
  induction t as [| [o |] t IH]; simpl; lia.
Qed.

(** An open descriptor is never the one handed out next. *)
Lemma fd_lowest_free_ne t fd o :
  fd_get t fd = Some o → fd_lowest_free t ≠ fd.
Proof.
  intros Hopen Heq. subst fd. by rewrite fd_get_lowest_free in Hopen.
Qed.
End Fdtable.

(* ================================================================= *)
(** * Reasoning about child code *)

Section Wp.
Context {A B : Type}.
Implicit Types (Q : A → Proc → Prop) (E : fate → Proc → Prop) (p : Proc).

Lemma wp_ret (a : A) Q E p : Q a p → wp (mret a) Q E p.
Proof. done. Qed.

Lemma wp_bind (m : child B) (f : B → child A) Q E p :
  wp m (λ b p', wp (f b) Q E p') E p → wp (m ≫= f) Q E p.
Proof.
  unfold wp, mbind, child_bind. by destruct (m p) as [[e | b] p'].
Qed.

Lemma wp_exit (k : Z) Q E p : E (Exits k) p → wp (c_exit k) Q E p.
Proof. done. Qed.

Lemma wp_mono (c : child A) Q Q' E E' p :
  wp c Q E p →
  (∀ a p', Q a p' → Q' a p') → (∀ e p', E e p' → E' e p') →
  wp c Q' E' p.
Proof.
  unfold wp. destruct (c p) as [[e | a] p']; eauto.
Qed.
End Wp.

Lemma wp_do (f : Proc → Proc) (Q : () → Proc → Prop) E p :
  Q () (f p) → wp (c_do f) Q E p.
Proof. done. Qed.

Lemma wp_if {A : Type} (b : bool) (c1 c2 : child A) Q E p :
  (b = true → wp c1 Q E p) → (b = false → wp c2 Q E p) →
  wp (if b then c1 else c2) Q E p.
Proof. destruct b; eauto. Qed.

(** The test [r < 0] on what a failed [execvp] returned. *)
Lemma wp_if_failed {A : Type} (c1 c2 : child A) Q E p :
  wp c1 Q E p → wp (if (-1 <? 0)%Z then c1 else c2) Q E p.
Proof. done. Qed.

(** The child a [fork] creates has the fate and the process its code
    leaves. *)
Lemma spawn_wp (Φ : fate → Proc → Prop) (pid : nat) (code : child Empty_set)
    (t : fdtable) :
  wp code (λ _ _, True) Φ {| fds := t; log := [] |} →
  Φ (c_fate (spawn pid code t)) (c_proc (spawn pid code t)).
Proof.
  unfold wp, spawn, run_child.
  by destruct (code _) as [[e | []] p'].
Qed.

(** [open] either fails and leaves the table alone, or binds the
    lowest free descriptor to the file; it logs the call either way. *)
Lemma k_open_spec (w : World) (path : option string) (flags : list oflag)
    (mode : option N) (p : Proc) (res : option nat) (p' : Proc) :
  k_open w path flags mode p = (res, p') →
  log p' = log p ++ [EvOpen path flags mode res] ∧
  match res with
  | Some fd => ∃ f, path = Some f ∧ fd = fd_lowest_free (fds p) ∧
                    fds p' = fd_put (fds p) fd (FileObj f flags)
  | None => fds p' = fds p
  end.
Proof.
  unfold k_open. destruct path as [f |].
  - destruct (w_open w f flags && bool_decide _); intros [= <- <-]; simpl;
      eauto.
  - by intros [= <- <-].
Qed.

Lemma k_open_null (w : World) (flags : list oflag) (mode : option N) (p : Proc) :
  (k_open w None flags mode p).1 = None.
Proof. done. Qed.

Lemma wp_outputRedirection (w : World) (cmd : list (option string))
    (pos : nat) (app : bool) (Q : () → Proc → Prop) E p :
  (∀ fd p',
     k_open w (arg cmd (pos + 1)) (out_flags app) (Some mode_0777) p
       = (Some fd, p') →
     Q () (k_close fd (k_dup2 fd STDOUT_FILENO p'))) →
  (∀ p',
     k_open w (arg cmd (pos + 1)) (out_flags app) (Some mode_0777) p
       = (None, p') →
     E (Exits 1) (emit (EvPerror "Error opening file") p')) →
  wp (outputRedirection w cmd pos app) Q E p.
Proof.
  intros Hok Hfail.
  unfold wp, outputRedirection, mbind, child_bind, c_open, out_flags in *.
  destruct app;
    (destruct (k_open w _ _ _ p) as [[fd |] p'] eqn:Hopen; simpl;
     [ rewrite (proj2 (Z.ltb_ge (Z.of_nat fd) 0)) by lia;
       unfold c_dup2, c_close, c_do; rewrite Nat2Z.id; by apply Hok
     | by apply Hfail ]).
Qed.

Lemma wp_inputRedirection (w : World) (cmd : list (option string))
    (pos : nat) (Q : () → Proc → Prop) E p :
  (∀ fd p',
     k_open w (arg cmd (pos + 1)) [O_RDONLY] None p = (Some fd, p') →
     Q () (k_close fd (k_dup2 fd STDIN_FILENO p'))) →
  (∀ p',
     k_open w (arg cmd (pos + 1)) [O_RDONLY] None p = (None, p') →
     E (Exits 1) (emit (EvPerror "Error opening file") p')) →
  wp (inputRedirection w cmd pos) Q E p.
Proof.
  intros Hok Hfail.
  unfold wp, inputRedirection, mbind, child_bind, c_open in *.
  destruct (k_open w _ _ _ p) as [[fd |] p'] eqn:Hopen; simpl.
  - rewrite (proj2 (Z.ltb_ge (Z.of_nat fd) 0)) by lia.
    unfold c_dup2, c_close, c_do. rewrite Nat2Z.id. by apply Hok.
  - by apply Hfail.
Qed.

Lemma wp_execvp (w : World) (file : option string)
    (argv : list (option string)) (Q : Z → Proc → Prop) E p :
  (∀ f, file = Some f → w_exec w f = true →
        E (Replaced f (c_argv argv)) (emit (EvExecvp file (c_argv argv)) p)) →
  (∀ f, file = Some f → w_exec w f = false →
        Q (-1)%Z (emit (EvExecvp file (c_argv argv)) p)) →
  (file = None →
   E (Killed SIGSEGV) (emit (EvExecvp file (c_argv argv)) p)) →
  wp (execvp w file argv) Q E p.
Proof.
  intros Hok Hfail Hnull. unfold wp, execvp.
  destruct file as [f |].
  - destruct (w_exec w f) eqn:Hex; [by apply Hok | by eapply Hfail].
  - by apply Hnull.
Qed.

(** ** Logs and tables along the calls *)

Lemma log_emit (e : event) (p : Proc) : log (emit e p) = log p ++ [e].
Proof. done. Qed.

Lemma log_k_close (fd : nat) (p : Proc) :
  log (k_close fd p) = log p ++ [EvClose fd].
Proof. done. Qed.

Lemma log_k_dup2 (oldfd newfd : nat) (p : Proc) :
  log (k_dup2 oldfd newfd p) = log p ++ [EvDup2 oldfd newfd].
Proof. unfold k_dup2. by destruct (fd_get _ _). Qed.

Lemma fds_emit (e : event) (p : Proc) : fds (emit e p) = fds p.
Proof. done. Qed.

Lemma fds_k_close (fd : nat) (p : Proc) :
  fds (k_close fd p) = fd_close (fds p) fd.
Proof. done. Qed.

Lemma fds_k_dup2 (oldfd newfd : nat) (p : Proc) :
  fds (k_dup2 oldfd newfd p) =
    match fd_get (fds p) oldfd with
    | Some o => fd_put (fds p) newfd o
    | None => fds p
    end.
Proof. unfold k_dup2. by destruct (fd_get _ _). Qed.

Lemma execs_of_app (l1 l2 : list event) :
  execs_of (l1 ++ l2) = execs_of l1 ++ execs_of l2.
Proof. apply omap_app. Qed.

Lemma opens_of_app (l1 l2 : list event) :
  opens_of (l1 ++ l2) = opens_of l1 ++ opens_of l2.
Proof. apply omap_app. Qed.

Lemma reports_of_app (l1 l2 : list event) :
  reports_of (l1 ++ l2) = reports_of l1 ++ reports_of l2.
Proof. apply omap_app. Qed.

Lemma failed_opens_app (l1 l2 : list event) :
  failed_opens (l1 ++ l2) = failed_opens l1 ++ failed_opens l2.
Proof. apply omap_app. Qed.

Create Rewrite HintDb child_log.
#[export] Hint Rewrite log_emit log_k_close log_k_dup2 fds_emit fds_k_close
  execs_of_app opens_of_app reports_of_app failed_opens_app Nat2Z.id
  : child_log.

(** Takes child code apart call by call; what is left are the states
    in which the child can end. *)
Ltac wp_step :=
  lazymatch goal with
  | |- wp (mbind _ _) _ _ _ => apply wp_bind
  | |- wp (outputRedirection _ _ _ _) _ _ _ =>
      apply wp_outputRedirection;
      [ intros ? ? [? ?]%k_open_spec | intros ? [? ?]%k_open_spec ]
  | |- wp (inputRedirection _ _ _) _ _ _ =>
      apply wp_inputRedirection;
      [ intros ? ? [? ?]%k_open_spec | intros ? [? ?]%k_open_spec ]
  | |- wp (execvp _ _ _) _ _ _ =>
      apply wp_execvp; [ intros ? ? ? | intros ? ? ? | intros ? ]
  | |- wp (if (-1 <? 0)%Z then _ else _) _ _ _ => apply wp_if_failed
  | |- wp (if _ then _ else _) _ _ _ => apply wp_if; intros ?
  | |- wp (c_close _) _ _ _ => apply wp_do
  | |- wp (c_dup2 _ _) _ _ _ => apply wp_do
  | |- wp (c_perror _) _ _ _ => apply wp_do
  | |- wp (c_printf _) _ _ _ => apply wp_do
  | |- wp (c_exit _) _ _ _ => apply wp_exit
  | |- wp (mret _) _ _ _ => apply wp_ret
  end.

Ltac wp_run := repeat wp_step.

Ltac log_simpl :=
  autorewrite with child_log in *; simpl in *;
  repeat match goal with
         | H : log ?p = _ |- _ => rewrite H in *; clear H
         end;
  autorewrite with child_log in *; simpl in *.

(** ** The three children *)

Lemma head_c_argv (a : list (option string)) (k : nat) :
  arg a k = head (c_argv (drop k a)).
Proof.
  unfold arg. rewrite <- (Nat.add_0_r k) at 1.
  rewrite <- lookup_drop, <- head_lookup.
  by destruct (drop k a) as [| [x |] l].
Qed.

Lemma head_c_argv_0 (a : list (option string)) :
  arg a 0 = head (c_argv a).
Proof. apply (head_c_argv a 0). Qed.

Section Children.
Context (w : World) (parsed : list (option string)) (pid : nat) (t : fdtable).

(** Each child reaches its one [execvp] exactly when no [open] of a
    redirection failed before; a failed [open] ends it at once. *)
Lemma single_child_runs_argv (f : Flags) :
  runs_argv (spawn pid (single_child w parsed f) t) (c_argv parsed).
Proof.
  unfold runs_argv. rewrite <- head_c_argv_0.
  apply (spawn_wp (λ e p,
    match failed_opens (log p) with
    | [] => execs_of (log p) = [(arg parsed 0, c_argv parsed)]
    | _ :: _ => execs_of (log p) = [] ∧ fails_loudly e p
    end)).
  unfold single_child, fails_loudly. wp_run; log_simpl; eauto.
Qed.

Lemma first_child_runs_argv (r wr : nat) (inp : bool) (ipos : nat) :
  runs_argv (spawn pid (first_child w parsed r wr inp ipos) t)
    (c_argv parsed).
Proof.
  unfold runs_argv. rewrite <- head_c_argv_0.
  apply (spawn_wp (λ e p,
    match failed_opens (log p) with
    | [] => execs_of (log p) = [(arg parsed 0, c_argv parsed)]
    | _ :: _ => execs_of (log p) = [] ∧ fails_loudly e p
    end)).
  unfold first_child, fails_loudly. wp_run; log_simpl; eauto.
Qed.

Lemma second_child_runs_argv (r wr : nat) (out app : bool) (opos ppos : nat) :
  runs_argv (spawn pid (second_child w parsed r wr out app opos ppos) t)
    (c_argv (drop ppos parsed)).
Proof.
  unfold runs_argv. rewrite <- head_c_argv.
  apply (spawn_wp (λ e p,
    match failed_opens (log p) with
    | [] => execs_of (log p) = [(arg parsed ppos, c_argv (drop ppos parsed))]
    | _ :: _ => execs_of (log p) = [] ∧ fails_loudly e p
    end)).
  unfold second_child, fails_loudly. wp_run; log_simpl; eauto.
Qed.

(** How a child ends when no [open] of its redirections failed: as its
    [execvp] decides, with status 0 behind a failed [execvp] for a
    single command and status 1 in a pipeline. *)
Lemma single_child_fate (f : Flags) :
  let c := spawn pid (single_child w parsed f) t in
  failed_opens (log (c_proc c)) = [] →
  c_fate c = exec_fate w 0 (c_argv parsed).
Proof.
  unfold exec_fate. rewrite <- head_c_argv_0.
  apply (spawn_wp (λ e p,
    failed_opens (log p) = [] →
    e = match arg parsed 0 with
        | Some f0 => if w_exec w f0 then Replaced f0 (c_argv parsed)
                     else Exits 0
        | None => Killed SIGSEGV
        end)).
  unfold single_child. wp_run; log_simpl; intros Hno; try done.
  all: repeat match goal with
         | H : arg parsed 0 = _ |- _ => rewrite H
         | H : w_exec _ _ = _ |- _ => rewrite H
         end; done.
Qed.

Lemma first_child_fate (r wr : nat) (inp : bool) (ipos : nat) :
  let c := spawn pid (first_child w parsed r wr inp ipos) t in
  failed_opens (log (c_proc c)) = [] →
  c_fate c = exec_fate w 1 (c_argv parsed).
Proof.
  unfold exec_fate. rewrite <- head_c_argv_0.
  apply (spawn_wp (λ e p,
    failed_opens (log p) = [] →
    e = match arg parsed 0 with
        | Some f0 => if w_exec w f0 then Replaced f0 (c_argv parsed)
                     else Exits 1
        | None => Killed SIGSEGV
        end)).
  unfold first_child. wp_run; log_simpl; intros Hno; try done.
  all: repeat match goal with
         | H : arg parsed 0 = _ |- _ => rewrite H
         | H : w_exec _ _ = _ |- _ => rewrite H
         end; done.
Qed.

Lemma second_child_fate (r wr : nat) (out app : bool) (opos ppos : nat) :
  let c := spawn pid (second_child w parsed r wr out app opos ppos) t in
  failed_opens (log (c_proc c)) = [] →
  c_fate c = exec_fate w 1 (c_argv (drop ppos parsed)).
Proof.
  unfold exec_fate. rewrite <- head_c_argv.
  apply (spawn_wp (λ e p,
    failed_opens (log p) = [] →
    e = match arg parsed ppos with
        | Some f0 =>
            if w_exec w f0 then Replaced f0 (c_argv (drop ppos parsed))
            else Exits 1
        | None => Killed SIGSEGV
        end)).
  unfold second_child. wp_run; log_simpl; intros Hno; try done.
  all: repeat match goal with
         | H : arg parsed _ = _ |- _ => rewrite H
         | H : w_exec _ _ = _ |- _ => rewrite H
         end; done.
Qed.

(** The first file a child with an output redirection opens is the
    token behind the operator, write-only, created if need be with
    mode 0777, appending or truncating as the flag says. *)
Lemma single_child_opens (f : Flags) :
  output_redirection f || append f = true →
  head (opens_of (log (c_proc (spawn pid (single_child w parsed f) t)))) =
    Some (arg parsed (output_file_pos f + 1), out_flags (append f),
          Some mode_0777).
Proof.
  intros Hout.
  apply (spawn_wp (λ e p, head (opens_of (log p)) =
    Some (arg parsed (output_file_pos f + 1), out_flags (append f),
          Some mode_0777))).
  unfold single_child. wp_run; log_simpl; congruence.
Qed.

Lemma second_child_opens (r wr : nat) (out app : bool) (opos ppos : nat) :
  out || app = true →
  head (opens_of (log (c_proc
    (spawn pid (second_child w parsed r wr out app opos ppos) t)))) =
    Some (arg parsed (opos + 1), out_flags app, Some mode_0777).
Proof.
  intros Hout.
  apply (spawn_wp (λ e p, head (opens_of (log p)) =
    Some (arg parsed (opos + 1), out_flags app, Some mode_0777))).
  unfold second_child. wp_run; log_simpl; congruence.
Qed.

(** ** Children whose redirection or program is a null pointer *)

Lemma c_argv_null (a : list (option string)) (k : nat) :
  arg a k = None → c_argv (drop k a) = [].
Proof.
  rewrite head_c_argv. by destruct (c_argv (drop k a)).
Qed.

Lemma single_child_null_output (f : Flags) :
  output_redirection f || append f = true →
  arg parsed (output_file_pos f + 1) = None →
  open_failed (spawn pid (single_child w parsed f) t) None
    (out_flags (append f)) (Some mode_0777).
Proof.
  intros Hout Hmiss. unfold open_failed.
  apply (spawn_wp (λ e p,
    e = Exits 1 ∧ execs_of (log p) = [] ∧
    ∃ l, log p = l ++ [EvOpen None (out_flags (append f)) (Some mode_0777) None;
                       EvPerror "Error opening file"])).
  unfold single_child. wp_run; log_simpl.
  all: repeat match goal with
         | H : ∃ _, _ |- _ => destruct H as (? & ? & ? & ?)
         end.
  all: try congruence.
  rewrite Hmiss. split; [done |]. split; [done |]. by exists [].
Qed.

Lemma single_child_null_input (f : Flags) :
  input_redirection f = true →
  arg parsed (input_file_pos f + 1) = None →
  let c := spawn pid (single_child w parsed f) t in
  open_failed c None [O_RDONLY] None ∨
  (output_redirection f || append f = true ∧
   ∃ path, open_failed c path (out_flags (append f)) (Some mode_0777)).
Proof.
  intros Hin Hmiss. unfold open_failed.
  apply (spawn_wp (λ e p,
    (e = Exits 1 ∧ execs_of (log p) = [] ∧
     ∃ l, log p = l ++ [EvOpen None [O_RDONLY] None None;
                        EvPerror "Error opening file"]) ∨
    (output_redirection f || append f = true ∧
     ∃ path, e = Exits 1 ∧ execs_of (log p) = [] ∧
       ∃ l, log p = l ++ [EvOpen path (out_flags (append f))
                            (Some mode_0777) None;
                          EvPerror "Error opening file"]))).
  unfold single_child. wp_run; log_simpl.
  all: repeat match goal with
         | H : ∃ _, _ |- _ => destruct H as (? & ? & ? & ?)
         end.
  all: try congruence.
  all: try (right; split; [done |]; eexists; split; [done |];
            split; [done |]; by exists []).
  all: left; rewrite Hmiss; split; [done |]; split; [done |];
    first [by exists [] | by eexists [_; _; _]].
Qed.

Lemma first_child_null_input (r wr : nat) (inp : bool) (ipos : nat) :
  inp = true → arg parsed (ipos + 1) = None →
  open_failed (spawn pid (first_child w parsed r wr inp ipos) t) None
    [O_RDONLY] None.
Proof.
  intros Hinp Hmiss. unfold open_failed.
  apply (spawn_wp (λ e p,
    e = Exits 1 ∧ execs_of (log p) = [] ∧
    ∃ l, log p = l ++ [EvOpen None [O_RDONLY] None None;
                       EvPerror "Error opening file"])).
  unfold first_child. wp_run; log_simpl.
  all: repeat match goal with
         | H : ∃ _, _ |- _ => destruct H as (? & ? & ? & ?)
         end.
  all: try congruence.
  rewrite Hmiss. split; [done |]. split; [done |].
  by eexists [_; _; _].
Qed.

Lemma second_child_null_output (r wr : nat) (out app : bool)
    (opos ppos : nat) :
  out || app = true → arg parsed (opos + 1) = None →
  open_failed (spawn pid (second_child w parsed r wr out app opos ppos) t)
    None (out_flags app) (Some mode_0777).
Proof.
  intros Hout Hmiss. unfold open_failed.
  apply (spawn_wp (λ e p,
    e = Exits 1 ∧ execs_of (log p) = [] ∧
    ∃ l, log p = l ++ [EvOpen None (out_flags app) (Some mode_0777) None;
                       EvPerror "Error opening file"])).
  unfold second_child. wp_run; log_simpl.
  all: repeat match goal with
         | H : ∃ _, _ |- _ => destruct H as (? & ? & ? & ?)
         end.
  all: try congruence.
  rewrite Hmiss. split; [done |]. split; [done |].
  by eexists [_; _; _].
Qed.

Lemma second_child_null_program (r wr : nat) (out app : bool)
    (opos ppos : nat) :
  arg parsed ppos = None →
  let c := spawn pid (second_child w parsed r wr out app opos ppos) t in
  null_program c ∨
  (out || app = true ∧
   ∃ path, open_failed c path (out_flags app) (Some mode_0777)).
Proof.
  intros Hmiss. unfold open_failed, null_program.
  apply (spawn_wp (λ e p,
    (e = Killed SIGSEGV ∧ execs_of (log p) = [(None, [])] ∧
     last (log p) = Some (EvExecvp None []) ∧ reports_of (log p) = []) ∨
    (out || app = true ∧
     ∃ path, e = Exits 1 ∧ execs_of (log p) = [] ∧
       ∃ l, log p = l ++ [EvOpen path (out_flags app) (Some mode_0777) None;
                          EvPerror "Error opening file"]))).
  unfold second_child.
  wp_run; rewrite ?(c_argv_null _ _ Hmiss); log_simpl.
  all: repeat match goal with
         | H : ∃ _, _ |- _ => destruct H as (? & ? & ? & ?)
         end.
  all: try congruence.
  all: try (right; split; [done |]; eexists; split; [done |];
            split; [done |]; by eexists [_; _; _]).
  all: left; rewrite ?Hmiss; by rewrite ?last_snoc.
Qed.
End Children.

(** ** Descriptors a child keeps *)

Section Wiring.
Context (w : World).
Implicit Types (p : Proc) (k fd : nat) (o : fobj).

Lemma k_open_keeps path fl m p res p' k o :
  k_open w path fl m p = (res, p') → fd_get (fds p) k = Some o →
  fd_get (fds p') k = Some o ∧ res ≠ Some k.
Proof.
  intros [_ Hres]%k_open_spec Hk. destruct res as [fd |].
  - destruct Hres as (f & _ & -> & ->).
    pose proof (fd_lowest_free_ne _ _ _ Hk) as Hne.
    split; [by rewrite fd_get_put_ne | congruence].
  - by rewrite Hres.
Qed.

Lemma k_dup2_keeps oldfd newfd p k o :
  newfd ≠ k → fd_get (fds p) k = Some o →
  fd_get (fds (k_dup2 oldfd newfd p)) k = Some o.
Proof.
  intros Hne Hk. rewrite fds_k_dup2.
  destruct (fd_get (fds p) oldfd); [by rewrite fd_get_put_ne | done].
Qed.

Lemma k_dup2_target oldfd newfd p o :
  fd_get (fds p) oldfd = Some o →
  fd_get (fds (k_dup2 oldfd newfd p)) newfd = Some o.
Proof. intros Hold. rewrite fds_k_dup2, Hold. apply fd_get_put_eq. Qed.

Lemma k_close_keeps fd p k o :
  fd ≠ k → fd_get (fds p) k = Some o →
  fd_get (fds (k_close fd p)) k = Some o.
Proof. intros Hne Hk. by rewrite fds_k_close, fd_get_close_ne. Qed.

(** A redirection leaves alone every open descriptor other than the
    stream it rebinds. *)
Lemma wp_inputRedirection_keeps cmd pos p k o :
  k ≠ STDIN_FILENO → fd_get (fds p) k = Some o →
  wp (inputRedirection w cmd pos)
    (λ _ p', fd_get (fds p') k = Some o)
    (λ _ p', fd_get (fds p') k = Some o) p.
Proof.
  intros Hk Hopen. apply wp_inputRedirection.
  - intros fd p' Heq.
    destruct (k_open_keeps _ _ _ _ _ _ _ _ Heq Hopen) as [Hk' Hne].
    apply k_close_keeps; [congruence |]. by apply k_dup2_keeps.
  - intros p' Heq.
    by destruct (k_open_keeps _ _ _ _ _ _ _ _ Heq Hopen) as [Hk' _].
Qed.

Lemma wp_outputRedirection_keeps cmd pos app p k o :
  k ≠ STDOUT_FILENO → fd_get (fds p) k = Some o →
  wp (outputRedirection w cmd pos app)
    (λ _ p', fd_get (fds p') k = Some o)
    (λ _ p', fd_get (fds p') k = Some o) p.
Proof.
  intros Hk Hopen. apply wp_outputRedirection.
  - intros fd p' Heq.
    destruct (k_open_keeps _ _ _ _ _ _ _ _ Heq Hopen) as [Hk' Hne].
    apply k_close_keeps; [congruence |]. by apply k_dup2_keeps.
  - intros p' Heq.
    by destruct (k_open_keeps _ _ _ _ _ _ _ _ Heq Hopen) as [Hk' _].
Qed.

(** In the first child of a pipeline the standard output is the
    object behind [pipe_fd[1]]. *)
Lemma first_child_stdout parsed pid (t : fdtable) r wr inp ipos o :
  r ≠ wr → wr ≠ STDOUT_FILENO → fd_get t wr = Some o →
  fd_get (fds (c_proc (spawn pid (first_child w parsed r wr inp ipos) t)))
    STDOUT_FILENO = Some o.
Proof.
  intros Hrw Hw Ht.
  apply (spawn_wp (λ _ p, fd_get (fds p) STDOUT_FILENO = Some o)).
  unfold first_child. do 7 wp_step.
  eapply wp_mono.
  - assert (fd_get (fds (k_close (Z.to_nat (Z.of_nat wr))
              (k_dup2 (Z.to_nat (Z.of_nat wr)) STDOUT_FILENO
                 (k_close (Z.to_nat (Z.of_nat r))
                    {| fds := t; log := [] |})))) STDOUT_FILENO = Some o)
      as Hbase.
    { rewrite !Nat2Z.id. apply k_close_keeps; [done |].
      apply k_dup2_target. by apply k_close_keeps. }
    apply wp_if; intros _;
      [apply wp_inputRedirection_keeps; [by unfold STDIN_FILENO, STDOUT_FILENO | done]
      | by apply wp_ret].
  - intros [] p' Hp'. simpl. wp_run; by log_simpl.
  - done.
Qed.

(** In the second child the standard input is the object behind
    [pipe_fd[0]]. *)
Lemma second_child_stdin parsed pid (t : fdtable) r wr out app opos ppos o :
  r ≠ wr → r ≠ STDIN_FILENO → fd_get t r = Some o →
  fd_get (fds (c_proc
    (spawn pid (second_child w parsed r wr out app opos ppos) t)))
    STDIN_FILENO = Some o.
Proof.
  intros Hrw Hr Ht.
  apply (spawn_wp (λ _ p, fd_get (fds p) STDIN_FILENO = Some o)).
  unfold second_child. do 7 wp_step.
  eapply wp_mono.
  - assert (fd_get (fds (k_close (Z.to_nat (Z.of_nat r))
              (k_dup2 (Z.to_nat (Z.of_nat r)) STDIN_FILENO
                 (k_close (Z.to_nat (Z.of_nat wr))
                    {| fds := t; log := [] |})))) STDIN_FILENO = Some o)
      as Hbase.
    { rewrite !Nat2Z.id. apply k_close_keeps; [done |].
      apply k_dup2_target. by apply k_close_keeps. }
    apply wp_if; intros _;
      [apply wp_outputRedirection_keeps; [by unfold STDIN_FILENO, STDOUT_FILENO | done]
      | by apply wp_ret].
  - intros [] p' Hp'. simpl. wp_run; by log_simpl.
  - done.
Qed.
End Wiring.

(* ================================================================= *)
(** * What the scan finds *)

Lemma classify_app (a b : list string) :
  ∀ (i : nat) (f : Flags),
    classify i (a ++ b) f = classify (i + length a) b (classify i a f).
Proof.
  induction a as [| t a IH]; intros i f; simpl.
  - by rewrite Nat.add_0_r.
  - rewrite IH. f_equal. lia.
Qed.

Lemma classify_snoc (a : list string) (t : string) (i : nat) (f : Flags) :
  classify i (a ++ [t]) f = classify_step (i + length a) t (classify i a f).
Proof. by rewrite classify_app. Qed.

(** An ordinary token changes nothing. *)
Lemma classify_step_ordinary (i : nat) (t : string) (f : Flags) :
  is_operator t = false → classify_step i t f = f.
Proof.
  unfold is_operator, classify_step. intros H.
  repeat (apply orb_false_elim in H as [H ?]).
  by repeat match goal with E : String.eqb _ _ = false |- _ => rewrite E; clear E end.
Qed.

(** The case analysis the scan makes on one token. *)
Lemma operator_cases (t : string) :
  t = "&" ∨ t = ">" ∨ t = ">>" ∨ t = "<" ∨ t = "|" ∨ is_operator t = false.
Proof.
  unfold is_operator.
  destruct (String.eqb_spec t "&"); [by left |].
  destruct (String.eqb_spec t ">"); [by right; left |].
  destruct (String.eqb_spec t ">>"); [by do 2 right; left |].
  destruct (String.eqb_spec t "<"); [by do 3 right; left |].
  destruct (String.eqb_spec t "|"); [by do 4 right; left |].
  by do 5 right.
Qed.

(** Tokens other than [>] and [>>] leave the output redirection as it
    is. *)
Lemma classify_step_no_output (i : nat) (t : string) (f : Flags) :
  is_output_op t = false →
  output_redirection (classify_step i t f) = output_redirection f ∧
  append (classify_step i t f) = append f ∧
  output_file_pos (classify_step i t f) = output_file_pos f.
Proof.
  intros Hno.
  destruct (operator_cases t) as [-> | [-> | [-> | [-> | [-> | Hord]]]]];
    try done.
  by rewrite classify_step_ordinary.
Qed.

Lemma classify_no_output (toks : list string) :
  ∀ (i : nat) (f : Flags),
    forallb (λ t, negb (is_output_op t)) toks = true →
    output_redirection (classify i toks f) = output_redirection f ∧
    append (classify i toks f) = append f ∧
    output_file_pos (classify i toks f) = output_file_pos f.
Proof.
  induction toks as [| t r IH]; intros i f Hall; simpl in *; [done |].
  apply andb_true_iff in Hall as [Ht Hr]. apply negb_true_iff in Ht.
  destruct (IH (S i) (classify_step i t f) Hr) as (-> & -> & ->).
  by apply classify_step_no_output.
Qed.

(** With a [|] on the line, [piped_cmd_pos] is the index behind the
    last one. *)
Lemma piped_cmd_pos_last (toks : list string) :
  existsb is_pipe_op toks = true →
  ∃ k, toks !! k = Some "|" ∧
       (∀ j, k < j → toks !! j ≠ Some "|") ∧
       piped_cmd_pos (classify 0 toks flags0) = S k.
Proof.
  induction toks as [| t toks IH] using rev_ind; [done |].
  rewrite existsb_app, classify_snoc. simpl. rewrite orb_false_r.
  intros Hex.
  destruct (String.eqb_spec t "|") as [-> | Hne].
  - exists (length toks). split; [by rewrite list_lookup_middle |].
    split; [| simpl; lia].
    intros j Hj. rewrite lookup_ge_None_2; [done |].
    rewrite length_app. simpl. lia.
  - unfold is_pipe_op at 2 in Hex.
    rewrite (proj2 (String.eqb_neq t "|") Hne), orb_false_r in Hex.
    destruct (IH Hex) as (k & Hk & Hlast & Hpos).
    exists k. split; [by rewrite lookup_app_l by (by eapply lookup_lt_Some) |].
    split.
    + intros j Hj. destruct (decide (j = length toks)) as [-> | Hj'].
      * rewrite list_lookup_middle by done. congruence.
      * destruct (decide (j < length toks)).
        -- rewrite lookup_app_l by done. by apply Hlast.
        -- rewrite lookup_ge_None_2; [done |]. rewrite length_app. simpl. lia.
    + rewrite <- Hpos.
      destruct (operator_cases t) as [-> | [-> | [-> | [-> | [-> | Hord]]]]];
        try done.
      by rewrite classify_step_ordinary.
Qed.

Lemma until_operator_app_operator (pre : list string) (op : string)
    (post : list string) :
  is_operator op = true →
  until_operator (pre ++ op :: post) = until_operator pre.
Proof.
  intros Hop. induction pre as [| t pre IH]; simpl; [by rewrite Hop |].
  destruct (is_operator t); [done |]. by rewrite IH.
Qed.

(** A run of ordinary tokens is a segment of the line that ends
    before the next operator. *)
Lemma until_operator_take (toks : list string) :
  until_operator toks = take (length (until_operator toks)) toks.
Proof.
  induction toks as [| t r IH]; [done |]. simpl.
  destruct (is_operator t); [done |]. simpl. by rewrite <- IH.
Qed.

Lemma until_operator_stops (toks : list string) (k : nat) (op : string) :
  toks !! k = Some op → is_operator op = true →
  length (until_operator toks) ≤ k.
Proof.
  revert k. induction toks as [| t r IH]; intros k Hk Hop; [done |].
  simpl. destruct k as [| k]; simpl in Hk.
  - injection Hk as ->. by rewrite Hop.
  - destruct (is_operator t); simpl; [lia |].
    specialize (IH k Hk Hop). lia.
Qed.

Lemma main_body_exec (w : World) (command a0 : string) (s : Sys) :
  tokenize command !! 0 = Some a0 → is_builtin a0 = false →
  main_body w command s = Continue (execCmd w (args_of (tokenize command)) s).
Proof.
  intros Ha0 Hnb. unfold main_body. rewrite arg_args_of, Ha0.
  unfold is_builtin in Hnb. apply orb_false_elim in Hnb as [-> ->]. done.
Qed.

(* ================================================================= *)
(** * Pipes in the descriptor table *)

Lemma fd_alloc_pipe_spec (id : nat) (t : fdtable) (r wr : nat) (t2 : fdtable) :
  fd_alloc_pipe id t = (r, wr, t2) →
  r ≠ wr ∧
  fd_get t2 r = Some (PipeObj id ReadEnd) ∧
  fd_get t2 wr = Some (PipeObj id WriteEnd) ∧
  (∀ k o, fd_get t k = Some o → k ≠ r ∧ k ≠ wr ∧ fd_get t2 k = Some o) ∧
  wr ≤ S (length t) ∧ length t2 ≤ length t + 2.
Proof.
  unfold fd_alloc_pipe. intros [= <- <- <-].
  set (r := fd_lowest_free t).
  set (t1 := fd_put t r (PipeObj id ReadEnd)).
  set (wr := fd_lowest_free t1).
  assert (Hr1 : fd_get t1 r = Some (PipeObj id ReadEnd))
    by apply fd_get_put_eq.
  assert (Hrw : r ≠ wr).
  { intros Heq. pose proof (fd_get_lowest_free t1) as Hfree.
    fold wr in Hfree. rewrite <- Heq in Hfree. congruence. }
  pose proof (fd_lowest_free_le t) as Hrl. fold r in Hrl.
  pose proof (fd_lowest_free_le t1) as Hwl. fold wr in Hwl.
  pose proof (fd_put_length t r (PipeObj id ReadEnd)) as Hl1. fold t1 in Hl1.
  split; [done |]. split; [by rewrite fd_get_put_ne |].
  split; [apply fd_get_put_eq |]. split.
  - intros k o Hk.
    assert (k ≠ r) as Hkr
      by (intros ->; unfold r in Hk; by rewrite fd_get_lowest_free in Hk).
    assert (fd_get t1 k = Some o) as Hk1
      by (unfold t1; by rewrite fd_get_put_ne).
    assert (k ≠ wr) as Hkw
      by (intros ->; unfold wr in Hk1; by rewrite fd_get_lowest_free in Hk1).
    by rewrite fd_get_put_ne.
  - rewrite fd_put_length. lia.
Qed.

Lemma sys_pipe_fds (w : World) (s : Sys) :
  length (fds (self (sys_pipe w s).2)) ≤ length (fds (self s)) + 2 ∧
  next_pipe s ≤ next_pipe (sys_pipe w s).2 ∧
  ∀ k o, fd_get (fds (self s)) k = Some o →
         fd_get (fds (self (sys_pipe w s).2)) k = Some o.
Proof.
  unfold sys_pipe.
  destruct (fd_alloc_pipe _ _) as [[r wr] t2] eqn:Halloc.
  apply fd_alloc_pipe_spec in Halloc as (_ & _ & _ & Hkeep & _ & Hlen).
  destruct (bool_decide _); simpl.
  - split; [done |]. split; [lia |]. intros k o Hk. by apply Hkeep.
  - split; [lia |]. done.
Qed.

Lemma scan_pipes_fds (w : World) (toks : list string) :
  ∀ s : Sys,
    length (fds (self (scan_pipes w toks s))) ≤
      length (fds (self s)) + 2 * length toks ∧
    next_pipe s ≤ next_pipe (scan_pipes w toks s) ∧
    ∀ k o, fd_get (fds (self s)) k = Some o →
           fd_get (fds (self (scan_pipes w toks s))) k = Some o.
Proof.
  induction toks as [| t r IH]; intros s; simpl.
  - split; [lia |]. done.
  - destruct (IH (if String.eqb t "|" then (sys_pipe w s).2 else s))
      as (Hlen & Hid & Hkeep).
    destruct (sys_pipe_fds w s) as (Hlen1 & Hid1 & Hkeep1).
    destruct (String.eqb t "|").
    + split; [lia |]. split; [lia |]. intros k o Hk. by apply Hkeep, Hkeep1.
    + split; [lia |]. done.
Qed.

(** With room for 22 more descriptors, the pipe of [pipeCommands] can
    be created whatever the scan opened before (at most ten pipes). *)
Lemma pipe_room (w : World) (toks : list string) (s : Sys) :
  length toks ≤ 10 →
  length (fds (self s)) + 22 ≤ w_nofile w →
  ∃ r wr t2,
    fd_alloc_pipe (next_pipe (scan_pipes w toks s))
      (fds (self (scan_pipes w toks s))) = (r, wr, t2) ∧
    wr < w_nofile w.
Proof.
  intros Hlen Hroom.
  destruct (fd_alloc_pipe _ _) as [[r wr] t2] eqn:Halloc.
  exists r, wr, t2. split; [done |].
  apply fd_alloc_pipe_spec in Halloc as (_ & _ & _ & _ & Hwr & _).
  destruct (scan_pipes_fds w toks s) as (Hl & _ & _). lia.
Qed.

(* ================================================================= *)
(** * What the interpreter itself says *)

Lemma block_on_self (r : waitreq) (s : Sys) : self (block_on r s) = self s.
Proof.
  unfold block_on, wake. simpl. by destruct (wake_loop _ _).
Qed.

Lemma sys_waitpid_nohang_self (pid : nat) (s : Sys) :
  self (sys_waitpid_nohang pid s) = emit (EvWaitpid pid true) (self s).
Proof.
  unfold sys_waitpid_nohang. simpl.
  destruct (find_child pid (children s)) as [c |]; [| done].
  by destruct (is_zombie c).
Qed.

Lemma sys_pipe_reports (w : World) (s : Sys) :
  reports_of (log (self (sys_pipe w s).2)) = reports_of (log (self s)).
Proof.
  unfold sys_pipe. destruct (fd_alloc_pipe _ _) as [[r wr] t2].
  destruct (bool_decide _); simpl; rewrite reports_of_app; simpl;
    by rewrite app_nil_r.
Qed.

Lemma scan_pipes_reports (w : World) (toks : list string) :
  ∀ s : Sys,
    reports_of (log (self (scan_pipes w toks s))) = reports_of (log (self s)).
Proof.
  induction toks as [| t r IH]; intros s; simpl; [done |].
  rewrite IH. destruct (String.eqb t "|"); [apply sys_pipe_reports | done].
Qed.

(** When the pipe and the forks succeed, [execCmd] prints nothing and
    reports nothing: whatever goes wrong afterwards is the children's
    to say. *)
Lemma execCmd_quiet (w : World) (toks : list string) (s : Sys) :
  length (children s) + 2 ≤ w_nproc w →
  length (fds (self s)) + 22 ≤ w_nofile w →
  length toks ≤ 10 →
  reports_of (log (self (execCmd w (args_of toks) s))) =
    reports_of (log (self s)).
Proof.
  intros Hproc Hroom Hlen. unfold execCmd.
  rewrite scan_args_of by done.
  set (parsed := blank toks ++ [None]). set (f := classify 0 toks flags0).
  destruct (scan_pipes_frame w toks s) as (Hch & _ & _ & _).
  pose proof (scan_pipes_reports w toks s) as Hrep.
  destruct (is_pipe f).
  - destruct (pipe_room w toks s Hlen Hroom) as (r & wr & t2 & Halloc & Hwr).
    set (s1 := scan_pipes w toks s) in *.
    unfold pipeCommands, sys_pipe. rewrite Halloc.
    rewrite (bool_decide_eq_true_2 _ Hwr).
    unfold sys_fork at 1. simpl. rewrite Hch.
    rewrite bool_decide_eq_true_2 by lia.
    unfold sys_fork. simpl.
    rewrite bool_decide_eq_true_2 by (rewrite length_app; simpl; lia).
    destruct (background f); unfold sys_waitpid;
      repeat (rewrite block_on_self; simpl);
      simpl; rewrite !reports_of_app; simpl; by rewrite !app_nil_r.
  - set (s1 := scan_pipes w toks s) in *.
    unfold sys_fork. rewrite Hch, bool_decide_eq_true_2 by lia.
    destruct (background f).
    + rewrite sys_waitpid_nohang_self. simpl.
      rewrite !reports_of_app. simpl. by rewrite !app_nil_r.
    + unfold sys_wait. rewrite block_on_self. simpl.
      rewrite !reports_of_app. simpl. by rewrite !app_nil_r.
Qed.

(* ================================================================= *)
(** * The argument vector *)




(* ================================================================= *)
(** * Output redirection *)

Lemma is_output_op_cases (op : string) :
  is_output_op op = true → op = ">" ∨ op = ">>".
Proof.
  unfold is_output_op. intros [H | H]%orb_true_iff;
    apply String.eqb_eq in H; auto.
Qed.

(** What the scan has recorded about the output when the line has a
    single output operator, at index [length pre]. *)
Lemma classify_single_output (pre post : list string) (op path : string) :
  is_output_op op = true → is_operator path = false →
  forallb (λ t, negb (is_output_op t)) (pre ++ post) = true →
  let f := classify 0 (pre ++ op :: path :: post) flags0 in
  output_redirection f || append f = true ∧
  append f = String.eqb op ">>" ∧
  output_file_pos f = length pre.
Proof.
  intros Hop Hpath Hno. rewrite forallb_app in Hno.
  apply andb_true_iff in Hno as [Hpre Hpost].
  rewrite classify_app. simpl.
  rewrite (classify_step_ordinary _ path) by done.
  destruct (classify_no_output post (S (S (length pre)))
              (classify_step (length pre) op (classify 0 pre flags0)) Hpost)
    as (-> & -> & ->).
  destruct (classify_no_output pre 0 flags0 Hpre) as (Ho & Ha & Hp).
  destruct (is_output_op_cases op Hop) as [-> | ->]; simpl.
  - by rewrite Ha.
  - by rewrite orb_true_r.
Qed.

(* ================================================================= *)
(** * Pipelines *)

Lemma classify_no_pipe (toks : list string) :
  ∀ (i : nat) (f : Flags),
    existsb is_pipe_op toks = false →
    piped_cmd_pos (classify i toks f) = piped_cmd_pos f.
Proof.
  induction toks as [| t r IH]; intros i f Hno; simpl in *; [done |].
  apply orb_false_elim in Hno as [Ht Hr].
  rewrite IH by done.
  destruct (operator_cases t) as [-> | [-> | [-> | [-> | [-> | Hord]]]]];
    try done.
  by rewrite classify_step_ordinary.
Qed.

(** A stage has an argument vector exactly when an ordinary token
    stands at its start. *)
Lemma until_operator_nonempty (toks : list string) :
  until_operator toks ≠ [] ↔
    ∃ t, toks !! 0 = Some t ∧ is_operator t = false.
Proof.
  destruct toks as [| t r]; simpl.
  - split; [done | by intros (t & Ht & _)].
  - destruct (is_operator t) eqn:Hop; split.
    + done.
    + intros (t' & [= <-] & Ht'). congruence.
    + intros _. by exists t.
    + done.
Qed.


(* ================================================================= *)
(** * Operators without their argument *)

(** C1, as stated, fails: [ls >] is not rejected.  A child is
    created; the interpreter itself reports nothing, and the failure
    to open a null path is reported by the child, which exits with
    status 1. *)
Lemma trailing_redirect_creates_a_child :
  (λ c, (c_pid c, c_fate c, reports_of (log (c_proc c)))) <$>
    created s_init (sys_of (main_body w_std "ls >" s_init)) =
    [(1, Exits 1, ["Error opening file"])] ∧
  reports_of (log (self (sys_of (main_body w_std "ls >" s_init)))) = [].
Proof. split; reflexivity. Qed.

Lemma is_redirection_op_cases (op : string) :
  is_redirection_op op = true → op = ">" ∨ op = ">>" ∨ op = "<".
Proof.
  unfold is_redirection_op.
  intros [[H | H]%orb_true_iff | H]%orb_true_iff;
    apply String.eqb_eq in H; auto.
Qed.

(* ================================================================= *)
(** * Descriptors the interpreter keeps *)

(** ** Counting open descriptors *)

Lemma open_count_pad (t : fdtable) (n : nat) :
  open_count (t ++ replicate n None) = open_count t.
Proof.
  unfold open_count. rewrite omap_app, length_app.
  assert (omap id (replicate n (@None fobj)) = []) as ->; [| simpl; lia].
  induction n as [| n IH]; [done |]. simpl. exact IH.
Qed.

Lemma open_count_insert_free (t : fdtable) :
  ∀ (fd : nat) (o : fobj),
    t !! fd = Some None →
    open_count (<[fd := Some o]> t) = S (open_count t).
Proof.
  unfold open_count.
  induction t as [| x t IH]; intros fd o Hfd; [done |].
  destruct fd as [| fd]; simpl in *.
  - by injection Hfd as ->.
  - specialize (IH _ o Hfd). destruct x; simpl; [f_equal |]; exact IH.
Qed.

Lemma open_count_put (t : fdtable) (fd : nat) (o : fobj) :
  fd_get t fd = None → open_count (fd_put t fd o) = S (open_count t).
Proof.
  intros Hfree. unfold fd_put.
  rewrite open_count_insert_free, open_count_pad; [done |].
  pose proof (fd_get_pad t (S fd - length t) fd) as Hpad.
  rewrite Hfree in Hpad. unfold fd_get in Hpad.
  destruct ((t ++ replicate (S fd - length t) None) !! fd) as [[x |] |] eqn:E;
    [done | done |].
  apply lookup_ge_None_1 in E.
  rewrite length_app, length_replicate in E. lia.
Qed.

Lemma open_count_close (t : fdtable) :
  ∀ (fd : nat) (o : fobj),
    fd_get t fd = Some o →
    S (open_count (fd_close t fd)) = open_count t.
Proof.
  unfold open_count, fd_get, fd_close.
  induction t as [| x t IH]; intros fd o Hfd; [done |].
  destruct fd as [| fd]; simpl in *.
  - by destruct x.
  - specialize (IH _ _ Hfd). destruct x; simpl; [f_equal |]; exact IH.
Qed.

Lemma fd_alloc_pipe_count (id : nat) (t : fdtable) (r wr : nat) (t2 : fdtable) :
  fd_alloc_pipe id t = (r, wr, t2) → open_count t2 = open_count t + 2.
Proof.
  unfold fd_alloc_pipe. intros [= <- <- <-].
  rewrite !open_count_put by apply fd_get_lowest_free. lia.
Qed.

(** The descriptors of the interpreter after a line with [|]: those
    it had after the scan, the pipe of [pipeCommands] opened and
    closed again. *)
Lemma execCmd_pipe_fds (w : World) (toks : list string) (s : Sys)
    (r wr : nat) (t2 : fdtable) :
  length (children s) + 2 ≤ w_nproc w →
  length toks ≤ 10 →
  existsb is_pipe_op toks = true →
  fd_alloc_pipe (next_pipe (scan_pipes w toks s))
    (fds (self (scan_pipes w toks s))) = (r, wr, t2) →
  wr < w_nofile w →
  fds (self (execCmd w (args_of toks) s)) = fd_close (fd_close t2 r) wr.
Proof.
  intros Hproc Hlen Hpipe Halloc Hroom. unfold execCmd.
  rewrite scan_args_of by done.
  rewrite classify_is_pipe, Hpipe. simpl.
  set (parsed := blank toks ++ [None]). set (f := classify 0 toks flags0).
  destruct (scan_pipes_frame w toks s) as (Hch & _ & _ & _).
  set (s1 := scan_pipes w toks s) in *.
  unfold pipeCommands, sys_pipe. rewrite Halloc.
  rewrite (bool_decide_eq_true_2 _ Hroom).
  unfold sys_fork at 1. simpl. rewrite Hch.
  rewrite bool_decide_eq_true_2 by lia.
  unfold sys_fork. simpl.
  rewrite bool_decide_eq_true_2 by (rewrite length_app; simpl; lia).
  destruct (background f); unfold sys_waitpid;
    repeat (rewrite block_on_self; simpl); done.
Qed.

(** X25. On every line with exactly one [|] the interpreter ends up with
    two more open descriptors than it had: the pipe of the scan. *)
Lemma pipeline_leaks_two_descriptors (w : World) (s : Sys)
    (command a0 : string) (pre post : list string) :
  length (children s) + 2 ≤ w_nproc w →
  length (fds (self s)) + 22 ≤ w_nofile w →
  tokenize command = pre ++ "|" :: post →
  existsb is_pipe_op (pre ++ post) = false →
  tokenize command !! 0 = Some a0 → is_builtin a0 = false →
  open_count (fds (self (sys_of (main_body w command s)))) =
    open_count (fds (self s)) + 2.
Proof.
  intros Hproc Hroom Htoks Hone Ha0 Hnb.
  rewrite (main_body_exec w command a0 s Ha0 Hnb). simpl.
  pose proof (tokenize_length command) as Hlen.
  rewrite existsb_app in Hone. apply orb_false_elim in Hone as [Hpre Hpost].
  assert (Hpipe : existsb is_pipe_op (tokenize command) = true).
  { rewrite Htoks, existsb_app. simpl. by rewrite orb_true_r. }
  set (toks := tokenize command) in *.
  destruct (pipe_room w toks s Hlen Hroom) as (r & wr & t2 & Halloc & Hwr).
  rewrite (execCmd_pipe_fds w toks s r wr t2) by done.
  pose proof (fd_alloc_pipe_spec _ _ _ _ _ Halloc)
    as (Hrw & Hr & Hw & _ & _ & _).
  pose proof (fd_alloc_pipe_count _ _ _ _ _ Halloc) as Hcount.
  assert (Hscan : open_count (fds (self (scan_pipes w toks s)))
                  = open_count (fds (self s)) + 2).
  { rewrite Htoks. clear Halloc Hcount.
    assert (Hsplit : ∀ l s0, existsb is_pipe_op l = false →
                             scan_pipes w (l ++ "|" :: post) s0
                             = (sys_pipe w s0).2).
    { induction l as [| t l IHl]; intros s0 Hl; simpl in *.
      - by rewrite scan_pipes_none.
      - apply orb_false_elim in Hl as [Ht Hl]. unfold is_pipe_op in Ht.
        rewrite Ht. by apply IHl. }
    rewrite Hsplit by done.
    unfold sys_pipe.
    destruct (fd_alloc_pipe (next_pipe s) (fds (self s)))
      as [[r0 w0] t0] eqn:Halloc0.
    pose proof (fd_alloc_pipe_spec _ _ _ _ _ Halloc0)
      as (_ & _ & _ & _ & Hw0 & _).
    rewrite bool_decide_eq_true_2 by lia. simpl.
    by apply fd_alloc_pipe_count in Halloc0. }
  assert (S (open_count (fd_close t2 r)) = open_count t2) as Hc1
    by (by eapply open_count_close).
  assert (S (open_count (fd_close (fd_close t2 r) wr))
          = open_count (fd_close t2 r)) as Hc2.
  { eapply open_count_close. by rewrite fd_get_close_ne. }
  lia.
Qed.

(** C2 on [ls | wc]: the interpreter starts with its three standard
    streams and ends with five open descriptors.  The pipe that
    [pipeCommands] creates (pipe 1, descriptors 5 and 6) is closed
    again; the pipe the scan opened when it met the [|] (pipe 0,
    descriptors 3 and 4) stays open, also after both children have
    terminated and the interpreter is back at its prompt. *)
Theorem pipeline_leaves_scan_pipe_open :
  let s' := sys_of (main_body w_std "ls | wc" s_init) in
  let s'' := child_exits 2 0 (child_exits 1 0 s') in
  open_count (fds (self s_init)) = 3 ∧
  open_count (fds (self s')) = 5 ∧
  at_prompt s'' = true ∧
  children s'' = [] ∧
  fds (self s'') =
    [Some Tty; Some Tty; Some Tty;
     Some (PipeObj 0 ReadEnd); Some (PipeObj 0 WriteEnd); None; None] ∧
  log (self s'') =
    [EvPipe (Some (3, 4)); EvPipe (Some (5, 6));
     EvFork (Some 1); EvFork (Some 2); EvClose 5; EvClose 6;
     EvWaitpid 1 false; EvWaitpid 2 false].
Proof. repeat split; reflexivity. Qed.

(* ================================================================= *)
(** * A program that cannot be started *)

(** The child of a single command that reaches [execvp] and fails
    there prints a message and leaves through [exit(0)]. *)
Lemma single_child_exec_failure (w : World) (parsed : list (option string))
    (f : Flags) (pid : nat) (t : fdtable) (file : string) :
  arg parsed 0 = Some file → w_exec w file = false →
  let c := spawn pid (single_child w parsed f) t in
  c_fate c = Exits 0 ∨ fails_loudly (c_fate c) (c_proc c).
Proof.
  intros Hfile Hfail.
  apply (spawn_wp (λ e p, e = Exits 0 ∨ fails_loudly e p)).
  unfold single_child, fails_loudly. wp_run; log_simpl; eauto.
  all: congruence.
Qed.

(** In a pipeline the same failure ends in [exit(1)]. *)
Lemma first_child_exec_failure (w : World) (parsed : list (option string))
    (r wr : nat) (inp : bool) (ipos pid : nat) (t : fdtable) (file : string) :
  arg parsed 0 = Some file → w_exec w file = false →
  let c := spawn pid (first_child w parsed r wr inp ipos) t in
  fails_loudly (c_fate c) (c_proc c).
Proof.
  intros Hfile Hfail. apply (spawn_wp fails_loudly).
  unfold first_child, fails_loudly. wp_run; log_simpl; eauto.
  all: congruence.
Qed.

(** C3 on [nosuchcmd]: the child reports that it could not execute
    the command and then exits with status 0, the status of success.
    The same program in a pipeline makes both children exit with
    status 1.  The interpreter goes on in either case. *)
Theorem failed_exec_exits_with_status_zero :
  (λ c, (c_fate c, log (c_proc c))) <$>
    created s_init (sys_of (main_body w_std "nosuchcmd" s_init)) =
    [(Exits 0,
      [EvExecvp (Some "nosuchcmd") ["nosuchcmd"];
       EvStdout "
Could not execute command..
"])] ∧
  c_fate <$>
    created s_init (sys_of (main_body w_std "nosuchcmd | nosuchcmd" s_init)) =
    [Exits 1; Exits 1] ∧
  at_prompt (child_exits 1 0 (sys_of (main_body w_std "nosuchcmd" s_init)))
    = true.
Proof. repeat split; reflexivity. Qed.

(* ================================================================= *)
(** * Waiting for the child *)

(** C4 on the lines [sleep 1 &] and, once that child has terminated,
    [sleep 5].  After the first line the interpreter is at its prompt
    with child 1 running.  The second line creates child 2 and calls
    [wait(NULL)], which returns at once with the terminated child 1:
    the interpreter is back at its prompt while child 2, the one it
    just created, is still running.  Without the earlier child the
    same line keeps the interpreter suspended. *)
Theorem foreground_wait_takes_any_child :
  let s1 := sys_of (main_body w_std "sleep 1 &" s_init) in
  let s2 := child_exits 1 0 s1 in
  let s3 := sys_of (main_body w_std "sleep 5" s2) in
  at_prompt s1 = true ∧
  (λ c, (c_pid c, c_state c)) <$> children s1 = [(1, Running)] ∧
  log (self s1) = [EvFork (Some 1); EvWaitpid 1 true] ∧
  (λ c, (c_pid c, c_state c)) <$> children s2 = [(1, Zombie 0)] ∧
  at_prompt s3 = true ∧
  (λ c, (c_pid c, c_fate c, c_state c)) <$> children s3 =
    [(2, Replaced "sleep" ["sleep"; "5"], Running)] ∧
  log (self s3) =
    [EvFork (Some 1); EvWaitpid 1 true; EvFork (Some 2); EvWait] ∧
  pending (sys_of (main_body w_std "sleep 5" s_init)) = [WAny].
Proof. repeat split; reflexivity. Qed.

(* ================================================================= *)
(** * More on the tokenizer *)

Lemma cut_line_no_eol (s : string) :
  string_forallb not_eol (cut_line s) = true.
Proof.
  induction s as [| c r IH]; [done |]. simpl.
  destruct (is_eol c) eqn:E; [done |]. simpl. unfold not_eol at 1.
  by rewrite E, IH.
Qed.

Lemma skip_delims_forallb (P : ascii → bool) (s : string) :
  string_forallb P s = true → string_forallb P (skip_delims s) = true.
Proof.
  induction s as [| c r IH]; [done |]. simpl.
  intros [Hc Hr]%andb_true_iff.
  destruct (Ascii.eqb c " "); [by apply IH |]. simpl. by rewrite Hc, Hr.
Qed.

Lemma skip_delims_head (s : string) (c : ascii) (r : string) :
  skip_delims s = String c r → not_space c = true.
Proof.
  induction s as [| c' r' IH]; [done |]. simpl.
  destruct (Ascii.eqb c' " ") eqn:E; [exact IH |].
  intros [= <- <-]. unfold not_space. by rewrite E.
Qed.

Lemma span_token_spec (P : ascii → bool) (s : string) :
  ∀ t r, span_token s = (t, r) →
    string_forallb not_space t = true ∧
    (string_forallb P s = true →
     string_forallb P t = true ∧ string_forallb P r = true).
Proof.
  induction s as [| c s IH]; intros t r; simpl.
  - by intros [= <- <-].
  - destruct (Ascii.eqb c " ") eqn:E.
    + intros [= <- <-]. split; [done |]. by intros [_ ?]%andb_true_iff.
    + destruct (span_token s) as [t' r'] eqn:Hs. intros [= <- <-].
      destruct (IH t' r' eq_refl) as [Hns HP]. simpl. split.
      * unfold not_space at 1. by rewrite E, Hns.
      * intros [Hc Hs']%andb_true_iff. destruct (HP Hs') as [-> ->].
        by rewrite Hc.
Qed.

Lemma strtok_spec (s t r : string) :
  string_forallb not_eol s = true →
  strtok s = Some (t, r) →
  is_word t ∧ string_forallb not_eol r = true.
Proof.
  intros Hs. unfold strtok.
  pose proof (skip_delims_forallb not_eol s Hs) as Hskip.
  destruct (skip_delims s) as [| c s'] eqn:E; [done |].
  intros Heq.
  assert (Hspan : span_token (String c s') = (t, r)) by congruence.
  clear Heq.
  destruct (span_token_spec not_eol _ _ _ Hspan) as [Hns HP].
  destruct (HP Hskip) as [Ht Hr].
  split; [| done]. split; [| done].
  simpl in Hspan. apply skip_delims_head in E. unfold not_space in E.
  destruct (Ascii.eqb c " "); [done |].
  destruct (span_token s') as [t' r']. by injection Hspan as <- <-.
Qed.

Lemma tokenize_loop_words (fuel : nat) :
  ∀ s, string_forallb not_eol s = true →
       Forall is_word (tokenize_loop fuel s).
Proof.
  induction fuel as [| fuel IH]; intros s Hs; simpl; [constructor |].
  destruct (strtok s) as [[t r] |] eqn:E; [| constructor].
  destruct (strtok_spec s t r Hs E) as [Ht Hr].
  constructor; [done | by apply IH].
Qed.

(** X1. Every token is a word: it is not empty and holds no space, no
    newline and no NUL. *)
Theorem tokens_are_words (command : string) :
  Forall is_word (tokenize command).
Proof. apply tokenize_loop_words, cut_line_no_eol. Qed.

Lemma tokenize_loop_take (k : nat) :
  ∀ n s, take k (tokenize_loop (k + n) s) = tokenize_loop k s.
Proof.
  induction k as [| k IH]; intros n s; simpl; [done |].
  destruct (strtok s) as [[t r] |]; [| done]. simpl. by rewrite IH.
Qed.

(** X2. The limit of ten cuts the token sequence short and does nothing
    else: the tokens are the first ten of what any longer loop over
    the same text finds. *)
Theorem tokenize_is_first_ten (command : string) (n : nat) :
  tokenize command = take 10 (tokenize_loop (10 + n) (cut_line command)) ∧
  length (tokenize command) ≤ 10.
Proof.
  split; [symmetry; apply tokenize_loop_take | apply tokenize_length].
Qed.

Lemma cut_line_app_eol (s rest : string) :
  string_forallb not_eol s = true →
  cut_line (s +:+ String "010" rest) = s.
Proof.
  induction s as [| c s IH]; [done |]. simpl.
  intros [Hc Hs]%andb_true_iff. unfold not_eol in Hc.
  apply negb_true_iff in Hc. rewrite Hc. by rewrite IH.
Qed.

Lemma cut_line_id (s : string) :
  string_forallb not_eol s = true → cut_line s = s.
Proof.
  induction s as [| c s IH]; [done |]. simpl.
  intros [Hc Hs]%andb_true_iff. unfold not_eol in Hc.
  apply negb_true_iff in Hc. rewrite Hc. by rewrite IH.
Qed.

Lemma span_token_word (t : string) :
  string_forallb not_space t = true →
  span_token t = (t, EmptyString) ∧
  ∀ r, span_token (t +:+ String " " r) = (t, r).
Proof.
  induction t as [| c t IH]; [done |]. simpl.
  intros [Hc Ht]%andb_true_iff. unfold not_space in Hc.
  apply negb_true_iff in Hc. rewrite Hc.
  destruct (IH Ht) as [-> Happ]. split; [done |].
  intros r. by rewrite Happ.
Qed.

Lemma strtok_word (t : string) :
  is_word t →
  strtok t = Some (t, EmptyString) ∧
  ∀ r, strtok (t +:+ String " " r) = Some (t, r).
Proof.
  intros (Hne & Hns & _). destruct t as [| c t]; [done |].
  simpl in Hns. apply andb_true_iff in Hns as [Hc Ht].
  destruct (span_token_word _ Ht) as [Hend Happ].
  unfold not_space in Hc. apply negb_true_iff in Hc.
  unfold strtok. simpl. rewrite Hc. split.
  - by rewrite Hend, Hc.
  - intros r. by rewrite Happ, Hc.
Qed.

Lemma string_forallb_app (P : ascii → bool) (a b : string) :
  string_forallb P (a +:+ b) = string_forallb P a && string_forallb P b.
Proof.
  induction a as [| c a IH]; [done |]. simpl. by rewrite IH, andb_assoc.
Qed.

Lemma join_words_no_eol (toks : list string) :
  Forall is_word toks → string_forallb not_eol (join_words toks) = true.
Proof.
  induction 1 as [| t r (_ & _ & Ht) Hr IH]; [done |].
  simpl. destruct r as [| t' r']; [done |].
  rewrite string_forallb_app, Ht. simpl. exact IH.
Qed.

Lemma tokenize_loop_join (toks : list string) :
  ∀ fuel, Forall is_word toks → length toks ≤ fuel →
          tokenize_loop fuel (join_words toks) = toks.
Proof.
  induction toks as [| t r IH]; intros fuel Hw Hlen.
  - by destruct fuel.
  - destruct fuel as [| fuel]; simpl in Hlen; [lia |].
    apply Forall_cons in Hw as [Ht Hr].
    destruct (strtok_word t Ht) as [Hend Happ].
    simpl. destruct r as [| t' r'].
    + rewrite Hend. by destruct fuel.
    + rewrite Happ. f_equal. apply IH; [done | simpl in *; lia].
Qed.

(** X3. Round trip. At most ten words, written with single spaces and
    ended by a newline, come back from the tokenizer as they were;
    what follows the newline is not looked at. *)
Theorem tokenize_join_words (toks : list string) (rest : string) :
  Forall is_word toks → length toks ≤ 10 →
  tokenize (join_words toks) = toks ∧
  tokenize (join_words toks +:+ String "010" rest) = toks.
Proof.
  intros Hw Hlen. unfold tokenize.
  rewrite cut_line_app_eol, cut_line_id by (by apply join_words_no_eol).
  split; by apply tokenize_loop_join.
Qed.

Lemma tokenize_join_words_witness :
  tokenize (join_words ["ls"; "-l"; ">"; "out"]) = ["ls"; "-l"; ">"; "out"] ∧
  tokenize (join_words ["ls"; "-l"; ">"; "out"] +:+ String "010" "junk")
    = ["ls"; "-l"; ">"; "out"].
Proof.
  apply (tokenize_join_words ["ls"; "-l"; ">"; "out"] "junk").
  - repeat constructor; done.
  - simpl. lia.
Defined.

(* ================================================================= *)
(** * The flags after the scan *)

(** Each flag is set exactly when its operator occurs on the line. *)
Lemma classify_flags (toks : list string) :
  ∀ (i : nat) (f : Flags),
    background (classify i toks f) = background f || existsb is_amp toks ∧
    append (classify i toks f) = append f || existsb is_append_op toks ∧
    output_redirection (classify i toks f)
      = output_redirection f || existsb is_truncate_op toks ∧
    input_redirection (classify i toks f)
      = input_redirection f || existsb is_input_op toks.
Proof.
  induction toks as [| t r IH]; intros i f; simpl.
  - by rewrite !orb_false_r.
  - destruct (IH (S i) (classify_step i t f)) as (-> & -> & -> & ->).
    destruct (operator_cases t) as [-> | [-> | [-> | [-> | [-> | Hord]]]]];
      simpl; rewrite ?orb_true_r, ?orb_false_r; try done.
    rewrite classify_step_ordinary by done.
    unfold is_operator in Hord.
    repeat (apply orb_false_elim in Hord as [Hord ?]).
    unfold is_amp, is_append_op, is_truncate_op, is_input_op.
    by repeat match goal with
              | E : String.eqb _ _ = false |- _ => rewrite E; clear E
              end.
Qed.

Lemma classify_ordinary (toks : list string) :
  ∀ (i : nat) (f : Flags),
    forallb (λ t, negb (is_operator t)) toks = true →
    classify i toks f = f.
Proof.
  induction toks as [| t r IH]; intros i f Hall; simpl in *; [done |].
  apply andb_true_iff in Hall as [Ht Hr]. apply negb_true_iff in Ht.
  rewrite classify_step_ordinary by done. by apply IH.
Qed.

Lemma blank_ordinary (toks : list string) :
  forallb (λ t, negb (is_operator t)) toks = true →
  blank toks = Some <$> toks.
Proof.
  induction toks as [| t r IH]; simpl; [done |].
  intros [Ht Hr]%andb_true_iff. apply negb_true_iff in Ht.
  unfold blank in *. simpl. by rewrite Ht, IH.
Qed.

Lemma c_argv_some (toks : list string) (rest : list (option string)) :
  c_argv ((Some <$> toks) ++ None :: rest) = toks.
Proof. induction toks as [| t r IH]; [done |]. simpl. f_equal. exact IH. Qed.

Lemma ordinary_no_pipe (toks : list string) :
  forallb (λ t, negb (is_operator t)) toks = true →
  existsb is_pipe_op toks = false.
Proof.
  induction toks as [| t r IH]; simpl; [done |].
  intros [Ht Hr]%andb_true_iff. rewrite IH by done.
  apply negb_true_iff in Ht. unfold is_operator in Ht.
  apply orb_false_elim in Ht as [_ Ht]. unfold is_pipe_op. by rewrite Ht.
Qed.

(* ================================================================= *)
(** * [execCmd] by the shape of the line *)

Lemma execCmd_no_pipe (w : World) (toks : list string) (s : Sys) :
  length toks ≤ 10 →
  existsb is_pipe_op toks = false →
  execCmd w (args_of toks) s =
    match sys_fork w (single_child w (blank toks ++ [None])
                        (classify 0 toks flags0)) s with
    | (None, s1) => sys_printf "
Failed forking child.." s1
    | (Some pid, s1) =>
        if background (classify 0 toks flags0)
        then sys_waitpid_nohang pid s1
        else sys_wait s1
    end.
Proof.
  intros Hlen Hno. unfold execCmd. rewrite scan_args_of by done.
  by rewrite classify_is_pipe, Hno, scan_pipes_none.
Qed.

Lemma execCmd_with_pipe (w : World) (toks : list string) (s : Sys) :
  length toks ≤ 10 →
  existsb is_pipe_op toks = true →
  execCmd w (args_of toks) s =
    pipeCommands w (blank toks ++ [None])
      (background (classify 0 toks flags0))
      (output_redirection (classify 0 toks flags0))
      (append (classify 0 toks flags0))
      (input_redirection (classify 0 toks flags0))
      (output_file_pos (classify 0 toks flags0))
      (input_file_pos (classify 0 toks flags0))
      (piped_cmd_pos (classify 0 toks flags0))
      (scan_pipes w toks s).
Proof.
  intros Hlen Hpipe. unfold execCmd. rewrite scan_args_of by done.
  by rewrite classify_is_pipe, Hpipe.
Qed.

(* ================================================================= *)
(** * The built-in [exit] *)

(** A line whose first token is [exit] ends the interpreter with
    status 1, whatever follows on the line; nothing else happens. *)
Theorem exit_ends_with_status_one (w : World) (s : Sys) (command : string) :
  tokenize command !! 0 = Some "exit" →
  main_body w command s = Exited 1 s.
Proof.
  intros Htok. unfold main_body. by rewrite arg_args_of, Htok.
Qed.

Lemma exit_ends_with_status_one_witness :
  main_body w_std "exit now | wc &" s_init = Exited 1 s_init.
Proof.
  apply (exit_ends_with_status_one w_std s_init "exit now | wc &").
  reflexivity.
Defined.

(* ================================================================= *)
(** * A command without operators *)

(** X4. A line of ordinary tokens creates one child, which inherits the
    interpreter's descriptors untouched and hands the whole line to
    [execvp]: the first token as the program, all tokens as its
    argument vector.  When the program cannot be started the child
    says so and exits with status 0. *)
Theorem plain_command_runs_whole_line (w : World) (s : Sys)
    (command a0 : string) :
  sys_wf s →
  length (children s) < w_nproc w →
  forallb (λ t, negb (is_operator t)) (tokenize command) = true →
  tokenize command !! 0 = Some a0 → is_builtin a0 = false →
  ∃ s' c,
    main_body w command s = Continue s' ∧
    created s s' = [c] ∧
    c_pid c = next_pid s ∧
    fds (c_proc c) = fds (self s) ∧
    opens_of (log (c_proc c)) = [] ∧
    execs_of (log (c_proc c)) = [(Some a0, tokenize command)] ∧
    c_fate c = (if w_exec w a0 then Replaced a0 (tokenize command)
                else Exits 0) ∧
    reports_of (log (c_proc c)) =
      (if w_exec w a0 then [] else ["
Could not execute command..
"]).
Proof.
  intros Hwf Hproc Hord Ha0 Hnb.
  rewrite (main_body_exec w command a0 s Ha0 Hnb).
  pose proof (tokenize_length command) as Hlen.
  set (toks := tokenize command) in *.
  exists (execCmd w (args_of toks) s).
  rewrite execCmd_single_created by (done || by apply ordinary_no_pipe).
  rewrite classify_ordinary, blank_ordinary by done.
  eexists. split; [done |]. split; [done |].
  assert (Harg : arg ((Some <$> toks) ++ [None]) 0 = Some a0)
    by (fold (args_of toks); by rewrite arg_args_of).
  unfold spawn, run_child, single_child, mbind, child_bind, mret, child_ret,
    execvp. simpl. rewrite Harg, c_argv_some.
  destruct (w_exec w a0); simpl; done.
Qed.

Lemma plain_command_runs_whole_line_witness :
  ∃ s' c,
    main_body w_std "echo a>b c" s_init = Continue s' ∧
    created s_init s' = [c] ∧
    c_pid c = 1 ∧
    fds (c_proc c) = fds (self s_init) ∧
    opens_of (log (c_proc c)) = [] ∧
    execs_of (log (c_proc c)) = [(Some "echo", ["echo"; "a>b"; "c"])] ∧
    c_fate c = Replaced "echo" ["echo"; "a>b"; "c"] ∧
    reports_of (log (c_proc c)) = [].
Proof.
  apply (plain_command_runs_whole_line w_std s_init "echo a>b c" "echo").
  - constructor.
  - simpl. lia.
  - reflexivity.
  - reflexivity.
  - reflexivity.
Defined.

(* ================================================================= *)
(** * The child table under [wait] and termination *)

Lemma child_exits_unfold (pid : nat) (status : Z) (s : Sys) :
  child_exits pid status s =
    wake {| self := self s; children := mark_exited pid status (children s);
            next_pid := next_pid s; next_pipe := next_pipe s; cwd := cwd s;
            pending := pending s |}.
Proof. done. Qed.

Lemma find_child_app_old (pid : nat) (cs l : list Child) :
  Forall (λ c, c_pid c ≠ pid) cs →
  find_child pid (cs ++ l) = find_child pid l.
Proof.
  unfold find_child. induction 1 as [| c cs' Hc Hcs IH]; [done |].
  simpl. rewrite decide_False by done.
  rewrite <- IH. by destruct (list_find _ (cs' ++ l)) as [[i x] |].
Qed.

Lemma reap_app_old (pid : nat) (cs l : list Child) :
  Forall (λ c, c_pid c ≠ pid) cs →
  reap pid (cs ++ l) = cs ++ reap pid l.
Proof.
  intros Hold. unfold reap. rewrite filter_app. f_equal.
  induction Hold as [| c cs' Hc Hcs IH]; [done |].
  rewrite filter_cons, decide_True by done. by rewrite IH.
Qed.

Lemma mark_exited_app_old (pid : nat) (status : Z) (cs l : list Child) :
  Forall (λ c, c_pid c ≠ pid) cs →
  mark_exited pid status (cs ++ l) = cs ++ mark_exited pid status l.
Proof.
  intros Hold. unfold mark_exited. rewrite fmap_app. f_equal.
  induction Hold as [| c cs' Hc Hcs IH]; [done |].
  simpl. rewrite bool_decide_eq_false_2 by done. simpl. f_equal. exact IH.
Qed.

Lemma first_zombie_app_old (cs l : list Child) :
  Forall (λ c, is_zombie c = false) cs →
  first_zombie (cs ++ l) = first_zombie l.
Proof.
  unfold first_zombie. induction 1 as [| c cs' Hc Hcs IH]; [done |].
  simpl. rewrite decide_False by (by rewrite Hc).
  rewrite <- IH. by destruct (list_find _ (cs' ++ l)) as [[i x] |].
Qed.

Lemma wf_pids_differ (s : Sys) (n : nat) :
  sys_wf s → Forall (λ c, c_pid c ≠ next_pid s + n) (children s).
Proof.
  intros Hwf. eapply Forall_impl; [exact Hwf |]. intros c Hc. simpl in *. lia.
Qed.

Lemma sys_fork_ok (w : World) (code : child Empty_set) (s : Sys) :
  length (children s) < w_nproc w →
  sys_fork w code s =
    (Some (next_pid s),
     {| self := emit (EvFork (Some (next_pid s))) (self s);
        children := children s ++ [spawn (next_pid s) code (fds (self s))];
        next_pid := S (next_pid s); next_pipe := next_pipe s; cwd := cwd s;
        pending := pending s |}).
Proof. intros H. unfold sys_fork. by rewrite bool_decide_eq_true_2. Qed.

Lemma sys_fork_fails (w : World) (code : child Empty_set) (s : Sys) :
  w_nproc w ≤ length (children s) →
  sys_fork w code s = (None, sys_emit (EvFork None) s).
Proof. intros H. unfold sys_fork. by rewrite bool_decide_eq_false_2 by lia. Qed.

(** Facts about a child just created, in the form the table lemmas
    use them. *)
Lemma spawn_running (pid : nat) (code : child Empty_set) (t : fdtable) :
  c_pid (spawn pid code t) = pid ∧ c_state (spawn pid code t) = Running.
Proof. unfold spawn. by destruct (run_child code _). Qed.

(* ================================================================= *)
(** * Single commands: background and foreground *)

(** X5. A line with [&] and no [|] does not suspend the interpreter: the
    child is created and left running, nothing is collected, and the
    interpreter is where it was.  When that child terminates later
    nothing collects it either: it stays in the table as a zombie. *)
Theorem background_command_is_not_awaited (w : World) (s : Sys)
    (command a0 : string) :
  sys_wf s →
  length (children s) < w_nproc w →
  existsb is_pipe_op (tokenize command) = false →
  existsb is_amp (tokenize command) = true →
  tokenize command !! 0 = Some a0 → is_builtin a0 = false →
  ∃ s' c,
    main_body w command s = Continue s' ∧
    children s' = children s ++ [c] ∧
    c_pid c = next_pid s ∧ c_state c = Running ∧
    pending s' = pending s ∧
    last (log (self s')) = Some (EvWaitpid (next_pid s) true) ∧
    ∀ status,
      pending s = [] →
      children (child_exits (next_pid s) status s')
        = children s ++ [terminate status c] ∧
      at_prompt (child_exits (next_pid s) status s') = true.
Proof.
  intros Hwf Hproc Hnopipe Hamp Ha0 Hnb.
  rewrite (main_body_exec w command a0 s Ha0 Hnb).
  pose proof (tokenize_length command) as Hlen.
  set (toks := tokenize command) in *.
  rewrite execCmd_no_pipe, sys_fork_ok by done.
  destruct (classify_flags toks 0 flags0) as (-> & _ & _ & _).
  rewrite Hamp. simpl.
  set (c := spawn (next_pid s) _ (fds (self s))).
  destruct (spawn_running (next_pid s)
              (single_child w (blank toks ++ [None]) (classify 0 toks flags0))
              (fds (self s))) as [Hpid Hrun]. fold c in Hpid, Hrun.
  pose proof (wf_pids_differ s 0 Hwf) as Hold. rewrite Nat.add_0_r in Hold.
  assert (Hz : is_zombie c = false) by (unfold is_zombie; by rewrite Hrun).
  unfold sys_waitpid_nohang. simpl.
  rewrite find_child_app_old by done.
  unfold find_child. simpl. rewrite decide_True by done. simpl. rewrite Hz.
  do 2 eexists. split; [done |]. simpl.
  split; [done |]. split; [done |]. split; [done |]. split; [done |].
  split; [by rewrite last_snoc |].
  intros status Hpend. rewrite child_exits_unfold. simpl.
  rewrite mark_exited_app_old by done. unfold wake. simpl.
  rewrite Hpend. simpl. split; [| done].
  unfold mark_exited. simpl.
  by rewrite bool_decide_eq_true_2, Hz by done.
Qed.

Lemma background_command_is_not_awaited_witness :
  ∃ s' c,
    main_body w_std "sleep 5 &" s_init = Continue s' ∧
    children s' = children s_init ++ [c] ∧
    c_pid c = 1 ∧ c_state c = Running ∧
    pending s' = pending s_init ∧
    last (log (self s')) = Some (EvWaitpid 1 true) ∧
    ∀ status,
      pending s_init = [] →
      children (child_exits 1 status s')
        = children s_init ++ [terminate status c] ∧
      at_prompt (child_exits 1 status s') = true.
Proof.
  apply (background_command_is_not_awaited w_std s_init "sleep 5 &" "sleep").
  - constructor.
  - simpl. lia.
  - reflexivity.
  - reflexivity.
  - reflexivity.
  - reflexivity.
Defined.

Lemma is_zombie_terminate (status : Z) (c : Child) :
  is_zombie (terminate status c) = true.
Proof. unfold is_zombie, terminate. simpl. by destruct (c_fate c). Qed.

Lemma reap_mark_exited (pid : nat) (status : Z) (cs : list Child) :
  reap pid (mark_exited pid status cs) = reap pid cs.
Proof.
  unfold reap, mark_exited. induction cs as [| c cs IH]; [done |].
  rewrite fmap_cons, !filter_cons, IH.
  assert (Hpid : c_pid (if bool_decide (c_pid c = pid) && negb (is_zombie c)
                        then terminate status c else c) = c_pid c)
    by (by destruct (_ && _)).
  rewrite Hpid.
  destruct (decide (c_pid c ≠ pid)) as [Hne | Heq]; [| done].
  by rewrite bool_decide_eq_false_2 by done.
Qed.

(** With no terminated child around, the first one the kernel finds
    after child [pid] has terminated is that child. *)
Lemma first_zombie_mark_exited (pid : nat) (status : Z) (cs : list Child) :
  Forall (λ c, is_zombie c = false) cs →
  pid ∈ c_pid <$> cs →
  first_zombie (mark_exited pid status cs) = Some pid.
Proof.
  unfold first_zombie, mark_exited.
  induction 1 as [| c cs Hc Hcs IH]; [by intros ?%elem_of_nil |].
  rewrite !fmap_cons. intros Hin. simpl.
  destruct (decide (c_pid c = pid)) as [Heq | Hne].
  - rewrite bool_decide_eq_true_2, Hc by done. simpl.
    rewrite decide_True by apply is_zombie_terminate. simpl.
    by rewrite Heq.
  - rewrite bool_decide_eq_false_2 by done. simpl.
    rewrite decide_False by (by rewrite Hc).
    apply elem_of_cons in Hin as [Heq | Hin]; [done |].
    specialize (IH Hin).
    destruct (list_find _ _) as [[i x] |]; [| done].
    simpl in *. done.
Qed.

(** X6. A foreground command with no terminated child around: the
    interpreter is suspended in [wait] with the new child running, and
    the wait ends with the first child that terminates, whichever one
    it is: that child is collected and the interpreter is back at its
    prompt.  When it is the new child, the table is the one the
    interpreter had before the command. *)
Theorem foreground_wait_ends_with_first_exit (w : World) (s : Sys)
    (command a0 : string) :
  sys_wf s →
  length (children s) < w_nproc w →
  pending s = [] →
  Forall (λ c, is_zombie c = false) (children s) →
  existsb is_pipe_op (tokenize command) = false →
  existsb is_amp (tokenize command) = false →
  tokenize command !! 0 = Some a0 → is_builtin a0 = false →
  ∃ s' c,
    main_body w command s = Continue s' ∧
    children s' = children s ++ [c] ∧
    c_pid c = next_pid s ∧ c_state c = Running ∧
    pending s' = [WAny] ∧
    (∀ pid status,
       pid ∈ c_pid <$> children s' →
       children (child_exits pid status s') = reap pid (children s') ∧
       pending (child_exits pid status s') = []) ∧
    reap (next_pid s) (children s') = children s.
Proof.
  intros Hwf Hproc Hpend Hnoz Hnopipe Hamp Ha0 Hnb.
  rewrite (main_body_exec w command a0 s Ha0 Hnb).
  pose proof (tokenize_length command) as Hlen.
  set (toks := tokenize command) in *.
  rewrite execCmd_no_pipe, sys_fork_ok by done.
  destruct (classify_flags toks 0 flags0) as (-> & _ & _ & _).
  rewrite Hamp. simpl.
  set (c := spawn (next_pid s) _ (fds (self s))).
  destruct (spawn_running (next_pid s)
              (single_child w (blank toks ++ [None]) (classify 0 toks flags0))
              (fds (self s))) as [Hpid Hrun]. fold c in Hpid, Hrun.
  pose proof (wf_pids_differ s 0 Hwf) as Hold. rewrite Nat.add_0_r in Hold.
  assert (Hz : is_zombie c = false) by (unfold is_zombie; by rewrite Hrun).
  unfold sys_wait, block_on, wake. simpl. rewrite Hpend. simpl.
  rewrite first_zombie_app_old by done.
  unfold first_zombie at 1. simpl. rewrite decide_False by (by rewrite Hz).
  simpl.
  destruct (children s ++ [c]) as [| c0 l] eqn:Hcs;
    [by destruct (children s) |].
  rewrite <- Hcs. clear Hcs c0 l.
  do 2 eexists. split; [done |]. simpl.
  split; [done |]. split; [done |]. split; [done |]. split; [done |].
  split.
  - intros pid status Hin. rewrite child_exits_unfold. unfold wake. simpl.
    rewrite first_zombie_mark_exited; [| | done].
    + simpl. by rewrite reap_mark_exited.
    + apply Forall_app. split; [done |]. by constructor.
  - rewrite reap_app_old by done.
    unfold reap. rewrite filter_cons.
    rewrite decide_False by (rewrite Hpid; intros H; by apply H).
    by rewrite app_nil_r.
Qed.

Lemma foreground_wait_ends_with_first_exit_witness :
  ∃ s' c,
    main_body w_std "sleep 5" s_init = Continue s' ∧
    children s' = children s_init ++ [c] ∧
    c_pid c = 1 ∧ c_state c = Running ∧
    pending s' = [WAny] ∧
    (∀ pid status,
       pid ∈ c_pid <$> children s' →
       children (child_exits pid status s') = reap pid (children s') ∧
       pending (child_exits pid status s') = []) ∧
    reap 1 (children s') = children s_init.
Proof.
  apply (foreground_wait_ends_with_first_exit w_std s_init "sleep 5" "sleep").
  - constructor.
  - simpl. lia.
  - reflexivity.
  - constructor.
  - reflexivity.
  - reflexivity.
  - reflexivity.
  - reflexivity.
Defined.

(* ================================================================= *)
(** * When [fork] fails *)

(** X7. At the process limit a command without [|] creates nothing: the
    interpreter prints that forking failed and goes on as it was. *)
Theorem fork_failure_is_reported (w : World) (s : Sys) (command a0 : string) :
  w_nproc w ≤ length (children s) →
  existsb is_pipe_op (tokenize command) = false →
  tokenize command !! 0 = Some a0 → is_builtin a0 = false →
  main_body w command s =
    Continue (logged [EvFork None; EvStdout "
Failed forking child.."] s).
Proof.
  intros Hproc Hnopipe Ha0 Hnb.
  rewrite (main_body_exec w command a0 s Ha0 Hnb).
  rewrite execCmd_no_pipe, sys_fork_fails
    by (done || apply tokenize_length).
  unfold sys_printf, sys_emit, with_self, emit, logged. simpl.
  by rewrite <- app_assoc.
Qed.

Lemma fork_failure_is_reported_witness :
  main_body
    {| w_home := None; w_chdir := λ _ _, None; w_open := λ _ _, true;
       w_exec := λ _, true; w_nofile := 1024; w_nproc := 0 |}
    "ls -l > f" s_init =
    Continue (logged [EvFork None; EvStdout "
Failed forking child.."] s_init).
Proof.
  apply (fork_failure_is_reported
           {| w_home := None; w_chdir := λ _ _, None; w_open := λ _ _, true;
              w_exec := λ _, true; w_nofile := 1024; w_nproc := 0 |}
           s_init "ls -l > f" "ls").
  - simpl. lia.
  - reflexivity.
  - reflexivity.
  - reflexivity.
Defined.

(* ================================================================= *)
(** * What a line leaves alone *)

Lemma sys_chdir_fds (w : World) (path : option string) (s : Sys) :
  fds (self (sys_chdir w path s).2) = fds (self s).
Proof. unfold sys_chdir. by destruct (path ≫= w_chdir w (cwd s)). Qed.

(** X8. Without a [|] on the line the interpreter's descriptor table is
    the same after the line as before, whatever the line does and
    whether or not its [fork] succeeds. *)
Theorem no_pipe_no_descriptor_change (w : World) (s : Sys) (command : string) :
  existsb is_pipe_op (tokenize command) = false →
  fds (self (sys_of (main_body w command s))) = fds (self s).
Proof.
  intros Hnopipe. unfold main_body. rewrite !arg_args_of.
  destruct (tokenize command !! 0) as [a0 |]; [| done].
  destruct (String.eqb a0 "exit"); [done |].
  destruct (String.eqb a0 "cd").
  - destruct (tokenize command !! 1) as [a1 |]; [| done].
    destruct (String.eqb a1 "~").
    + pose proof (sys_chdir_fds w (w_home w) s) as H.
      by destruct (sys_chdir w (w_home w) s) as [[] s1].
    + pose proof (sys_chdir_fds w (Some a1) s) as H.
      by destruct (sys_chdir w (Some a1) s) as [[] s1].
  - simpl. rewrite execCmd_no_pipe by (done || apply tokenize_length).
    unfold sys_fork. destruct (bool_decide _); [| done].
    destruct (background _).
    + by rewrite sys_waitpid_nohang_self.
    + unfold sys_wait. by rewrite block_on_self.
Qed.

Lemma no_pipe_no_descriptor_change_witness :
  fds (self (sys_of (main_body w_std "cat < in > out &" s_init)))
    = fds (self s_init).
Proof.
  apply (no_pipe_no_descriptor_change w_std s_init "cat < in > out &").
  reflexivity.
Defined.

Lemma wake_cwd (s : Sys) : cwd (wake s) = cwd s.
Proof. unfold wake. by destruct (wake_loop _ _). Qed.

Lemma block_on_cwd (r : waitreq) (s : Sys) : cwd (block_on r s) = cwd s.
Proof. unfold block_on. by rewrite wake_cwd. Qed.

Lemma sys_waitpid_nohang_cwd (pid : nat) (s : Sys) :
  cwd (sys_waitpid_nohang pid s) = cwd s.
Proof.
  unfold sys_waitpid_nohang. simpl.
  destruct (find_child pid (children s)) as [c |]; [| done].
  by destruct (is_zombie c).
Qed.

Lemma sys_fork_cwd (w : World) (code : child Empty_set) (s : Sys) :
  cwd (sys_fork w code s).2 = cwd s.
Proof. unfold sys_fork. by destruct (bool_decide _). Qed.

Lemma pipeCommands_cwd (w : World) (parsed : list (option string))
    (bg out app inp : bool) (opos ipos ppos : nat) (s : Sys) :
  cwd (pipeCommands w parsed bg out app inp opos ipos ppos s) = cwd s.
Proof.
  unfold pipeCommands.
  destruct (sys_pipe_frame w s) as (_ & _ & _ & Hc).
  destruct (sys_pipe w s) as [[[r wr] |] s1]; simpl in *; [| done].
  pose proof (sys_fork_cwd w (first_child w parsed r wr inp ipos) s1) as H1.
  destruct (sys_fork w (first_child w parsed r wr inp ipos) s1)
    as [[pid1 |] s2]; simpl in *; [| congruence].
  pose proof (sys_fork_cwd w (second_child w parsed r wr out app opos ppos) s2)
    as H2.
  destruct (sys_fork w (second_child w parsed r wr out app opos ppos) s2)
    as [[pid2 |] s3]; simpl in *; [| congruence].
  destruct bg; unfold sys_waitpid; repeat (rewrite block_on_cwd; simpl);
    simpl; congruence.
Qed.

(** X9. Only [cd] changes the working directory: a line whose first token
    is not [cd] leaves it as it is. *)
Theorem only_cd_changes_directory (w : World) (s : Sys) (command : string) :
  tokenize command !! 0 ≠ Some "cd" →
  cwd (sys_of (main_body w command s)) = cwd s.
Proof.
  intros Hnocd. unfold main_body. rewrite !arg_args_of.
  destruct (tokenize command !! 0) as [a0 |]; [| done].
  destruct (String.eqb a0 "exit"); [done |].
  destruct (String.eqb_spec a0 "cd") as [-> | _]; [done |]. simpl.
  pose proof (tokenize_length command) as Hlen.
  destruct (existsb is_pipe_op (tokenize command)) eqn:Hpipe.
  - rewrite execCmd_with_pipe, pipeCommands_cwd by done.
    by destruct (scan_pipes_frame w (tokenize command) s) as (_ & _ & _ & ->).
  - rewrite execCmd_no_pipe by done.
    pose proof (sys_fork_cwd w
      (single_child w (blank (tokenize command) ++ [None])
         (classify 0 (tokenize command) flags0)) s) as Hf.
    destruct (sys_fork _ _ s) as [[pid |] s1]; simpl in *; [| done].
    destruct (background _).
    + by rewrite sys_waitpid_nohang_cwd.
    + unfold sys_wait. by rewrite block_on_cwd.
Qed.

Lemma only_cd_changes_directory_witness :
  cwd (sys_of (main_body w_std "ls | wc > n" s_init)) = cwd s_init.
Proof.
  apply (only_cd_changes_directory w_std s_init "ls | wc > n").
  discriminate.
Defined.

(* ================================================================= *)
(** * Pipelines: what the interpreter is left with *)

(** [pipeCommands] when its pipe and both forks succeed. *)
Lemma pipeCommands_ok (w : World) (parsed : list (option string))
    (bg out app inp : bool) (opos ipos ppos : nat) (s : Sys)
    (r wr : nat) (t2 : fdtable) :
  fd_alloc_pipe (next_pipe s) (fds (self s)) = (r, wr, t2) →
  wr < w_nofile w →
  length (children s) + 2 ≤ w_nproc w →
  pipeCommands w parsed bg out app inp opos ipos ppos s =
    let base :=
      {| self :=
           k_close wr (k_close r
             (emit (EvFork (Some (S (next_pid s))))
                (emit (EvFork (Some (next_pid s)))
                   (emit (EvPipe (Some (r, wr)))
                      {| fds := t2; log := log (self s) |}))));
         children :=
           (children s ++
            [spawn (next_pid s) (first_child w parsed r wr inp ipos) t2]) ++
           [spawn (S (next_pid s))
              (second_child w parsed r wr out app opos ppos) t2];
         next_pid := S (S (next_pid s));
         next_pipe := S (next_pipe s); cwd := cwd s; pending := pending s |} in
    if bg then base
    else sys_waitpid (S (next_pid s)) (sys_waitpid (next_pid s) base).
Proof.
  intros Halloc Hroom Hproc. unfold pipeCommands, sys_pipe. rewrite Halloc.
  rewrite (bool_decide_eq_true_2 _ Hroom).
  rewrite sys_fork_ok by (simpl; lia). rewrite sys_fork_ok; [done |].
  simpl. rewrite length_app. simpl. lia.
Qed.

Lemma child_exits_table (pid : nat) (status : Z) (s : Sys) :
  (pending (child_exits pid status s), children (child_exits pid status s)) =
    wake_loop (pending s) (mark_exited pid status (children s)).
Proof.
  rewrite child_exits_unfold. unfold wake. simpl.
  by destruct (wake_loop _ _).
Qed.

Lemma block_on_table (r : waitreq) (s : Sys) :
  (pending (block_on r s), children (block_on r s)) =
    wake_loop (pending s ++ [r]) (children s).
Proof. unfold block_on, wake. simpl. by destruct (wake_loop _ _). Qed.

Lemma wake_loop_pid (pid : nat) (rest : list waitreq) (cs : list Child) :
  wake_loop (WPid pid :: rest) cs =
    match find_child pid cs with
    | Some c => if is_zombie c then wake_loop rest (reap pid cs)
                else (WPid pid :: rest, cs)
    | None => wake_loop rest cs
    end.
Proof. done. Qed.

Section TwoChildren.
Context (cs : list Child) (c1 c2 : Child) (p1 p2 : nat).
Hypothesis Hp : p1 ≠ p2.
Hypothesis Hold1 : Forall (λ c, c_pid c ≠ p1) cs.
Hypothesis Hold2 : Forall (λ c, c_pid c ≠ p2) cs.
Hypothesis Hpid1 : c_pid c1 = p1.
Hypothesis Hpid2 : c_pid c2 = p2.

Lemma wake_second :
  wake_loop [WPid p2] (cs ++ [c2]) =
    if is_zombie c2 then ([], cs) else ([WPid p2], cs ++ [c2]).
Proof.
  simpl. rewrite find_child_app_old by done.
  unfold find_child. simpl. rewrite decide_True by done. simpl.
  destruct (is_zombie c2); [| done].
  rewrite reap_app_old by done. unfold reap. rewrite filter_cons.
  rewrite decide_False by (intros H; by apply H). by rewrite app_nil_r.
Qed.

Lemma wake_both :
  wake_loop [WPid p1; WPid p2] (cs ++ [c1; c2]) =
    if is_zombie c1
    then (if is_zombie c2 then ([], cs) else ([WPid p2], cs ++ [c2]))
    else ([WPid p1; WPid p2], cs ++ [c1; c2]).
Proof.
  rewrite wake_loop_pid. rewrite find_child_app_old by done.
  unfold find_child. simpl list_find. rewrite decide_True by done. simpl.
  destruct (is_zombie c1); [| done].
  rewrite reap_app_old by done. unfold reap. rewrite !filter_cons.
  rewrite decide_False by (intros H; by apply H).
  rewrite decide_True by congruence.
  change (filter (λ c, c_pid c ≠ p1) []) with (@nil Child).
  apply wake_second.
Qed.

Lemma mark_first (status : Z) :
  is_zombie c1 = false →
  mark_exited p1 status (cs ++ [c1; c2]) = cs ++ [terminate status c1; c2].
Proof.
  intros Hz. rewrite mark_exited_app_old by done. unfold mark_exited. simpl.
  rewrite bool_decide_eq_true_2, Hz by done. simpl.
  by rewrite bool_decide_eq_false_2 by congruence.
Qed.

Lemma mark_second (status : Z) :
  is_zombie c2 = false →
  mark_exited p2 status (cs ++ [c1; c2]) = cs ++ [c1; terminate status c2].
Proof.
  intros Hz. rewrite mark_exited_app_old by done. unfold mark_exited. simpl.
  rewrite bool_decide_eq_false_2 by congruence. simpl.
  by rewrite bool_decide_eq_true_2, Hz by done.
Qed.

Lemma mark_second_alone (status : Z) :
  is_zombie c2 = false →
  mark_exited p2 status (cs ++ [c2]) = cs ++ [terminate status c2].
Proof.
  intros Hz. rewrite mark_exited_app_old by done. unfold mark_exited. simpl.
  by rewrite bool_decide_eq_true_2, Hz by done.
Qed.
End TwoChildren.

(** X10. A pipeline with [&]: both children are created and left running,
    and the interpreter is not suspended. *)
Theorem background_pipeline_is_not_awaited (w : World) (s : Sys)
    (command a0 : string) :
  sys_wf s →
  length (children s) + 2 ≤ w_nproc w →
  length (fds (self s)) + 22 ≤ w_nofile w →
  existsb is_pipe_op (tokenize command) = true →
  existsb is_amp (tokenize command) = true →
  tokenize command !! 0 = Some a0 → is_builtin a0 = false →
  ∃ s' c1 c2,
    main_body w command s = Continue s' ∧
    children s' = children s ++ [c1; c2] ∧
    c_pid c1 = next_pid s ∧ c_state c1 = Running ∧
    c_pid c2 = S (next_pid s) ∧ c_state c2 = Running ∧
    pending s' = pending s.
Proof.
  intros Hwf Hproc Hroom Hpipe Hamp Ha0 Hnb.
  rewrite (main_body_exec w command a0 s Ha0 Hnb).
  pose proof (tokenize_length command) as Hlen.
  set (toks := tokenize command) in *.
  destruct (pipe_room w toks s Hlen Hroom) as (r & wr & t2 & Halloc & Hwr).
  destruct (scan_pipes_frame w toks s) as (Hch & Hnp & Hpe & _).
  rewrite execCmd_with_pipe by done.
  rewrite (pipeCommands_ok _ _ _ _ _ _ _ _ _ _ r wr t2)
    by (done || rewrite Hch; done).
  destruct (classify_flags toks 0 flags0) as (-> & _ & _ & _).
  rewrite Hamp. simpl. rewrite Hch, Hnp, Hpe.
  do 3 eexists. split; [done |]. simpl. rewrite <- app_assoc. simpl.
  split; [done |].
  split; [apply spawn_running |]. split; [apply spawn_running |].
  split; [apply spawn_running |]. split; [apply spawn_running | done].
Qed.

Lemma background_pipeline_is_not_awaited_witness :
  ∃ s' c1 c2,
    main_body w_std "ls | wc &" s_init = Continue s' ∧
    children s' = children s_init ++ [c1; c2] ∧
    c_pid c1 = 1 ∧ c_state c1 = Running ∧
    c_pid c2 = 2 ∧ c_state c2 = Running ∧
    pending s' = pending s_init.
Proof.
  apply (background_pipeline_is_not_awaited w_std s_init "ls | wc &" "ls").
  - constructor.
  - simpl. lia.
  - simpl. lia.
  - reflexivity.
  - reflexivity.
  - reflexivity.
  - reflexivity.
Defined.

(** X11. A foreground pipeline: the interpreter is suspended until both
    children have terminated, in whichever order they do, and then has
    collected both.  One of them alone does not bring the prompt
    back. *)
Theorem foreground_pipeline_awaits_both (w : World) (s : Sys)
    (command a0 : string) :
  sys_wf s →
  length (children s) + 2 ≤ w_nproc w →
  length (fds (self s)) + 22 ≤ w_nofile w →
  pending s = [] →
  existsb is_pipe_op (tokenize command) = true →
  existsb is_amp (tokenize command) = false →
  tokenize command !! 0 = Some a0 → is_builtin a0 = false →
  ∃ s' c1 c2,
    main_body w command s = Continue s' ∧
    children s' = children s ++ [c1; c2] ∧
    c_pid c1 = next_pid s ∧ c_pid c2 = S (next_pid s) ∧
    pending s' = [WPid (next_pid s); WPid (S (next_pid s))] ∧
    ∀ st1 st2,
      let p1 := next_pid s in
      let p2 := S (next_pid s) in
      at_prompt (child_exits p1 st1 s') = false ∧
      at_prompt (child_exits p2 st2 s') = false ∧
      pending (child_exits p2 st2 (child_exits p1 st1 s')) = [] ∧
      children (child_exits p2 st2 (child_exits p1 st1 s')) = children s ∧
      pending (child_exits p1 st1 (child_exits p2 st2 s')) = [] ∧
      children (child_exits p1 st1 (child_exits p2 st2 s')) = children s.
Proof.
  intros Hwf Hproc Hroom Hpend Hpipe Hamp Ha0 Hnb.
  rewrite (main_body_exec w command a0 s Ha0 Hnb).
  pose proof (tokenize_length command) as Hlen.
  set (toks := tokenize command) in *.
  destruct (pipe_room w toks s Hlen Hroom) as (r & wr & t2 & Halloc & Hwr).
  destruct (scan_pipes_frame w toks s) as (Hch & Hnp & Hpe & _).
  rewrite execCmd_with_pipe by done.
  rewrite (pipeCommands_ok _ _ _ _ _ _ _ _ _ _ r wr t2)
    by (done || rewrite Hch; done).
  destruct (classify_flags toks 0 flags0) as (-> & _ & _ & _).
  rewrite Hamp. cbn zeta. cbn [orb background flags0].
  rewrite Hch, Hnp, Hpe, Hpend.
  set (p1 := next_pid s). set (p2 := S p1).
  set (c1 := spawn p1 _ t2). set (c2 := spawn p2 _ t2).
  assert (Hc1 : c_pid c1 = p1 ∧ c_state c1 = Running) by apply spawn_running.
  assert (Hc2 : c_pid c2 = p2 ∧ c_state c2 = Running) by apply spawn_running.
  destruct Hc1 as [Hpid1 Hrun1]. destruct Hc2 as [Hpid2 Hrun2].
  assert (Hz1 : is_zombie c1 = false) by (unfold is_zombie; by rewrite Hrun1).
  assert (Hz2 : is_zombie c2 = false) by (unfold is_zombie; by rewrite Hrun2).
  pose proof (wf_pids_differ s 0 Hwf) as Hold1.
  rewrite Nat.add_0_r in Hold1. fold p1 in Hold1.
  pose proof (wf_pids_differ s 1 Hwf) as Hold2.
  replace (next_pid s + 1) with p2 in Hold2 by (unfold p2, p1; lia).
  assert (Hp : p1 ≠ p2) by (unfold p2; lia).
  set (base := {| self := _; children := (children s ++ [c1]) ++ [c2];
                  next_pid := _; next_pipe := _; cwd := _; pending := [] |}).
  set (s1 := sys_waitpid p1 base).
  assert (Hs1 : (pending s1, children s1)
                = ([WPid p1], children s ++ [c1; c2])).
  { unfold s1, sys_waitpid. rewrite block_on_table. simpl.
    rewrite <- app_assoc. simpl.
    rewrite find_child_app_old by done. unfold find_child. simpl.
    rewrite decide_True by done. simpl. by rewrite Hz1. }
  injection Hs1 as Hs1p Hs1c.
  set (s' := sys_waitpid p2 s1).
  assert (Hs' : (pending s', children s')
                = ([WPid p1; WPid p2], children s ++ [c1; c2])).
  { unfold s', sys_waitpid. rewrite block_on_table. simpl.
    rewrite Hs1p, Hs1c. simpl app.
    rewrite (wake_both (children s) c1 c2 p1 p2) by done. by rewrite Hz1. }
  injection Hs' as Hs'p Hs'c.
  exists s', c1, c2. split; [done |]. split; [done |].
  split; [done |]. split; [done |]. split; [done |].
  intros st1 st2. cbn zeta.
  set (a := child_exits p1 st1 s'). set (b := child_exits p2 st2 s').
  assert (Ha : (pending a, children a) = ([WPid p2], children s ++ [c2])).
  { unfold a. rewrite child_exits_table, Hs'p, Hs'c.
    rewrite (mark_first _ c1 c2 p1 p2) by done.
    by rewrite (wake_both (children s) _ c2 p1 p2), is_zombie_terminate, Hz2
      by done. }
  assert (Hb : (pending b, children b)
               = ([WPid p1; WPid p2],
                  children s ++ [c1; terminate st2 c2])).
  { unfold b. rewrite child_exits_table, Hs'p, Hs'c.
    rewrite (mark_second _ c1 c2 p1 p2) by done.
    by rewrite (wake_both (children s) c1 _ p1 p2), Hz1 by done. }
  injection Ha as Hap Hac. injection Hb as Hbp Hbc.
  assert (Hab : (pending (child_exits p2 st2 a), children (child_exits p2 st2 a))
                = ([], children s)).
  { rewrite child_exits_table, Hap, Hac.
    rewrite (mark_second_alone _ c2 p2) by done.
    by rewrite (wake_second (children s) _ p2), is_zombie_terminate. }
  assert (Hba : (pending (child_exits p1 st1 b), children (child_exits p1 st1 b))
                = ([], children s)).
  { rewrite child_exits_table, Hbp, Hbc.
    rewrite (mark_first _ c1 _ p1 p2) by done.
    by rewrite (wake_both (children s) _ _ p1 p2), !is_zombie_terminate. }
  injection Hab as Habp Habc. injection Hba as Hbap Hbac.
  unfold at_prompt. rewrite Hap, Hbp. done.
Qed.

Lemma foreground_pipeline_awaits_both_witness :
  ∃ s' c1 c2,
    main_body w_std "ls | wc" s_init = Continue s' ∧
    children s' = children s_init ++ [c1; c2] ∧
    c_pid c1 = 1 ∧ c_pid c2 = 2 ∧
    pending s' = [WPid 1; WPid 2] ∧
    ∀ st1 st2,
      at_prompt (child_exits 1 st1 s') = false ∧
      at_prompt (child_exits 2 st2 s') = false ∧
      pending (child_exits 2 st2 (child_exits 1 st1 s')) = [] ∧
      children (child_exits 2 st2 (child_exits 1 st1 s')) = children s_init ∧
      pending (child_exits 1 st1 (child_exits 2 st2 s')) = [] ∧
      children (child_exits 1 st1 (child_exits 2 st2 s')) = children s_init.
Proof.
  apply (foreground_pipeline_awaits_both w_std s_init "ls | wc" "ls").
  - constructor.
  - simpl. lia.
  - simpl. lia.
  - reflexivity.
  - reflexivity.
  - reflexivity.
  - reflexivity.
  - reflexivity.
Defined.

(* ================================================================= *)
(** * Pipelines: when [pipe] or [fork] fails *)

Lemma fd_full_lowest (w : World) (t : fdtable) :
  fd_full w t → w_nofile w ≤ fd_lowest_free t.
Proof.
  intros Hfull. destruct (decide (fd_lowest_free t < w_nofile w)) as [Hlt |];
    [| lia].
  destruct (Hfull _ Hlt) as [o Ho]. by rewrite fd_get_lowest_free in Ho.
Qed.

Lemma sys_pipe_full (w : World) (s : Sys) :
  fd_full w (fds (self s)) →
  sys_pipe w s = (None, sys_emit (EvPipe None) s).
Proof.
  intros Hfull. unfold sys_pipe, fd_alloc_pipe.
  pose proof (fd_full_lowest w _ Hfull) as Hr.
  set (r := fd_lowest_free (fds (self s))) in *.
  set (t1 := fd_put (fds (self s)) r (PipeObj (next_pipe s) ReadEnd)).
  assert (Hfull1 : fd_full w t1).
  { intros k Hk. unfold t1. rewrite fd_get_put_ne by lia. by apply Hfull. }
  pose proof (fd_full_lowest w _ Hfull1) as Hwr.
  by rewrite bool_decide_eq_false_2 by lia.
Qed.

Lemma scan_pipes_full (w : World) (toks : list string) :
  ∀ s, fd_full w (fds (self s)) →
       fds (self (scan_pipes w toks s)) = fds (self s).
Proof.
  induction toks as [| t r IH]; intros s Hfull; simpl; [done |].
  destruct (String.eqb t "|"); [| by apply IH].
  rewrite sys_pipe_full by done. simpl. by rewrite IH.
Qed.

(** X12. With no descriptor left, a line with [|] creates no process: the
    interpreter reports that the pipe could not be created and goes
    on with the table and the children it had. *)
Theorem pipe_failure_abandons_pipeline (w : World) (s : Sys)
    (command a0 : string) :
  fd_full w (fds (self s)) →
  existsb is_pipe_op (tokenize command) = true →
  tokenize command !! 0 = Some a0 → is_builtin a0 = false →
  ∃ s',
    main_body w command s = Continue s' ∧
    children s' = children s ∧
    pending s' = pending s ∧
    fds (self s') = fds (self s) ∧
    reports_of (log (self s')) =
      reports_of (log (self s)) ++ ["Pipe creation failed"].
Proof.
  intros Hfull Hpipe Ha0 Hnb.
  rewrite (main_body_exec w command a0 s Ha0 Hnb).
  pose proof (tokenize_length command) as Hlen.
  set (toks := tokenize command) in *.
  rewrite execCmd_with_pipe by done.
  destruct (scan_pipes_frame w toks s) as (Hch & _ & Hpe & _).
  pose proof (scan_pipes_full w toks s Hfull) as Hfds.
  pose proof (scan_pipes_reports w toks s) as Hrep.
  set (s1 := scan_pipes w toks s) in *.
  unfold pipeCommands. rewrite sys_pipe_full by (by rewrite Hfds).
  eexists. split; [done |]. simpl.
  split; [done |]. split; [done |]. split; [done |].
  rewrite !reports_of_app. simpl. by rewrite app_nil_r, Hrep.
Qed.

Lemma pipe_failure_abandons_pipeline_witness :
  ∃ s',
    main_body
      {| w_home := None; w_chdir := λ _ _, None; w_open := λ _ _, true;
         w_exec := λ _, true; w_nofile := 3; w_nproc := 64 |}
      "ls | wc" s_init = Continue s' ∧
    children s' = children s_init ∧
    pending s' = pending s_init ∧
    fds (self s') = fds (self s_init) ∧
    reports_of (log (self s')) =
      reports_of (log (self s_init)) ++ ["Pipe creation failed"].
Proof.
  apply (pipe_failure_abandons_pipeline
           {| w_home := None; w_chdir := λ _ _, None; w_open := λ _ _, true;
              w_exec := λ _, true; w_nofile := 3; w_nproc := 64 |}
           s_init "ls | wc" "ls").
  - intros k Hk. simpl in Hk.
    destruct k as [| [| [| k]]]; [by eexists | by eexists | by eexists | lia].
  - reflexivity.
  - reflexivity.
  - reflexivity.
Defined.

Lemma scan_pipes_one (w : World) (pre post : list string) (s : Sys) :
  existsb is_pipe_op pre = false → existsb is_pipe_op post = false →
  scan_pipes w (pre ++ "|" :: post) s = (sys_pipe w s).2.
Proof.
  intros Hpre Hpost. revert s.
  induction pre as [| t l IHl]; intros s; simpl in *.
  - by rewrite scan_pipes_none.
  - apply orb_false_elim in Hpre as [Ht Hl]. unfold is_pipe_op in Ht.
    rewrite Ht. by apply IHl.
Qed.

(** After the scan of a line with one [|], given room: two more open
    descriptors, and room left for the pipe of [pipeCommands]. *)
Lemma scan_one_pipe_count (w : World) (pre post : list string) (s : Sys) :
  length (fds (self s)) + 22 ≤ w_nofile w →
  existsb is_pipe_op pre = false → existsb is_pipe_op post = false →
  open_count (fds (self (scan_pipes w (pre ++ "|" :: post) s)))
    = open_count (fds (self s)) + 2.
Proof.
  intros Hroom Hpre Hpost. rewrite scan_pipes_one by done.
  unfold sys_pipe.
  destruct (fd_alloc_pipe (next_pipe s) (fds (self s)))
    as [[r0 w0] t0] eqn:Halloc0.
  pose proof (fd_alloc_pipe_spec _ _ _ _ _ Halloc0)
    as (_ & _ & _ & _ & Hw0 & _).
  rewrite bool_decide_eq_true_2 by lia. simpl.
  by apply fd_alloc_pipe_count in Halloc0.
Qed.

(** X13. A line with one [|] at the process limit: [pipeCommands] has
    already created its pipe when the first [fork] fails.  It reports
    the failure and returns; no child exists, and the interpreter keeps
    four more descriptors open than before, the pipe of the scan and
    the pipe of [pipeCommands]. *)
Theorem first_fork_failure_leaves_pipe_open (w : World) (s : Sys)
    (command a0 : string) (pre post : list string) :
  w_nproc w ≤ length (children s) →
  length (fds (self s)) + 22 ≤ w_nofile w →
  tokenize command = pre ++ "|" :: post →
  existsb is_pipe_op (pre ++ post) = false →
  tokenize command !! 0 = Some a0 → is_builtin a0 = false →
  ∃ s',
    main_body w command s = Continue s' ∧
    children s' = children s ∧
    pending s' = pending s ∧
    reports_of (log (self s')) = reports_of (log (self s)) ++ ["Fork failed"] ∧
    open_count (fds (self s')) = open_count (fds (self s)) + 4.
Proof.
  intros Hproc Hroom Htoks Hone Ha0 Hnb.
  rewrite (main_body_exec w command a0 s Ha0 Hnb).
  pose proof (tokenize_length command) as Hlen.
  rewrite existsb_app in Hone. apply orb_false_elim in Hone as [Hpre Hpost].
  assert (Hpipe : existsb is_pipe_op (tokenize command) = true).
  { rewrite Htoks, existsb_app. simpl. by rewrite orb_true_r. }
  pose proof (scan_one_pipe_count w pre post s Hroom Hpre Hpost) as Hcount.
  rewrite <- Htoks in Hcount.
  set (toks := tokenize command) in *.
  destruct (pipe_room w toks s Hlen Hroom) as (r & wr & t2 & Halloc & Hwr).
  destruct (scan_pipes_frame w toks s) as (Hch & _ & Hpe & _).
  pose proof (scan_pipes_reports w toks s) as Hrep.
  pose proof (fd_alloc_pipe_count _ _ _ _ _ Halloc) as Hc2.
  rewrite execCmd_with_pipe by done.
  set (s1 := scan_pipes w toks s) in *.
  unfold pipeCommands, sys_pipe. rewrite Halloc.
  rewrite (bool_decide_eq_true_2 _ Hwr).
  rewrite sys_fork_fails by (simpl; by rewrite Hch).
  eexists. split; [done |]. simpl.
  split; [done |]. split; [done |]. split; [| lia].
  rewrite !reports_of_app. simpl. by rewrite !app_nil_r, Hrep.
Qed.

Lemma first_fork_failure_leaves_pipe_open_witness :
  ∃ s',
    main_body
      {| w_home := None; w_chdir := λ _ _, None; w_open := λ _ _, true;
         w_exec := λ _, true; w_nofile := 1024; w_nproc := 0 |}
      "ls | wc" s_init = Continue s' ∧
    children s' = children s_init ∧
    pending s' = pending s_init ∧
    reports_of (log (self s')) =
      reports_of (log (self s_init)) ++ ["Fork failed"] ∧
    open_count (fds (self s')) = open_count (fds (self s_init)) + 4.
Proof.
  apply (first_fork_failure_leaves_pipe_open
           {| w_home := None; w_chdir := λ _ _, None; w_open := λ _ _, true;
              w_exec := λ _, true; w_nofile := 1024; w_nproc := 0 |}
           s_init "ls | wc" "ls" ["ls"] ["wc"]).
  - simpl. lia.
  - simpl. lia.
  - reflexivity.
  - reflexivity.
  - reflexivity.
  - reflexivity.
Defined.

(** X14. The same with room for one more process only: the first child is
    created and left running with its output on the pipe, the second
    [fork] fails and is reported, and [pipeCommands] returns without
    closing the pipe and without waiting for the first child. *)
Theorem second_fork_failure_leaves_first_child (w : World) (s : Sys)
    (command a0 : string) (pre post : list string) :
  S (length (children s)) = w_nproc w →
  length (fds (self s)) + 22 ≤ w_nofile w →
  tokenize command = pre ++ "|" :: post →
  existsb is_pipe_op (pre ++ post) = false →
  tokenize command !! 0 = Some a0 → is_builtin a0 = false →
  ∃ s' c1,
    main_body w command s = Continue s' ∧
    children s' = children s ++ [c1] ∧
    c_pid c1 = next_pid s ∧ c_state c1 = Running ∧
    runs_argv c1 (until_operator pre) ∧
    pending s' = pending s ∧
    reports_of (log (self s')) =
      reports_of (log (self s)) ++ ["Second fork failed"] ∧
    open_count (fds (self s')) = open_count (fds (self s)) + 4.
Proof.
  intros Hproc Hroom Htoks Hone Ha0 Hnb.
  rewrite (main_body_exec w command a0 s Ha0 Hnb).
  pose proof (tokenize_length command) as Hlen.
  rewrite existsb_app in Hone. apply orb_false_elim in Hone as [Hpre Hpost].
  assert (Hpipe : existsb is_pipe_op (tokenize command) = true).
  { rewrite Htoks, existsb_app. simpl. by rewrite orb_true_r. }
  pose proof (scan_one_pipe_count w pre post s Hroom Hpre Hpost) as Hcount.
  assert (Hargv : until_operator pre = until_operator (tokenize command))
    by (by rewrite Htoks, until_operator_app_operator).
  rewrite <- Htoks in Hcount.
  set (toks := tokenize command) in *.
  destruct (pipe_room w toks s Hlen Hroom) as (r & wr & t2 & Halloc & Hwr).
  destruct (scan_pipes_frame w toks s) as (Hch & Hnp & Hpe & _).
  pose proof (scan_pipes_reports w toks s) as Hrep.
  pose proof (fd_alloc_pipe_count _ _ _ _ _ Halloc) as Hc2.
  rewrite execCmd_with_pipe by done.
  set (s1 := scan_pipes w toks s) in *.
  unfold pipeCommands, sys_pipe. rewrite Halloc.
  rewrite (bool_decide_eq_true_2 _ Hwr).
  rewrite sys_fork_ok by (simpl; rewrite Hch; lia).
  rewrite sys_fork_fails
    by (simpl; rewrite length_app, Hch; simpl; lia).
  do 2 eexists. split; [done |]. simpl. rewrite Hch, Hnp.
  split; [done |].
  split; [apply spawn_running |]. split; [apply spawn_running |].
  split; [rewrite Hargv, <- c_argv_blank; apply first_child_runs_argv |].
  split; [done |]. split; [| lia].
  rewrite !reports_of_app. simpl. by rewrite !app_nil_r, Hrep.
Qed.

Lemma second_fork_failure_leaves_first_child_witness :
  ∃ s' c1,
    main_body
      {| w_home := None; w_chdir := λ _ _, None; w_open := λ _ _, true;
         w_exec := λ _, true; w_nofile := 1024; w_nproc := 1 |}
      "ls | wc" s_init = Continue s' ∧
    children s' = children s_init ++ [c1] ∧
    c_pid c1 = 1 ∧ c_state c1 = Running ∧
    runs_argv c1 ["ls"] ∧
    pending s' = pending s_init ∧
    reports_of (log (self s')) =
      reports_of (log (self s_init)) ++ ["Second fork failed"] ∧
    open_count (fds (self s')) = open_count (fds (self s_init)) + 4.
Proof.
  apply (second_fork_failure_leaves_first_child
           {| w_home := None; w_chdir := λ _ _, None; w_open := λ _ _, true;
              w_exec := λ _, true; w_nofile := 1024; w_nproc := 1 |}
           s_init "ls | wc" "ls" ["ls"] ["wc"]).
  - reflexivity.
  - simpl. lia.
  - reflexivity.
  - reflexivity.
  - reflexivity.
  - reflexivity.
Defined.

(* ================================================================= *)
(** * The two redirection functions *)

Lemma k_open_ok (w : World) (f : string) (flags : list oflag)
    (mode : option N) (p : Proc) :
  w_open w f flags = true →
  fd_lowest_free (fds p) < w_nofile w →
  k_open w (Some f) flags mode p =
    (Some (fd_lowest_free (fds p)),
     emit (EvOpen (Some f) flags mode (Some (fd_lowest_free (fds p))))
       {| fds := fd_put (fds p) (fd_lowest_free (fds p)) (FileObj f flags);
          log := log p |}).
Proof.
  intros Hopen Hroom. unfold k_open.
  by rewrite Hopen, bool_decide_eq_true_2.
Qed.

Lemma k_open_refused (w : World) (path : option string) (flags : list oflag)
    (mode : option N) (p : Proc) :
  open_refused w path flags (fds p) →
  k_open w path flags mode p = (None, emit (EvOpen path flags mode None) p).
Proof.
  unfold open_refused, k_open. destruct path as [f |]; [| done].
  intros [-> | Hfull]; [done |].
  rewrite bool_decide_eq_false_2 by lia. by rewrite andb_false_r.
Qed.

(** The table a successful redirection of stream [std] leaves: the
    stream is the file, and every other descriptor is as before (the
    descriptor [open] returned has been closed again). *)
Lemma redirected_table (t : fdtable) (std : nat) (o0 o : fobj) :
  fd_get t std = Some o0 →
  let fd := fd_lowest_free t in
  let t' := fd_close (fd_put (fd_put t fd o) std o) fd in
  fd_get t' std = Some o ∧ ∀ k, k ≠ std → fd_get t' k = fd_get t k.
Proof.
  intros Hstd fd t'.
  assert (Hne : fd ≠ std) by (by eapply fd_lowest_free_ne).
  split.
  - unfold t'. rewrite fd_get_close_ne by done. apply fd_get_put_eq.
  - intros k Hk. unfold t'. destruct (decide (k = fd)) as [-> | Hkfd].
    + rewrite fd_get_close_eq. unfold fd. by rewrite fd_get_lowest_free.
    + rewrite fd_get_close_ne by done. by rewrite !fd_get_put_ne by done.
Qed.

(** X15. [inputRedirection] when the file can be opened and standard input
    is open: it returns with standard input bound to the file, opened
    read-only, and with every other descriptor as it was. *)
Theorem inputRedirection_binds_stdin (w : World) (cmd : list (option string))
    (pos : nat) (p : Proc) (f : string) (o0 : fobj) :
  arg cmd (pos + 1) = Some f →
  w_open w f [O_RDONLY] = true →
  fd_lowest_free (fds p) < w_nofile w →
  fd_get (fds p) STDIN_FILENO = Some o0 →
  ∃ p',
    inputRedirection w cmd pos p = (inr (), p') ∧
    fd_get (fds p') STDIN_FILENO = Some (FileObj f [O_RDONLY]) ∧
    (∀ k, k ≠ STDIN_FILENO → fd_get (fds p') k = fd_get (fds p) k) ∧
    log p' = log p ++
      [EvOpen (Some f) [O_RDONLY] None (Some (fd_lowest_free (fds p)));
       EvDup2 (fd_lowest_free (fds p)) STDIN_FILENO;
       EvClose (fd_lowest_free (fds p))].
Proof.
  intros Harg Hopen Hroom Hstd.
  unfold inputRedirection, mbind, child_bind, c_open.
  rewrite Harg, k_open_ok by done.
  rewrite (proj2 (Z.ltb_ge (Z.of_nat _) 0)) by lia.
  unfold c_dup2, c_close, c_do. rewrite Nat2Z.id.
  eexists. split; [done |].
  rewrite fds_k_close, fds_k_dup2, log_k_close, log_k_dup2. simpl.
  rewrite fd_get_put_eq.
  destruct (redirected_table (fds p) STDIN_FILENO o0 (FileObj f [O_RDONLY])
              Hstd) as [H0 Hk].
  split; [exact H0 |]. split; [exact Hk |].
  by rewrite <- !app_assoc.
Qed.

Lemma inputRedirection_binds_stdin_witness :
  ∃ p',
    inputRedirection w_std [Some "cat"; None; Some "in"; None] 1
      {| fds := [Some Tty; Some Tty; Some Tty]; log := [] |} = (inr (), p') ∧
    fd_get (fds p') STDIN_FILENO = Some (FileObj "in" [O_RDONLY]) ∧
    (∀ k, k ≠ STDIN_FILENO →
          fd_get (fds p') k = fd_get [Some Tty; Some Tty; Some Tty] k) ∧
    log p' = [] ++
      [EvOpen (Some "in") [O_RDONLY] None (Some 3);
       EvDup2 3 STDIN_FILENO; EvClose 3].
Proof.
  apply (inputRedirection_binds_stdin w_std
           [Some "cat"; None; Some "in"; None] 1
           {| fds := [Some Tty; Some Tty; Some Tty]; log := [] |} "in" Tty).
  - reflexivity.
  - reflexivity.
  - simpl. lia.
  - reflexivity.
Defined.

(** X16. [outputRedirection] when the file can be opened and standard
    output is open: it returns with standard output bound to the file,
    opened write-only with [O_CREAT] and mode 0777, appending or
    truncating as [append] says, and every other descriptor as it
    was. *)
Theorem outputRedirection_binds_stdout (w : World)
    (cmd : list (option string)) (pos : nat) (app : bool) (p : Proc)
    (f : string) (o1 : fobj) :
  arg cmd (pos + 1) = Some f →
  w_open w f (out_flags app) = true →
  fd_lowest_free (fds p) < w_nofile w →
  fd_get (fds p) STDOUT_FILENO = Some o1 →
  ∃ p',
    outputRedirection w cmd pos app p = (inr (), p') ∧
    fd_get (fds p') STDOUT_FILENO = Some (FileObj f (out_flags app)) ∧
    (∀ k, k ≠ STDOUT_FILENO → fd_get (fds p') k = fd_get (fds p) k) ∧
    log p' = log p ++
      [EvOpen (Some f) (out_flags app) (Some mode_0777)
         (Some (fd_lowest_free (fds p)));
       EvDup2 (fd_lowest_free (fds p)) STDOUT_FILENO;
       EvClose (fd_lowest_free (fds p))].
Proof.
  intros Harg Hopen Hroom Hstd.
  assert (Hrun : outputRedirection w cmd pos app p =
    (inr (), k_close (fd_lowest_free (fds p))
               (k_dup2 (fd_lowest_free (fds p)) STDOUT_FILENO
                  (k_open w (Some f) (out_flags app) (Some mode_0777) p).2))).
  { unfold outputRedirection, mbind, child_bind, c_open, out_flags in *.
    rewrite Harg.
    destruct app; rewrite k_open_ok by done;
      rewrite (proj2 (Z.ltb_ge (Z.of_nat _) 0)) by lia;
      unfold c_dup2, c_close, c_do; by rewrite Nat2Z.id. }
  rewrite Hrun, k_open_ok by done.
  eexists. split; [done |].
  rewrite fds_k_close, fds_k_dup2, log_k_close, log_k_dup2. simpl.
  rewrite fd_get_put_eq.
  destruct (redirected_table (fds p) STDOUT_FILENO o1
              (FileObj f (out_flags app)) Hstd) as [H1 Hk].
  split; [exact H1 |]. split; [exact Hk |].
  by rewrite <- !app_assoc.
Qed.

Lemma outputRedirection_binds_stdout_witness :
  ∃ p',
    outputRedirection w_std [Some "ls"; None; Some "out"; None] 1 true
      {| fds := [Some Tty; Some Tty; Some Tty]; log := [] |} = (inr (), p') ∧
    fd_get (fds p') STDOUT_FILENO = Some (FileObj "out" (out_flags true)) ∧
    (∀ k, k ≠ STDOUT_FILENO →
          fd_get (fds p') k = fd_get [Some Tty; Some Tty; Some Tty] k) ∧
    log p' = [] ++
      [EvOpen (Some "out") (out_flags true) (Some mode_0777) (Some 3);
       EvDup2 3 STDOUT_FILENO; EvClose 3].
Proof.
  apply (outputRedirection_binds_stdout w_std
           [Some "ls"; None; Some "out"; None] 1 true
           {| fds := [Some Tty; Some Tty; Some Tty]; log := [] |} "out" Tty).
  - reflexivity.
  - reflexivity.
  - simpl. lia.
  - reflexivity.
Defined.

(** X17. Either redirection, when the file cannot be opened: the child
    reports [Error opening file] and exits with status 1; its
    descriptors are untouched and no program is started. *)
Theorem redirection_failure_exits (w : World) (cmd : list (option string))
    (pos : nat) (app : bool) (p : Proc) :
  (open_refused w (arg cmd (pos + 1)) [O_RDONLY] (fds p) →
   inputRedirection w cmd pos p =
     (inl (Exits 1),
      {| fds := fds p;
         log := log p ++ [EvOpen (arg cmd (pos + 1)) [O_RDONLY] None None;
                          EvPerror "Error opening file"] |})) ∧
  (open_refused w (arg cmd (pos + 1)) (out_flags app) (fds p) →
   outputRedirection w cmd pos app p =
     (inl (Exits 1),
      {| fds := fds p;
         log := log p ++ [EvOpen (arg cmd (pos + 1)) (out_flags app)
                            (Some mode_0777) None;
                          EvPerror "Error opening file"] |})).
Proof.
  split; intros Href.
  - unfold inputRedirection, mbind, child_bind, c_open.
    rewrite k_open_refused by done. simpl.
    unfold c_perror, c_do, c_exit, emit. simpl. by rewrite <- app_assoc.
  - unfold outputRedirection, mbind, child_bind, c_open, out_flags in *.
    destruct app; rewrite k_open_refused by done; simpl;
      unfold c_perror, c_do, c_exit, emit; simpl; by rewrite <- app_assoc.
Qed.

Lemma redirection_failure_exits_witness :
  inputRedirection w_std [Some "cat"; None; None] 1
    {| fds := [Some Tty; Some Tty; Some Tty]; log := [] |} =
    (inl (Exits 1),
     {| fds := [Some Tty; Some Tty; Some Tty];
        log := [] ++ [EvOpen None [O_RDONLY] None None;
                      EvPerror "Error opening file"] |}) ∧
  outputRedirection w_std [Some "ls"; None; None] 1 false
    {| fds := [Some Tty; Some Tty; Some Tty]; log := [] |} =
    (inl (Exits 1),
     {| fds := [Some Tty; Some Tty; Some Tty];
        log := [] ++ [EvOpen None (out_flags false) (Some mode_0777) None;
                      EvPerror "Error opening file"] |}).
Proof.
  destruct (redirection_failure_exits w_std [Some "cat"; None; None] 1 false
              {| fds := [Some Tty; Some Tty; Some Tty]; log := [] |})
    as [Hin _].
  destruct (redirection_failure_exits w_std [Some "ls"; None; None] 1 false
              {| fds := [Some Tty; Some Tty; Some Tty]; log := [] |})
    as [_ Hout].
  split; [apply Hin | apply Hout]; exact I.
Defined.

(** X18. When standard output is closed in the child (and standard input
    is open), [open] hands out descriptor 1 itself; [dup2] then has
    nothing to do and the final [close] closes the file again.  The
    redirection returns without error and leaves the child with
    standard output closed. *)
Theorem outputRedirection_loses_closed_stdout (w : World)
    (cmd : list (option string)) (pos : nat) (app : bool) (p : Proc)
    (f : string) (o0 : fobj) :
  arg cmd (pos + 1) = Some f →
  w_open w f (out_flags app) = true →
  1 < w_nofile w →
  fd_get (fds p) STDIN_FILENO = Some o0 →
  fd_get (fds p) STDOUT_FILENO = None →
  ∃ p',
    outputRedirection w cmd pos app p = (inr (), p') ∧
    fd_get (fds p') STDOUT_FILENO = None ∧
    opens_of (log p') = opens_of (log p) ++
      [(Some f, out_flags app, Some mode_0777)].
Proof.
  intros Harg Hopen Hroom Hin Hout.
  assert (Hfree : fd_lowest_free (fds p) = 1).
  { unfold fd_get in Hin, Hout.
    destruct (fds p) as [| [x |] [| [y |] t]]; simpl in *; done. }
  assert (Hrun : outputRedirection w cmd pos app p =
    (inr (), k_close 1
               (k_dup2 1 STDOUT_FILENO
                  (k_open w (Some f) (out_flags app) (Some mode_0777) p).2))).
  { unfold outputRedirection, mbind, child_bind, c_open, out_flags in *.
    rewrite Harg.
    destruct app; rewrite k_open_ok by (done || lia);
      rewrite (proj2 (Z.ltb_ge (Z.of_nat _) 0)) by lia;
      unfold c_dup2, c_close, c_do; by rewrite Nat2Z.id, Hfree. }
  rewrite Hrun, k_open_ok by (done || lia).
  eexists. split; [done |].
  rewrite fds_k_close, log_k_close, log_k_dup2. simpl.
  split; [apply fd_get_close_eq |].
  rewrite !opens_of_app. simpl. by rewrite !app_nil_r.
Qed.

Lemma outputRedirection_loses_closed_stdout_witness :
  ∃ p',
    outputRedirection w_std [Some "ls"; None; Some "out"; None] 1 false
      {| fds := [Some Tty; None; Some Tty]; log := [] |} = (inr (), p') ∧
    fd_get (fds p') STDOUT_FILENO = None ∧
    opens_of (log p') = opens_of [] ++
      [(Some "out", out_flags false, Some mode_0777)].
Proof.
  apply (outputRedirection_loses_closed_stdout w_std
           [Some "ls"; None; Some "out"; None] 1 false
           {| fds := [Some Tty; None; Some Tty]; log := [] |} "out" Tty).
  - reflexivity.
  - reflexivity.
  - simpl. lia.
  - reflexivity.
  - reflexivity.
Defined.

(* ================================================================= *)
(** * Several redirections on one line *)

Lemma is_output_op_split (t : string) :
  is_output_op t = is_truncate_op t || is_append_op t.
Proof. done. Qed.

(** The position the scan keeps is that of the last output
    operator. *)
Lemma classify_last_output (pre post : list string) (op : string) :
  is_output_op op = true →
  forallb (λ t, negb (is_output_op t)) post = true →
  output_file_pos (classify 0 (pre ++ op :: post) flags0) = length pre.
Proof.
  intros Hop Hpost. rewrite classify_app. simpl.
  destruct (classify_no_output post (S (length pre))
              (classify_step (length pre) op (classify 0 pre flags0)) Hpost)
    as (_ & _ & ->).
  by destruct (is_output_op_cases op Hop) as [-> | ->].
Qed.

Lemma classify_step_no_input (i : nat) (t : string) (f : Flags) :
  is_input_op t = false →
  input_file_pos (classify_step i t f) = input_file_pos f.
Proof.
  intros Hno.
  destruct (operator_cases t) as [-> | [-> | [-> | [-> | [-> | Hord]]]]];
    try done.
  by rewrite classify_step_ordinary.
Qed.

Lemma classify_no_input (toks : list string) :
  ∀ (i : nat) (f : Flags),
    existsb is_input_op toks = false →
    input_file_pos (classify i toks f) = input_file_pos f.
Proof.
  induction toks as [| t r IH]; intros i f Hno; simpl in *; [done |].
  apply orb_false_elim in Hno as [Ht Hr].
  rewrite IH by done. by apply classify_step_no_input.
Qed.

Lemma classify_last_input (pre post : list string) :
  existsb is_input_op post = false →
  input_file_pos (classify 0 (pre ++ "<" :: post) flags0) = length pre.
Proof.
  intros Hpost. rewrite classify_app. simpl.
  by rewrite classify_no_input.
Qed.

Lemma arg_blank_after (pre post : list string) (op path : string) :
  is_operator path = false →
  arg (blank (pre ++ op :: path :: post) ++ [None]) (length pre + 1)
    = Some path.
Proof.
  intros Hpath. rewrite arg_blank.
  replace (pre ++ op :: path :: post) with ((pre ++ [op]) ++ path :: post)
    by (by rewrite <- app_assoc).
  rewrite list_lookup_middle by (rewrite length_app; simpl; lia).
  simpl. by rewrite Hpath.
Qed.

(** ** The files a child opens *)

Lemma first_child_opens_exact (w : World) (parsed : list (option string))
    (pid : nat) (t : fdtable) (r wr : nat) (inp : bool) (ipos : nat) :
  opens_of (log (c_proc (spawn pid (first_child w parsed r wr inp ipos) t))) =
    if inp then [(arg parsed (ipos + 1), [O_RDONLY], None)] else [].
Proof.
  apply (spawn_wp (λ _ p, opens_of (log p) =
    if inp then [(arg parsed (ipos + 1), [O_RDONLY], None)] else [])).
  unfold first_child. wp_run; log_simpl; by subst.
Qed.

Lemma second_child_opens_exact (w : World) (parsed : list (option string))
    (pid : nat) (t : fdtable) (r wr : nat) (out app : bool)
    (opos ppos : nat) :
  opens_of (log (c_proc
    (spawn pid (second_child w parsed r wr out app opos ppos) t))) =
    if out || app
    then [(arg parsed (opos + 1), out_flags app, Some mode_0777)]
    else [].
Proof.
  apply (spawn_wp (λ _ p, opens_of (log p) =
    if out || app
    then [(arg parsed (opos + 1), out_flags app, Some mode_0777)]
    else [])).
  unfold second_child. wp_run; log_simpl;
    match goal with H : _ || _ = _ |- _ => by rewrite H end.
Qed.

Lemma single_child_one_write_open (w : World) (parsed : list (option string))
    (pid : nat) (t : fdtable) (f : Flags) :
  output_redirection f || append f = true →
  length (filter (λ x, x.2 = Some mode_0777)
            (opens_of (log (c_proc (spawn pid (single_child w parsed f) t)))))
    = 1.
Proof.
  intros Hany.
  apply (spawn_wp (λ _ p,
    length (filter (λ x, x.2 = Some mode_0777) (opens_of (log p))) = 1)).
  unfold single_child. wp_run; log_simpl; try congruence; done.
Qed.

(** X19. With several output operators on a line only the token behind the
    last one is opened, and it is opened for appending as soon as a
    [>>] stands anywhere on the line, also when the last operator is
    a [>]. *)
Theorem last_output_operator_wins (w : World) (s : Sys)
    (command a0 op path : string) (pre post : list string) :
  sys_wf s →
  length (children s) + 2 ≤ w_nproc w →
  length (fds (self s)) + 22 ≤ w_nofile w →
  tokenize command = pre ++ op :: path :: post →
  is_output_op op = true → is_operator path = false →
  forallb (λ t, negb (is_output_op t)) post = true →
  tokenize command !! 0 = Some a0 → is_builtin a0 = false →
  ∃ s' c,
    main_body w command s = Continue s' ∧
    last (created s s') = Some c ∧
    head (opens_of (log (c_proc c))) =
      Some (Some path,
            out_flags (existsb is_append_op (tokenize command)),
            Some mode_0777) ∧
    length (filter (λ x, x.2 = Some mode_0777) (opens_of (log (c_proc c))))
      = 1.
Proof.
  intros Hwf Hproc Hroom Htoks Hop Hpath Hpost Ha0 Hnb.
  rewrite (main_body_exec w command a0 s Ha0 Hnb).
  pose proof (tokenize_length command) as Hlen.
  assert (Hpos : output_file_pos (classify 0 (tokenize command) flags0)
                 = length pre).
  { rewrite Htoks.
    apply (classify_last_output pre (path :: post) op Hop).
    simpl. rewrite Hpost, andb_true_r. apply negb_true_iff.
    unfold is_operator in Hpath. unfold is_output_op.
    repeat (apply orb_false_elim in Hpath as [Hpath ?]).
    by repeat match goal with
              | E : String.eqb _ _ = false |- _ => rewrite E; clear E
              end. }
  destruct (classify_flags (tokenize command) 0 flags0)
    as (_ & Happ & Hout & _). simpl in Happ, Hout.
  assert (Hany : output_redirection (classify 0 (tokenize command) flags0)
                 || append (classify 0 (tokenize command) flags0) = true).
  { rewrite Happ, Hout, Htoks, !existsb_app. simpl.
    rewrite is_output_op_split in Hop.
    destruct (is_truncate_op op), (is_append_op op); simpl in *;
      rewrite ?orb_true_r; done. }
  assert (Harg : arg (blank (tokenize command) ++ [None]) (length pre + 1)
                 = Some path)
    by (rewrite Htoks; by apply arg_blank_after).
  set (toks := tokenize command) in *.
  exists (execCmd w (args_of toks) s).
  destruct (existsb is_pipe_op toks) eqn:Hpipe.
  - destruct (pipe_room w toks s Hlen Hroom) as (r & wr & t2 & Halloc & Hwr).
    rewrite (execCmd_pipe_created w toks s r wr t2) by done.
    eexists. split; [done |]. split; [done |].
    rewrite second_child_opens_exact, Hany, Hpos, Harg, Happ. done.
  - rewrite execCmd_single_created by (done || lia).
    eexists. split; [done |]. split; [done |].
    split; [by rewrite single_child_opens, Hpos, Harg, Happ |].
    apply single_child_one_write_open. exact Hany.
Qed.

Lemma last_output_operator_wins_witness :
  ∃ s' c,
    main_body w_std "ls >> a > b" s_init = Continue s' ∧
    last (created s_init s') = Some c ∧
    head (opens_of (log (c_proc c))) =
      Some (Some "b", [O_WRONLY; O_CREAT; O_APPEND], Some mode_0777) ∧
    length (filter (λ x, x.2 = Some mode_0777) (opens_of (log (c_proc c))))
      = 1.
Proof.
  apply (last_output_operator_wins w_std s_init "ls >> a > b" "ls" ">" "b"
           ["ls"; ">>"; "a"] []).
  - constructor.
  - simpl. lia.
  - simpl. lia.
  - reflexivity.
  - reflexivity.
  - reflexivity.
  - reflexivity.
  - reflexivity.
  - reflexivity.
Defined.

(** X20. In a pipeline an input redirection belongs to the first stage
    wherever it stands on the line, also behind the [|]: the first
    child opens the token behind the last [<] read-only and opens
    nothing else, and the second child opens nothing for reading. *)
Theorem pipeline_input_goes_to_first_stage (w : World) (s : Sys)
    (command a0 path : string) (pre post : list string) :
  sys_wf s →
  length (children s) + 2 ≤ w_nproc w →
  length (fds (self s)) + 22 ≤ w_nofile w →
  tokenize command = pre ++ "<" :: path :: post →
  is_operator path = false →
  existsb is_input_op post = false →
  existsb is_pipe_op (tokenize command) = true →
  tokenize command !! 0 = Some a0 → is_builtin a0 = false →
  ∃ s' c1 c2,
    main_body w command s = Continue s' ∧
    created s s' = [c1; c2] ∧
    opens_of (log (c_proc c1)) = [(Some path, [O_RDONLY], None)] ∧
    Forall (λ x, x.2 = Some mode_0777) (opens_of (log (c_proc c2))).
Proof.
  intros Hwf Hproc Hroom Htoks Hpath Hpost Hpipe Ha0 Hnb.
  rewrite (main_body_exec w command a0 s Ha0 Hnb).
  pose proof (tokenize_length command) as Hlen.
  assert (Hpos : input_file_pos (classify 0 (tokenize command) flags0)
                 = length pre).
  { rewrite Htoks. apply (classify_last_input pre (path :: post)).
    simpl. rewrite Hpost, orb_false_r.
    unfold is_operator in Hpath. unfold is_input_op.
    repeat (apply orb_false_elim in Hpath as [Hpath ?]).
    by repeat match goal with
              | E : String.eqb _ _ = false |- _ => rewrite E; clear E
              end. }
  destruct (classify_flags (tokenize command) 0 flags0)
    as (_ & _ & _ & Hinp). simpl in Hinp.
  assert (Hin : input_redirection (classify 0 (tokenize command) flags0)
                = true).
  { rewrite Hinp, Htoks, existsb_app. simpl. by rewrite orb_true_r. }
  assert (Harg : arg (blank (tokenize command) ++ [None]) (length pre + 1)
                 = Some path)
    by (rewrite Htoks; by apply arg_blank_after).
  set (toks := tokenize command) in *.
  destruct (pipe_room w toks s Hlen Hroom) as (r & wr & t2 & Halloc & Hwr).
  exists (execCmd w (args_of toks) s).
  rewrite (execCmd_pipe_created w toks s r wr t2) by done.
  do 2 eexists. split; [done |]. split; [done |]. split.
  - by rewrite first_child_opens_exact, Hin, Hpos, Harg.
  - rewrite second_child_opens_exact.
    destruct (_ || _); by repeat constructor.
Qed.

Lemma pipeline_input_goes_to_first_stage_witness :
  ∃ s' c1 c2,
    main_body w_std "sort | uniq < words" s_init = Continue s' ∧
    created s_init s' = [c1; c2] ∧
    opens_of (log (c_proc c1)) = [(Some "words", [O_RDONLY], None)] ∧
    Forall (λ x, x.2 = Some mode_0777) (opens_of (log (c_proc c2))).
Proof.
  apply (pipeline_input_goes_to_first_stage w_std s_init
           "sort | uniq < words" "sort" "words" ["sort"; "|"; "uniq"] []).
  - constructor.
  - simpl. lia.
  - simpl. lia.
  - reflexivity.
  - reflexivity.
  - reflexivity.
  - reflexivity.
  - reflexivity.
  - reflexivity.
Defined.

(* ================================================================= *)
(** * Who holds the ends of the pipe *)

Lemma fd_get_put_inv (t : fdtable) (fd k : nat) (o x : fobj) :
  fd_get (fd_put t fd o) k = Some x →
  (k = fd ∧ x = o) ∨ (k ≠ fd ∧ fd_get t k = Some x).
Proof.
  destruct (decide (k = fd)) as [-> | Hne].
  - rewrite fd_get_put_eq. intros [= <-]. by left.
  - rewrite fd_get_put_ne by done. by right.
Qed.

Lemma fd_get_close_inv (t : fdtable) (fd k : nat) (x : fobj) :
  fd_get (fd_close t fd) k = Some x → k ≠ fd ∧ fd_get t k = Some x.
Proof.
  destruct (decide (k = fd)) as [-> | Hne].
  - by rewrite fd_get_close_eq.
  - by rewrite fd_get_close_ne.
Qed.

Lemma fd_alloc_pipe_inv (id : nat) (t : fdtable) (r wr : nat) (t2 : fdtable) :
  fd_alloc_pipe id t = (r, wr, t2) →
  ∀ k x, fd_get t2 k = Some x →
    (k = r ∧ x = PipeObj id ReadEnd) ∨ (k = wr ∧ x = PipeObj id WriteEnd) ∨
    fd_get t k = Some x.
Proof.
  unfold fd_alloc_pipe. intros [= <- <- <-] k x Hk.
  apply fd_get_put_inv in Hk as [[-> ->] | [_ Hk]]; [by right; left |].
  apply fd_get_put_inv in Hk as [[-> ->] | [_ Hk]]; [by left |].
  by do 2 right.
Qed.

Lemma sys_pipe_pipes_below (w : World) (s : Sys) :
  pipes_below (next_pipe s) (fds (self s)) →
  pipes_below (next_pipe (sys_pipe w s).2) (fds (self (sys_pipe w s).2)).
Proof.
  intros Hbelow. unfold sys_pipe.
  destruct (fd_alloc_pipe _ _) as [[r wr] t2] eqn:Halloc.
  destruct (bool_decide _); simpl; [| done].
  intros k id e Hk.
  destruct (fd_alloc_pipe_inv _ _ _ _ _ Halloc _ _ Hk)
    as [[_ [= -> _]] | [[_ [= -> _]] | Hold]]; [lia | lia |].
  specialize (Hbelow _ _ _ Hold). lia.
Qed.

Lemma scan_pipes_pipes_below (w : World) (toks : list string) :
  ∀ s, pipes_below (next_pipe s) (fds (self s)) →
       pipes_below (next_pipe (scan_pipes w toks s))
         (fds (self (scan_pipes w toks s))).
Proof.
  induction toks as [| t r IH]; intros s Hbelow; simpl; [done |].
  apply IH. destruct (String.eqb t "|"); [| done].
  by apply sys_pipe_pipes_below.
Qed.

Lemma k_open_only_files (w : World) (path : option string)
    (flags : list oflag) (mode : option N) (p : Proc) (res : option nat)
    (p' : Proc) :
  k_open w path flags mode p = (res, p') →
  only_files_added (fds p) (fds p') ∧
  ∀ fd, res = Some fd → ∃ f, fd_get (fds p') fd = Some (FileObj f flags).
Proof.
  intros [_ Hres]%k_open_spec. destruct res as [fd |].
  - destruct Hres as (f & _ & -> & ->). split.
    + intros k x Hk. apply fd_get_put_inv in Hk as [[_ ->] | [_ Hk]]; eauto.
    + intros fd [= <-]. exists f. apply fd_get_put_eq.
  - rewrite Hres. split; [by right | done].
Qed.

Lemma redirected_only_files (t t' : fdtable) (fd std : nat) (f : string)
    (flags : list oflag) :
  only_files_added t t' →
  fd_get t' fd = Some (FileObj f flags) →
  only_files_added t (fd_close (fd_put t' std (FileObj f flags)) fd).
Proof.
  intros Hadd Hfd k x Hk.
  apply fd_get_close_inv in Hk as [_ Hk].
  apply fd_get_put_inv in Hk as [[_ ->] | [_ Hk]]; [eauto |].
  by apply Hadd.
Qed.

Lemma wp_inputRedirection_only_files (w : World) (cmd : list (option string))
    (pos : nat) (p : Proc) :
  wp (inputRedirection w cmd pos)
    (λ _ p', only_files_added (fds p) (fds p'))
    (λ _ p', only_files_added (fds p) (fds p')) p.
Proof.
  apply wp_inputRedirection.
  - intros fd p' Heq. destruct (k_open_only_files _ _ _ _ _ _ _ Heq)
      as [Hadd Hfd]. destruct (Hfd fd eq_refl) as [f Hf].
    rewrite fds_k_close, fds_k_dup2, Hf. by apply redirected_only_files.
  - intros p' Heq. by destruct (k_open_only_files _ _ _ _ _ _ _ Heq).
Qed.

Lemma wp_outputRedirection_only_files (w : World) (cmd : list (option string))
    (pos : nat) (app : bool) (p : Proc) :
  wp (outputRedirection w cmd pos app)
    (λ _ p', only_files_added (fds p) (fds p'))
    (λ _ p', only_files_added (fds p) (fds p')) p.
Proof.
  apply wp_outputRedirection.
  - intros fd p' Heq. destruct (k_open_only_files _ _ _ _ _ _ _ Heq)
      as [Hadd Hfd]. destruct (Hfd fd eq_refl) as [f Hf].
    rewrite fds_k_close, fds_k_dup2, Hf. by apply redirected_only_files.
  - intros p' Heq. by destruct (k_open_only_files _ _ _ _ _ _ _ Heq).
Qed.

(** The table of a pipeline child once it has closed one end,
    duplicated the other onto its standard stream and closed that
    too. *)
Lemma rewired_table (id : nat) (t2 : fdtable) (mine other std : nat)
    (e : pipe_end) :
  mine ≠ other → mine ≠ std →
  fd_get t2 mine = Some (PipeObj id e) →
  (∀ k e', fd_get t2 k = Some (PipeObj id e') →
           (k = mine ∧ e' = e) ∨ k = other) →
  holds_pipe_only_at id std e
    (fd_close (fd_put (fd_close t2 other) std (PipeObj id e)) mine).
Proof.
  intros Hmo Hms Hmine Honly. split.
  - rewrite fd_get_close_ne by done. apply fd_get_put_eq.
  - intros k e' Hk.
    apply fd_get_close_inv in Hk as [Hkm Hk].
    apply fd_get_put_inv in Hk as [[-> [= ->]] | [_ Hk]]; [done |].
    apply fd_get_close_inv in Hk as [Hko Hk].
    destruct (Honly _ _ Hk) as [[-> _] | ->]; done.
Qed.

Lemma holds_pipe_only_at_files (id fd : nat) (e : pipe_end) (t t' : fdtable) :
  holds_pipe_only_at id fd e t →
  only_files_added t t' →
  fd_get t' fd = Some (PipeObj id e) →
  holds_pipe_only_at id fd e t'.
Proof.
  intros [_ Honly] Hadd Hfd. split; [done |].
  intros k e' Hk. destruct (Hadd _ _ Hk) as [(f & fl & [=]) | Hold].
  by apply Honly.
Qed.

Section PipeEnds.
Context (w : World) (parsed : list (option string)) (pid id : nat)
  (t2 : fdtable) (r wr : nat).
Hypothesis Hrw : r ≠ wr.
Hypothesis Hr : fd_get t2 r = Some (PipeObj id ReadEnd).
Hypothesis Hw : fd_get t2 wr = Some (PipeObj id WriteEnd).
Hypothesis Honly : ∀ k e, fd_get t2 k = Some (PipeObj id e) →
                          (k = r ∧ e = ReadEnd) ∨ (k = wr ∧ e = WriteEnd).

Lemma first_child_holds_write_end (inp : bool) (ipos : nat) :
  wr ≠ STDOUT_FILENO →
  holds_pipe_only_at id STDOUT_FILENO WriteEnd
    (fds (c_proc (spawn pid (first_child w parsed r wr inp ipos) t2))).
Proof.
  intros Hw1.
  pose proof (first_child_stdout w parsed pid t2 r wr inp ipos _ Hrw Hw1 Hw)
    as Hout. revert Hout.
  apply (spawn_wp (λ _ p,
    fd_get (fds p) STDOUT_FILENO = Some (PipeObj id WriteEnd) →
    holds_pipe_only_at id STDOUT_FILENO WriteEnd (fds p))).
  unfold first_child. do 7 wp_step.
  set (p3 := k_close _ (k_dup2 _ _ (k_close _ _))).
  assert (Hbase : holds_pipe_only_at id STDOUT_FILENO WriteEnd (fds p3)).
  { unfold p3. rewrite !Nat2Z.id.
    rewrite fds_k_close, fds_k_dup2, fds_k_close. simpl.
    rewrite fd_get_close_ne, Hw by done.
    apply rewired_table; [done | done | done |].
    intros k e Hk. destruct (Honly _ _ Hk) as [[-> _] | [-> ->]]; auto. }
  eapply wp_mono with
    (Q := λ _ p', only_files_added (fds p3) (fds p'))
    (E := λ _ p', only_files_added (fds p3) (fds p')).
  - apply wp_if; intros _;
      [apply wp_inputRedirection_only_files | apply wp_ret; by right].
  - intros [] p' Hp'. simpl. wp_run; log_simpl; intros Hfd;
      by eapply holds_pipe_only_at_files.
  - intros e p' Hp' Hfd. by eapply holds_pipe_only_at_files.
Qed.

Lemma second_child_holds_read_end (out app : bool) (opos ppos : nat) :
  r ≠ STDIN_FILENO →
  holds_pipe_only_at id STDIN_FILENO ReadEnd
    (fds (c_proc
      (spawn pid (second_child w parsed r wr out app opos ppos) t2))).
Proof.
  intros Hr0.
  pose proof (second_child_stdin w parsed pid t2 r wr out app opos ppos _
                Hrw Hr0 Hr) as Hin. revert Hin.
  apply (spawn_wp (λ _ p,
    fd_get (fds p) STDIN_FILENO = Some (PipeObj id ReadEnd) →
    holds_pipe_only_at id STDIN_FILENO ReadEnd (fds p))).
  unfold second_child. do 7 wp_step.
  set (p3 := k_close _ (k_dup2 _ _ (k_close _ _))).
  assert (Hbase : holds_pipe_only_at id STDIN_FILENO ReadEnd (fds p3)).
  { unfold p3. rewrite !Nat2Z.id.
    rewrite fds_k_close, fds_k_dup2, fds_k_close. simpl.
    rewrite fd_get_close_ne, Hr by done.
    apply rewired_table; [done | done | done |].
    intros k e Hk. destruct (Honly _ _ Hk) as [[-> ->] | [-> _]]; auto. }
  eapply wp_mono with
    (Q := λ _ p', only_files_added (fds p3) (fds p'))
    (E := λ _ p', only_files_added (fds p3) (fds p')).
  - apply wp_if; intros _;
      [apply wp_outputRedirection_only_files | apply wp_ret; by right].
  - intros [] p' Hp'. simpl. wp_run; log_simpl; intros Hfd;
      by eapply holds_pipe_only_at_files.
  - intros e p' Hp' Hfd. by eapply holds_pipe_only_at_files.
Qed.

Lemma parent_holds_no_end :
  holds_no_pipe id (fd_close (fd_close t2 r) wr).
Proof.
  intros k e Hk.
  apply fd_get_close_inv in Hk as [Hkw Hk].
  apply fd_get_close_inv in Hk as [Hkr Hk].
  destruct (Honly _ _ Hk) as [[-> _] | [-> _]]; done.
Qed.
End PipeEnds.

(** X21. After a line with [|] the pipe that joins the two stages is held
    by exactly two descriptors in the whole system: the standard
    output of the first child, on its write end, and the standard
    input of the second child, on its read end.  Neither child keeps
    another descriptor on it and the interpreter keeps none, so the
    reader sees end of input as soon as the first stage is done. *)
Theorem pipe_ends_are_held_by_the_stages_only (w : World) (s : Sys)
    (command a0 : string) :
  sys_wf s →
  length (children s) + 2 ≤ w_nproc w →
  length (fds (self s)) + 22 ≤ w_nofile w →
  is_Some (fd_get (fds (self s)) STDIN_FILENO) →
  is_Some (fd_get (fds (self s)) STDOUT_FILENO) →
  pipes_below (next_pipe s) (fds (self s)) →
  existsb is_pipe_op (tokenize command) = true →
  tokenize command !! 0 = Some a0 → is_builtin a0 = false →
  ∃ s' c1 c2 id,
    main_body w command s = Continue s' ∧
    created s s' = [c1; c2] ∧
    holds_pipe_only_at id STDOUT_FILENO WriteEnd (fds (c_proc c1)) ∧
    holds_pipe_only_at id STDIN_FILENO ReadEnd (fds (c_proc c2)) ∧
    holds_no_pipe id (fds (self s')).
Proof.
  intros Hwf Hproc Hroom [o0 Hin] [o1 Hout] Hbelow Hpipe Ha0 Hnb.
  rewrite (main_body_exec w command a0 s Ha0 Hnb).
  pose proof (tokenize_length command) as Hlen.
  set (toks := tokenize command) in *.
  destruct (pipe_room w toks s Hlen Hroom) as (r & wr & t2 & Halloc & Hwr).
  destruct (scan_pipes_fds w toks s) as (_ & _ & Hkeep).
  pose proof (scan_pipes_pipes_below w toks s Hbelow) as Hbelow1.
  pose proof (fd_alloc_pipe_spec _ _ _ _ _ Halloc)
    as (Hrw & Hr & Hw & Hold & _ & _).
  destruct (Hold _ _ (Hkeep _ _ Hin)) as (Hr0 & _ & _).
  destruct (Hold _ _ (Hkeep _ _ Hout)) as (_ & Hw1 & _).
  assert (Honly : ∀ k e,
    fd_get t2 k = Some (PipeObj (next_pipe (scan_pipes w toks s)) e) →
    (k = r ∧ e = ReadEnd) ∨ (k = wr ∧ e = WriteEnd)).
  { intros k e Hk.
    destruct (fd_alloc_pipe_inv _ _ _ _ _ Halloc _ _ Hk)
      as [[-> [= ->]] | [[-> [= ->]] | Hk']]; [by left | by right |].
    specialize (Hbelow1 _ _ _ Hk'). lia. }
  exists (execCmd w (args_of toks) s).
  rewrite (execCmd_pipe_created w toks s r wr t2) by done.
  rewrite (execCmd_pipe_fds w toks s r wr t2) by done.
  do 3 eexists. split; [done |]. split; [done |].
  split; [by apply first_child_holds_write_end |].
  split; [by apply second_child_holds_read_end |].
  by apply parent_holds_no_end.
Qed.

Lemma pipe_ends_are_held_by_the_stages_only_witness :
  ∃ s' c1 c2 id,
    main_body w_std "ls | wc > n" s_init = Continue s' ∧
    created s_init s' = [c1; c2] ∧
    holds_pipe_only_at id STDOUT_FILENO WriteEnd (fds (c_proc c1)) ∧
    holds_pipe_only_at id STDIN_FILENO ReadEnd (fds (c_proc c2)) ∧
    holds_no_pipe id (fds (self s')).
Proof.
  apply (pipe_ends_are_held_by_the_stages_only w_std s_init
           "ls | wc > n" "ls").
  - constructor.
  - simpl. lia.
  - simpl. lia.
  - by eexists.
  - by eexists.
  - intros k id e Hk.
    destruct k as [| [| [| [| k]]]]; discriminate Hk.
  - reflexivity.
  - reflexivity.
  - reflexivity.
Defined.

(* ================================================================= *)
(** * The scan, slot by slot *)

(** X22. The scan overwrites exactly the operator tokens with null
    pointers: every other slot of [args] keeps its token, the
    terminator stays, and the array keeps its length. *)
Theorem scan_blanks_exactly_the_operators (w : World) (s : Sys)
    (command : string) :
  let toks := tokenize command in
  let parsed := (scan_loop w 10 0 (args_of toks) flags0 s).1.1 in
  length parsed = S (length toks) ∧
  arg parsed (length toks) = None ∧
  ∀ i t, toks !! i = Some t →
         arg parsed i = if is_operator t then None else Some t.
Proof.
  intros toks parsed. unfold parsed.
  rewrite scan_args_of by apply tokenize_length. simpl.
  split; [| split].
  - rewrite length_app. unfold blank. rewrite length_fmap. simpl. lia.
  - rewrite arg_blank. by rewrite lookup_ge_None_2.
  - intros i t Hi. by rewrite arg_blank, Hi.
Qed.

(** X23. Each flag the scan returns is set exactly when its operator
    occurs among the tokens, wherever it stands. *)
Theorem scan_flags_by_occurrence (w : World) (s : Sys) (command : string) :
  let toks := tokenize command in
  let f := (scan_loop w 10 0 (args_of toks) flags0 s).1.2 in
  background f = existsb is_amp toks ∧
  append f = existsb is_append_op toks ∧
  output_redirection f = existsb is_truncate_op toks ∧
  input_redirection f = existsb is_input_op toks ∧
  is_pipe f = existsb is_pipe_op toks.
Proof.
  intros toks f. unfold f.
  rewrite scan_args_of by apply tokenize_length. simpl.
  destruct (classify_flags toks 0 flags0) as (-> & -> & -> & ->).
  by rewrite classify_is_pipe.
Qed.

(* ================================================================= *)
(** * Input redirection of a single command *)

Lemma single_child_input_only (w : World) (parsed : list (option string))
    (pid : nat) (t : fdtable) (f : Flags) :
  output_redirection f || append f = false →
  opens_of (log (c_proc (spawn pid (single_child w parsed f) t))) =
    if input_redirection f
    then [(arg parsed (input_file_pos f + 1), [O_RDONLY], None)]
    else [].
Proof.
  intros Hno.
  apply (spawn_wp (λ _ p, opens_of (log p) =
    if input_redirection f
    then [(arg parsed (input_file_pos f + 1), [O_RDONLY], None)]
    else [])).
  unfold single_child. wp_run; log_simpl; try congruence;
    match goal with H : input_redirection _ = _ |- _ => by rewrite H end.
Qed.

Lemma no_output_flags (toks : list string) :
  existsb is_output_op toks = false →
  output_redirection (classify 0 toks flags0)
  || append (classify 0 toks flags0) = false.
Proof.
  intros Hno.
  destruct (classify_flags toks 0 flags0) as (_ & -> & -> & _). simpl.
  induction toks as [| t r IH]; [done |]. simpl in *.
  apply orb_false_elim in Hno as [Ht Hr].
  rewrite is_output_op_split in Ht. apply orb_false_elim in Ht as [-> ->].
  simpl. by apply IH.
Qed.

(** X24. A command without [|] and without output redirection whose line
    has a [<]: the child opens the token behind the last [<]
    read-only and opens nothing else.  When that [open] succeeds the
    child calls [execvp] exactly once, on the run of ordinary tokens
    that begins the line; when it fails the child calls [execvp] not
    at all, reports the failure and exits with status 1. *)
Theorem input_redirection_target (w : World) (s : Sys)
    (command a0 path : string) (pre post : list string) :
  sys_wf s →
  length (children s) < w_nproc w →
  tokenize command = pre ++ "<" :: path :: post →
  is_operator path = false →
  existsb is_input_op post = false →
  existsb is_output_op (tokenize command) = false →
  existsb is_pipe_op (tokenize command) = false →
  tokenize command !! 0 = Some a0 → is_builtin a0 = false →
  ∃ s' c,
    main_body w command s = Continue s' ∧
    created s s' = [c] ∧
    opens_of (log (c_proc c)) = [(Some path, [O_RDONLY], None)] ∧
    runs_argv c (until_operator pre).
Proof.
  intros Hwf Hproc Htoks Hpath Hpost Hnoout Hnopipe Ha0 Hnb.
  rewrite (main_body_exec w command a0 s Ha0 Hnb).
  pose proof (tokenize_length command) as Hlen.
  assert (Hpos : input_file_pos (classify 0 (tokenize command) flags0)
                 = length pre).
  { rewrite Htoks. apply (classify_last_input pre (path :: post)).
    simpl. rewrite Hpost, orb_false_r.
    unfold is_operator in Hpath. unfold is_input_op.
    repeat (apply orb_false_elim in Hpath as [Hpath ?]).
    by repeat match goal with
              | E : String.eqb _ _ = false |- _ => rewrite E; clear E
              end. }
  destruct (classify_flags (tokenize command) 0 flags0)
    as (_ & _ & _ & Hinp). simpl in Hinp.
  assert (Hin : input_redirection (classify 0 (tokenize command) flags0)
                = true).
  { rewrite Hinp, Htoks, existsb_app. simpl. by rewrite orb_true_r. }
  assert (Harg : arg (blank (tokenize command) ++ [None]) (length pre + 1)
                 = Some path)
    by (rewrite Htoks; by apply arg_blank_after).
  assert (Hargv : until_operator pre = until_operator (tokenize command))
    by (by rewrite Htoks, until_operator_app_operator).
  pose proof (no_output_flags _ Hnoout) as Hno.
  set (toks := tokenize command) in *.
  exists (execCmd w (args_of toks) s).
  rewrite execCmd_single_created by done.
  eexists. split; [done |]. split; [done |]. split.
  - by rewrite single_child_input_only, Hin, Hpos, Harg.
  - rewrite Hargv, <- c_argv_blank. apply single_child_runs_argv.
Qed.

Lemma input_redirection_target_witness :
  ∃ s' c,
    main_body w_std "cat -n < f.txt" s_init = Continue s' ∧
    created s_init s' = [c] ∧
    opens_of (log (c_proc c)) = [(Some "f.txt", [O_RDONLY], None)] ∧
    runs_argv c ["cat"; "-n"].
Proof.
  apply (input_redirection_target w_std s_init "cat -n < f.txt" "cat" "f.txt"
           ["cat"; "-n"] []).
  - constructor.
  - simpl. lia.
  - reflexivity.
  - reflexivity.
  - reflexivity.
  - reflexivity.
  - reflexivity.
  - reflexivity.
  - reflexivity.
Defined.

(* ================================================================= *)
(** * The descriptors a pipeline costs *)

Lemma pipeline_leaks_two_descriptors_witness :
  open_count (fds (self (sys_of (main_body w_std "ls -l | wc > n &" s_init))))
    = open_count (fds (self s_init)) + 2.
Proof.
  apply (pipeline_leaks_two_descriptors w_std s_init "ls -l | wc > n &" "ls"
           ["ls"; "-l"] ["wc"; ">"; "n"; "&"]).
  - simpl. lia.
  - simpl. lia.
  - reflexivity.
  - reflexivity.
  - reflexivity.
  - reflexivity.
Defined.

(* ================================================================= *)
(** * Operators without their argument: what reaches the child *)

Lemma existsb_is_output_op (toks : list string) :
  existsb is_output_op toks =
    existsb is_truncate_op toks || existsb is_append_op toks.
Proof.
  induction toks as [| t r IH]; [done |]. simpl.
  rewrite IH, is_output_op_split.
  destruct (is_truncate_op t), (is_append_op t),
    (existsb is_truncate_op r), (existsb is_append_op r); done.
Qed.

(** An output redirection the child of a line ending in [<] or [|]
    tries stands before that operator. *)
Lemma output_flags_before (pre : list string) (op : string) :
  is_output_op op = false →
  let f := classify_step (length pre) op (classify 0 pre flags0) in
  output_redirection f || append f = existsb is_output_op pre.
Proof.
  intros Hop. simpl.
  destruct (classify_step_no_output (length pre) op (classify 0 pre flags0) Hop)
    as (-> & -> & _).
  destruct (classify_flags pre 0 flags0) as (_ & -> & -> & _). simpl.
  by rewrite existsb_is_output_op.
Qed.

(** C1, amended. A line that ends in [>], [>>], [<] or [|] is not
    rejected and the interpreter reports nothing: [execCmd] creates one
    child, or two when the line has a [|].  The missing argument
    reaches a child as a null pointer: the first child for [<], the
    last one for [>], [>>] and [|].  Behind [>], [>>] or [<] that
    child calls [open] on a null path, reports the failure and exits
    with status 1, never calling [execvp].  Behind [|] it calls
    [execvp] on a null program and an empty argument vector and is
    killed in that call, reporting nothing.  Behind [<] or [|] the
    same child first tries the output redirection of the line, if an
    output operator stands before, and ends there in the same way when
    that [open] fails. *)
Theorem trailing_operator_reaches_child (w : World) (s : Sys)
    (command a0 op : string) (pre : list string) :
  sys_wf s →
  length (children s) + 2 ≤ w_nproc w →
  length (fds (self s)) + 22 ≤ w_nofile w →
  tokenize command = pre ++ [op] →
  is_redirection_op op || is_pipe_op op = true →
  tokenize command !! 0 = Some a0 → is_builtin a0 = false →
  ∃ s',
    main_body w command s = Continue s' ∧
    reports_of (log (self s')) = reports_of (log (self s)) ∧
    length (created s s') =
      (if existsb is_pipe_op (tokenize command) then 2 else 1) ∧
    ∃ c,
      (if is_input_op op then head (created s s') else last (created s s'))
        = Some c ∧
      ((if is_pipe_op op then null_program c
        else ∃ flags mode, open_failed c None flags mode) ∨
       (is_output_op op = false ∧ existsb is_output_op pre = true ∧
        ∃ path flags, open_failed c path flags (Some mode_0777))).
Proof.
  intros Hwf Hproc Hroom Htoks Hop Ha0 Hnb.
  rewrite (main_body_exec w command a0 s Ha0 Hnb).
  pose proof (tokenize_length command) as Hlen.
  assert (Hflags : classify 0 (tokenize command) flags0
                   = classify_step (length pre) op (classify 0 pre flags0))
    by (by rewrite Htoks, classify_snoc).
  assert (Harg : arg (blank (tokenize command) ++ [None]) (length pre + 1)
                 = None).
  { rewrite arg_blank, Htoks, lookup_ge_None_2; [done |].
    rewrite length_app. simpl. lia. }
  set (toks := tokenize command) in *.
  exists (execCmd w (args_of toks) s). split; [done |].
  split; [by apply execCmd_quiet |].
  destruct (existsb is_pipe_op toks) eqn:Hpipe.
  - destruct (pipe_room w toks s Hlen Hroom) as (r & wr & t2 & Halloc & Hwr).
    rewrite (execCmd_pipe_created w toks s r wr t2) by done.
    split; [done |]. rewrite Hflags.
    apply orb_true_iff in Hop
      as [[-> | [-> | ->]]%is_redirection_op_cases | ->%String.eqb_eq].
    + eexists. split; [done |].
      left. simpl. do 2 eexists.
      apply second_child_null_output; simpl; [done | exact Harg].
    + eexists. split; [done |].
      left. simpl. do 2 eexists.
      apply second_child_null_output; simpl;
        [by rewrite orb_true_r | exact Harg].
    + eexists. split; [done |].
      left. simpl. do 2 eexists.
      by apply first_child_null_input.
    + eexists. split; [done |].
      pose proof (output_flags_before pre "|" eq_refl) as Hbefore.
      cbn zeta in Hbefore. rewrite <- Hbefore.
      match goal with
      | |- context [spawn ?pid (second_child ?w ?a ?r ?wr ?o ?ap ?op ?pp) ?t] =>
          destruct (second_child_null_program w a pid t r wr o ap op pp)
            as [Hnull | [Hany [path Hfail]]]
      end; [exact Harg | by left | right].
      split; [done |]. split; [exact Hany |]. by do 2 eexists.
  - rewrite execCmd_single_created by (done || lia).
    split; [done |]. rewrite Hflags.
    exists (spawn (next_pid s)
              (single_child w (blank toks ++ [None])
                 (classify_step (length pre) op (classify 0 pre flags0)))
              (fds (self s))).
    split; [by destruct (is_input_op op) |].
    apply orb_true_iff in Hop
      as [[-> | [-> | ->]]%is_redirection_op_cases | ->%String.eqb_eq].
    + left. simpl. do 2 eexists.
      apply single_child_null_output; simpl; [done | exact Harg].
    + left. simpl. do 2 eexists.
      apply single_child_null_output; simpl;
        [by rewrite orb_true_r | exact Harg].
    + pose proof (output_flags_before pre "<" eq_refl) as Hbefore.
      cbn zeta in Hbefore. rewrite <- Hbefore.
      match goal with
      | |- context [spawn ?pid (single_child ?w ?a ?f) ?t] =>
          destruct (single_child_null_input w a pid t f)
            as [Hnull | [Hany [path Hfail]]]
      end; [done | exact Harg | left; by do 2 eexists | right].
      split; [done |]. split; [exact Hany |]. by do 2 eexists.
    + rewrite Htoks, existsb_app in Hpipe. simpl in Hpipe.
      by rewrite orb_true_r in Hpipe.
Qed.

Lemma trailing_operator_reaches_child_witness :
  ∃ s',
    main_body w_std "ls |" s_init = Continue s' ∧
    reports_of (log (self s')) = reports_of (log (self s_init)) ∧
    length (created s_init s') = 2 ∧
    ∃ c, last (created s_init s') = Some c ∧
      (null_program c ∨
       (false = false ∧ false = true ∧
        ∃ path flags, open_failed c path flags (Some mode_0777))).
Proof.
  apply (trailing_operator_reaches_child w_std s_init "ls |" "ls" "|"
           ["ls"]).
  - constructor.
  - simpl. lia.
  - simpl. lia.
  - reflexivity.
  - reflexivity.
  - reflexivity.
  - reflexivity.
Defined.

(* ================================================================= *)
(** * The standard streams behind a pipe *)

Lemma fd_lowest_free_below (t : fdtable) :
  ∀ k, k < fd_lowest_free t → is_Some (fd_get t k).
Proof.
  induction t as [| [o |] t IH]; intros k Hk; simpl in Hk; [lia | | lia].
  destruct k as [| k]; [by eexists |]. apply IH. lia.
Qed.

(** A pipe takes the two lowest free descriptors: once it is there,
    descriptors 0 and 1 are open, whatever was open before. *)
Lemma fd_alloc_pipe_std (id : nat) (t : fdtable) (r wr : nat) (t2 : fdtable) :
  fd_alloc_pipe id t = (r, wr, t2) →
  is_Some (fd_get t2 STDIN_FILENO) ∧ is_Some (fd_get t2 STDOUT_FILENO).
Proof.
  unfold fd_alloc_pipe. intros [= <- <- <-].
  set (r := fd_lowest_free t).
  set (t1 := fd_put t r (PipeObj id ReadEnd)).
  set (wr := fd_lowest_free t1).
  assert (Hopen : ∀ k, k < 2 → is_Some (fd_get (fd_put t1 wr (PipeObj id WriteEnd)) k)).
  { intros k Hk.
    destruct (decide (k = wr)) as [-> | Hkw]; [rewrite fd_get_put_eq; by eexists |].
    rewrite fd_get_put_ne by done.
    destruct (decide (k < wr)) as [Hlt | Hge];
      [by apply fd_lowest_free_below |].
    assert (wr < k) as Hwk by lia.
    assert (wr = 0) as Hw0 by lia.
    assert (is_Some (fd_get t1 0)) as [o Ho]; [| unfold wr in Hw0;
      pose proof (fd_get_lowest_free t1) as Hfree; rewrite Hw0 in Hfree;
      congruence].
    unfold t1. destruct (decide (r = 0)) as [-> | Hr];
      [rewrite fd_get_put_eq; by eexists |].
    rewrite fd_get_put_ne by done. apply fd_lowest_free_below. fold r. lia. }
  split; apply Hopen; unfold STDIN_FILENO, STDOUT_FILENO; lia.
Qed.

Lemma sys_pipe_std (w : World) (s : Sys) :
  length (fds (self s)) + 2 ≤ w_nofile w →
  is_Some (fd_get (fds (self (sys_pipe w s).2)) STDIN_FILENO) ∧
  is_Some (fd_get (fds (self (sys_pipe w s).2)) STDOUT_FILENO).
Proof.
  intros Hroom. unfold sys_pipe.
  destruct (fd_alloc_pipe _ _) as [[r wr] t2] eqn:Halloc.
  pose proof (fd_alloc_pipe_spec _ _ _ _ _ Halloc) as (_ & _ & _ & _ & Hwr & _).
  rewrite bool_decide_eq_true_2 by lia. simpl.
  by eapply fd_alloc_pipe_std.
Qed.

(** The scan of a line with a [|] leaves the interpreter with
    descriptors 0 and 1 open: if one of them was closed, the pipe the
    scan creates has taken it. *)
Lemma scan_pipes_std (w : World) (toks : list string) :
  ∀ s, existsb is_pipe_op toks = true →
       length (fds (self s)) + 2 ≤ w_nofile w →
       is_Some (fd_get (fds (self (scan_pipes w toks s))) STDIN_FILENO) ∧
       is_Some (fd_get (fds (self (scan_pipes w toks s))) STDOUT_FILENO).
Proof.
  induction toks as [| t r IH]; intros s Hpipe Hroom; [done |].
  simpl in *. unfold is_pipe_op at 1 in Hpipe.
  destruct (String.eqb t "|"); [| by apply IH].
  destruct (sys_pipe_std w s Hroom) as [[o0 H0] [o1 H1]].
  destruct (scan_pipes_fds w r (sys_pipe w s).2) as (_ & _ & Hkeep).
  split; eexists; by apply Hkeep.
Qed.

(* ================================================================= *)
(** * The two stages of a pipeline *)



(* ================================================================= *)
(** * Where the output of a child goes *)

(** Once standard output is a given object, nothing a child does
    behind its output redirection changes that. *)
Lemma wp_execvp_keeps (w : World) (file : option string)
    (argv : list (option string)) (p : Proc) (k : nat) (o : fobj) :
  fd_get (fds p) k = Some o →
  wp (execvp w file argv)
    (λ _ p', fd_get (fds p') k = Some o)
    (λ _ p', fd_get (fds p') k = Some o) p.
Proof. intros Hk. apply wp_execvp; intros; by log_simpl. Qed.

(** The table an output redirection leaves when its [open] succeeded:
    standard output is the file. *)
Lemma wp_outputRedirection_stdout (w : World) (cmd : list (option string))
    (pos : nat) (app : bool) (p : Proc) (path : string) (o : fobj) :
  arg cmd (pos + 1) = Some path →
  fd_get (fds p) STDOUT_FILENO = Some o →
  wp (outputRedirection w cmd pos app)
    (λ _ p', fd_get (fds p') STDOUT_FILENO
             = Some (FileObj path (out_flags app)))
    (λ _ p', (Some path, out_flags app, Some mode_0777)
             ∈ failed_opens (log p')) p.
Proof.
  intros Harg Hout. apply wp_outputRedirection.
  - intros fd p' [_ (f & Hf & -> & Hfds)]%k_open_spec.
    assert (f = path) as -> by congruence.
    pose proof (fd_lowest_free_ne _ _ _ Hout) as Hne.
    rewrite fds_k_close, fds_k_dup2, Hfds, fd_get_put_eq.
    rewrite fd_get_close_ne by done. apply fd_get_put_eq.
  - intros p' [Hlog _]%k_open_spec. log_simpl.
    rewrite Harg, app_nil_r. apply elem_of_app. right. apply list_elem_of_here.
Qed.

Section Stdout.
Context (w : World) (parsed : list (option string)) (pid : nat) (t : fdtable).

Lemma single_child_stdout_file (f : Flags) (path : string) (o : fobj) :
  output_redirection f || append f = true →
  arg parsed (output_file_pos f + 1) = Some path →
  fd_get t STDOUT_FILENO = Some o →
  let c := spawn pid (single_child w parsed f) t in
  (Some path, out_flags (append f), Some mode_0777)
    ∉ failed_opens (log (c_proc c)) →
  fd_get (fds (c_proc c)) STDOUT_FILENO
    = Some (FileObj path (out_flags (append f))).
Proof.
  intros Hflag Harg Hout.
  apply (spawn_wp (λ _ p,
    (Some path, out_flags (append f), Some mode_0777)
      ∉ failed_opens (log p) →
    fd_get (fds p) STDOUT_FILENO = Some (FileObj path (out_flags (append f))))).
  unfold single_child. rewrite Hflag.
  apply wp_bind.
  eapply wp_mono;
    [by apply (wp_outputRedirection_stdout w parsed _ _ _ path o Harg) | |].
  - intros [] p1 Hp1. simpl.
    apply wp_bind.
    eapply wp_mono with
      (Q := λ _ p', fd_get (fds p') STDOUT_FILENO
                    = Some (FileObj path (out_flags (append f))))
      (E := λ _ p', fd_get (fds p') STDOUT_FILENO
                    = Some (FileObj path (out_flags (append f)))).
    + apply wp_if; intros _;
        [by apply wp_inputRedirection_keeps | by apply wp_ret].
    + intros [] p2 Hp2. simpl. wp_run; by log_simpl.
    + done.
  - intros e p1 Hp1 Hno. done.
Qed.

Lemma second_child_stdout_file (r wr : nat) (out app : bool)
    (opos ppos : nat) (path : string) (o : fobj) :
  out || app = true →
  arg parsed (opos + 1) = Some path →
  fd_get t STDOUT_FILENO = Some o →
  r ≠ STDOUT_FILENO → wr ≠ STDOUT_FILENO →
  let c := spawn pid (second_child w parsed r wr out app opos ppos) t in
  (Some path, out_flags app, Some mode_0777)
    ∉ failed_opens (log (c_proc c)) →
  fd_get (fds (c_proc c)) STDOUT_FILENO = Some (FileObj path (out_flags app)).
Proof.
  intros Hflag Harg Hout Hr Hw.
  apply (spawn_wp (λ _ p,
    (Some path, out_flags app, Some mode_0777) ∉ failed_opens (log p) →
    fd_get (fds p) STDOUT_FILENO = Some (FileObj path (out_flags app)))).
  unfold second_child. rewrite Hflag. do 6 wp_step.
  apply wp_bind.
  eapply wp_mono;
    [apply (wp_outputRedirection_stdout w parsed _ _ _ path o Harg) | |].
  - rewrite !Nat2Z.id. apply k_close_keeps; [done |].
    apply k_dup2_keeps; [done |]. by apply k_close_keeps.
  - intros [] p1 Hp1. simpl. wp_run; by log_simpl.
  - intros e p1 Hp1 Hno. done.
Qed.
End Stdout.

(* ================================================================= *)
(** * Output redirection: the target and the argument vector *)



